(** * AutonomyCLTrust: the teleoperation fusion node and the torque controller

    A shallow embedding of
      - [ros2_ws/src/cpp_pubsub/src/real_controller.cpp] (module [RealController]),
      - [sharing/my_controller.cpp] (module [MyController]),
    and the properties of their control logic.

    Conventions of the embedding.
      - A C++ [double] is a primitive binary64 float of Rocq; every arithmetic
        operation is one IEEE operation rounded to nearest-even, in the order
        the C++ expression evaluates it.
      - [std::vector<double>] is a [list float]; [v.at(i)] throws
        [out_of_range] outside the vector.  Eigen's fixed [Vector7d] is a
        [vec float 7].
      - A function body is a computation in a state-and-exception monad: a
        throw keeps the writes made before it.
      - A C++ reference parameter is a lens into the state.
      - Calls into ROS and KDL are recorded in a trace, in program order.
        Console output is not modelled. *)

From Stdlib Require Import ZArith Lia Bool List Floats String DecimalString.
From stdpp Require Import base list vector finite.
Set Warnings "-inexact-float".

(** ** C++ doubles *)

Module Double.

(** [(double) z] for a C++ [int]. *)
Definition of_int (z : Z) : float :=
  if (z <? 0)%Z then (- of_uint63 (Uint63.of_Z (- z)))%float
  else of_uint63 (Uint63.of_Z z).

(** Neither an infinity nor a NaN. *)
Definition finite (x : float) : bool :=
  match Prim2SF x with
  | S754_zero _ | S754_finite _ _ _ => true
  | _ => false
  end.

Definition not_nan (x : float) : bool := (x =? x)%float.

(** The integer part of a double, rounded toward zero, as a C++ conversion
    from [double] to an integer type takes it; no value for infinities
    and NaN. *)
Definition trunc (x : float) : option Z :=
  match Prim2SF x with
  | S754_zero _ => Some 0%Z
  | S754_finite s m e =>
      let a := match e with
               | Zneg p => (Zpos m / 2 ^ Zpos p)%Z
               | _ => (Zpos m * 2 ^ e)%Z
               end in
      Some (if s then (- a)%Z else a)
  | _ => None
  end.

(** Conversion of a [double] to [uint32_t]; undefined in C++ when the
    truncated value does not fit. *)
Definition to_uint32 (x : float) : option Z :=
  match trunc x with
  | Some z => if ((0 <=? z) && (z <? 2 ^ 32))%Z then Some z else None
  | None => None
  end.

(** The same number: identical, or both zeros (of either sign).  On
    doubles that are not NaN this is C++ [==]. *)
Definition same_number (a b : float) : Prop :=
  a = b \/ (is_zero a = true /\ is_zero b = true).

End Double.

(** ** Computations with state and C++ exceptions *)

Inductive exn :=
| out_of_range          (* thrown by [std::vector::at] *)
| assertion_failure     (* a failed [assert] *)
| undefined_behaviour.  (* an unchecked access or conversion out of range *)

Inductive outcome (A : Type) :=
| Normal (a : A)
| Throw (e : exn).
Arguments Normal {A} a.
Arguments Throw {A} e.

Definition M (S A : Type) : Type := S -> outcome A * S.

#[global] Instance M_ret {S} : MRet (M S) := fun A a s => (Normal a, s).

#[global] Instance M_bind {S} : MBind (M S) := fun A B f m s =>
  match m s with
  | (Normal a, s') => f a s'
  | (Throw e, s') => (Throw e, s')
  end.

Definition throw {S A} (e : exn) : M S A := fun s => (Throw e, s).
Definition gets {S A} (f : S -> A) : M S A := fun s => (Normal (f s), s).
Definition modify {S} (f : S -> S) : M S unit := fun s => (Normal tt, f s).
Definition lift {S A} (o : outcome A) : M S A := fun s => (o, s).

Definition returns {S A} (m : M S A) (s : S) : Prop :=
  exists a, fst (m s) = Normal a.

(** A computation leaves an observation [f] of the state alone, whatever
    its outcome. *)
Definition preserves {S T A} (f : S -> T) (m : M S A) : Prop :=
  forall s, f (snd (m s)) = f s.

(** A [for] loop over the indices [idx], stopped by the first throw. *)
Fixpoint for_each {S I} (idx : list I) (body : I -> M S unit) : M S unit :=
  match idx with
  | [] => mret tt
  | i :: idx' => body i ;; for_each idx' body
  end.

(** A C++ reference to a part of the state. *)
Record ref (S T : Type) := Ref { view : S -> T; update : T -> S -> S }.
Arguments Ref {S T} view update.
Arguments view {S T} r s.
Arguments update {S T} r t s.

(** [v.at(i)] as an rvalue. *)
Definition at_ {S A} (v : ref S (list A)) (i : nat) : M S A := fun s =>
  match view v s !! i with
  | Some x => (Normal x, s)
  | None => (Throw out_of_range, s)
  end.

(** [v.at(i) = x]. *)
Definition assign_at {S A} (v : ref S (list A)) (i : nat) (x : A) : M S unit :=
  fun s =>
    if (i <? length (view v s))%nat
    then (Normal tt, update v (<[i:=x]> (view v s)) s)
    else (Throw out_of_range, s).

(** The reference to the whole state, for a function run on one vector. *)
Definition whole {T} : ref T T := Ref (fun t => t) (fun t _ => t).

(** [c.at(i)] on a constant vector. *)
Definition const_at {A} (c : list A) (i : nat) : outcome A :=
  match c !! i with
  | Some x => Normal x
  | None => Throw out_of_range
  end.

(** The values [f i] for the indices [idx], in order. *)
Fixpoint collect {S I A} (idx : list I) (f : I -> M S A) : M S (list A) :=
  match idx with
  | [] => mret []
  | i :: idx' => a ← f i; l ← collect idx' f; mret (a :: l)
  end.

(** ** The teleoperation fusion node: real_controller.cpp *)

Module RealController.

Local Open Scope float_scope.

(** *** Global constants *)

Definition n_joints : nat := 7.

Definition lower_joint_limits : list float :=
  [-2.8973; -1.7628; -2.8973; -3.0718; -2.8973; -0.0175; -2.8973].
Definition upper_joint_limits : list float :=
  [2.8973; 1.7628; 2.8973; -0.0698; 2.8973; 3.7525; 2.8973].

(** *** Constants of the node class *)

Definition mapping_ratio : float := 1.5.
Definition control_freq : Z := 20.
Definition latency : float := 2.0.
Definition max_count : Z := control_freq * 10.

(** *** Messages *)

Record Duration := { sec : Z; nanosec : Z }.

Record JointTrajectoryPoint :=
  { positions : list float; time_from_start : Duration }.

Record JointTrajectory :=
  { joint_names : list string; points : list JointTrajectoryPoint }.

Record Falconpos := { x : float; y : float; z : float }.

Record JointState := { position : list float }.

Definition panda_joint_names : list string :=
  ["panda_joint1"; "panda_joint2"; "panda_joint3"; "panda_joint4";
   "panda_joint5"; "panda_joint6"; "panda_joint7"]%string.

(** *** The limit check

    [within_limits] only reads its reference argument; the loop leaves at
    the first joint that is above its upper or below its lower limit. *)

Fixpoint within_limits_from {S} (vals : ref S (list float)) (idx : list nat)
  : M S bool :=
  match idx with
  | [] => mret true
  | i :: idx' =>
      v ← at_ vals i;
      u ← lift (const_at upper_joint_limits i);
      if u <? v then mret false
      else
        v' ← at_ vals i;
        l ← lift (const_at lower_joint_limits i);
        if v' <? l then mret false
        else within_limits_from vals idx'
  end.

Definition within_limits {S} (vals : ref S (list float)) : M S bool :=
  within_limits_from vals (seq 0 n_joints).

(** What the loop tests at joint [i]: neither above the upper nor below
    the lower limit. *)
Definition not_outside (vals : list float) (i : nat) : bool :=
  match vals !! i, lower_joint_limits !! i, upper_joint_limits !! i with
  | Some v, Some l, Some u => negb (u <? v) && negb (v <? l)
  | _, _, _ => false
  end.

(** The value of joint [i] lies in the closed interval of its limits. *)
Definition in_closed_interval (vals : list float) (i : nat) : bool :=
  match vals !! i, lower_joint_limits !! i, upper_joint_limits !! i with
  | Some v, Some l, Some u => (l <=? v) && (v <=? u)
  | _, _, _ => false
  end.

(** Joint vectors used below: a posture inside the limits, the same
    posture with a NaN reading at the first joint, and the all-zero vector
    that the members of the node start with. *)
Definition joints_home : list float := [0; -0.5; 0; -2; 0; 1.5; 0.7].
Definition joints_nan : list float := [nan; -0.5; 0; -2; 0; 1.5; 0.7].
Definition joints_zero : list float := [0; 0; 0; 0; 0; 0; 0].

(** *** The autonomous trajectory *)

Definition get_robot_control {S} (t : float) (vals : ref S (list float))
  : M S unit :=
  for_each (seq 0 n_joints) (fun i => assign_at vals i t).

(** The number of elements of a list that pass a test. *)
Definition count_if {A} (p : A -> bool) (l : list A) : nat :=
  length (List.filter p l).


(** The doubles of a list are in ascending order, each at most every
    later one and at most itself (so none is a NaN). *)
Fixpoint ascending (l : list float) : bool :=
  match l with
  | [] => true
  | x :: l' => forallb (fun y => x <=? y) l && ascending l'
  end.


Section KDL.

(** The KDL solvers on the kinematic chain of the session are outside the
    repository: [JntToCart_M q] is the orientation part of the frame that
    [fk_solver.JntToCart(q, frame)] writes, [CartToJnt q goal] the joint
    array that [ik_solver.CartToJnt(q, goal, out)] writes. *)
Context {Rotation : Type}.
Variable Rotation_Identity : Rotation.
Variable JntToCart_M : list float -> Rotation.

Record Frame := { Frame_M : Rotation; Frame_p : float * float * float }.

Variable CartToJnt : list float -> Frame -> list float.

(** Calls into the libraries, in program order. *)
Inductive event :=
| CartToJnt_call (q_init : list float) (p_in : Frame)
| shutdown_call
| controller_publish (message : JointTrajectory)
| tcp_pos_publish (message : Falconpos).

(** The global variables and the members of the node. *)
Record State := {
  orientation : Rotation;
  got_orientation : bool;
  tcp_pos : list float;
  origin : list float;
  human_offset : list float;
  robot_offset : list float;
  curr_joint_vals : list float;
  ik_joint_vals : list float;
  message_joint_vals : list float;
  control : bool;
  count : Z;
  w : float;
  ax : float;
  ay : float;
  az : float;
  trace : list event
}.

Definition initial_state : State :=
  {| orientation := Rotation_Identity; got_orientation := false;
     tcp_pos := [0.3069; 0.0; 0.4853];
     origin := [0.4559; 0.0; 0.3346];
     human_offset := [0.0; 0.0; 0.0];
     robot_offset := [0.0; 0.0; 0.0];
     curr_joint_vals := [0.0; 0.0; 0.0; 0.0; 0.0; 0.0; 0.0];
     ik_joint_vals := [0.0; 0.0; 0.0; 0.0; 0.0; 0.0; 0.0];
     message_joint_vals := [0.0; 0.0; 0.0; 0.0; 0.0; 0.0; 0.0];
     control := false; count := 0; w := 0.0;
     ax := 1.0; ay := 1.0; az := 1.0;
     trace := [] |}.

Definition set_orientation (v : Rotation) (s : State) : State :=
  {| orientation := v; got_orientation := got_orientation s;
     tcp_pos := tcp_pos s; origin := origin s;
     human_offset := human_offset s; robot_offset := robot_offset s;
     curr_joint_vals := curr_joint_vals s;
     ik_joint_vals := ik_joint_vals s;
     message_joint_vals := message_joint_vals s; control := control s;
     count := count s; w := w s; ax := ax s; ay := ay s; az := az s;
     trace := trace s |}.
Definition set_got_orientation (v : bool) (s : State) : State :=
  {| orientation := orientation s; got_orientation := v;
     tcp_pos := tcp_pos s; origin := origin s;
     human_offset := human_offset s; robot_offset := robot_offset s;
     curr_joint_vals := curr_joint_vals s;
     ik_joint_vals := ik_joint_vals s;
     message_joint_vals := message_joint_vals s; control := control s;
     count := count s; w := w s; ax := ax s; ay := ay s; az := az s;
     trace := trace s |}.
Definition set_tcp_pos (v : list float) (s : State) : State :=
  {| orientation := orientation s; got_orientation := got_orientation s;
     tcp_pos := v; origin := origin s; human_offset := human_offset s;
     robot_offset := robot_offset s;
     curr_joint_vals := curr_joint_vals s;
     ik_joint_vals := ik_joint_vals s;
     message_joint_vals := message_joint_vals s; control := control s;
     count := count s; w := w s; ax := ax s; ay := ay s; az := az s;
     trace := trace s |}.
Definition set_human_offset (v : list float) (s : State) : State :=
  {| orientation := orientation s; got_orientation := got_orientation s;
     tcp_pos := tcp_pos s; origin := origin s; human_offset := v;
     robot_offset := robot_offset s;
     curr_joint_vals := curr_joint_vals s;
     ik_joint_vals := ik_joint_vals s;
     message_joint_vals := message_joint_vals s; control := control s;
     count := count s; w := w s; ax := ax s; ay := ay s; az := az s;
     trace := trace s |}.
Definition set_robot_offset (v : list float) (s : State) : State :=
  {| orientation := orientation s; got_orientation := got_orientation s;
     tcp_pos := tcp_pos s; origin := origin s;
     human_offset := human_offset s; robot_offset := v;
     curr_joint_vals := curr_joint_vals s;
     ik_joint_vals := ik_joint_vals s;
     message_joint_vals := message_joint_vals s; control := control s;
     count := count s; w := w s; ax := ax s; ay := ay s; az := az s;
     trace := trace s |}.
Definition set_curr_joint_vals (v : list float) (s : State) : State :=
  {| orientation := orientation s; got_orientation := got_orientation s;
     tcp_pos := tcp_pos s; origin := origin s;
     human_offset := human_offset s; robot_offset := robot_offset s;
     curr_joint_vals := v; ik_joint_vals := ik_joint_vals s;
     message_joint_vals := message_joint_vals s; control := control s;
     count := count s; w := w s; ax := ax s; ay := ay s; az := az s;
     trace := trace s |}.
Definition set_ik_joint_vals (v : list float) (s : State) : State :=
  {| orientation := orientation s; got_orientation := got_orientation s;
     tcp_pos := tcp_pos s; origin := origin s;
     human_offset := human_offset s; robot_offset := robot_offset s;
     curr_joint_vals := curr_joint_vals s; ik_joint_vals := v;
     message_joint_vals := message_joint_vals s; control := control s;
     count := count s; w := w s; ax := ax s; ay := ay s; az := az s;
     trace := trace s |}.
Definition set_message_joint_vals (v : list float) (s : State) : State :=
  {| orientation := orientation s; got_orientation := got_orientation s;
     tcp_pos := tcp_pos s; origin := origin s;
     human_offset := human_offset s; robot_offset := robot_offset s;
     curr_joint_vals := curr_joint_vals s;
     ik_joint_vals := ik_joint_vals s; message_joint_vals := v;
     control := control s; count := count s; w := w s; ax := ax s;
     ay := ay s; az := az s; trace := trace s |}.
Definition set_control (v : bool) (s : State) : State :=
  {| orientation := orientation s; got_orientation := got_orientation s;
     tcp_pos := tcp_pos s; origin := origin s;
     human_offset := human_offset s; robot_offset := robot_offset s;
     curr_joint_vals := curr_joint_vals s;
     ik_joint_vals := ik_joint_vals s;
     message_joint_vals := message_joint_vals s; control := v;
     count := count s; w := w s; ax := ax s; ay := ay s; az := az s;
     trace := trace s |}.
Definition set_count (v : Z) (s : State) : State :=
  {| orientation := orientation s; got_orientation := got_orientation s;
     tcp_pos := tcp_pos s; origin := origin s;
     human_offset := human_offset s; robot_offset := robot_offset s;
     curr_joint_vals := curr_joint_vals s;
     ik_joint_vals := ik_joint_vals s;
     message_joint_vals := message_joint_vals s; control := control s;
     count := v; w := w s; ax := ax s; ay := ay s; az := az s;
     trace := trace s |}.
Definition set_w (v : float) (s : State) : State :=
  {| orientation := orientation s; got_orientation := got_orientation s;
     tcp_pos := tcp_pos s; origin := origin s;
     human_offset := human_offset s; robot_offset := robot_offset s;
     curr_joint_vals := curr_joint_vals s;
     ik_joint_vals := ik_joint_vals s;
     message_joint_vals := message_joint_vals s; control := control s;
     count := count s; w := v; ax := ax s; ay := ay s; az := az s;
     trace := trace s |}.
Definition set_trace (v : list event) (s : State) : State :=
  {| orientation := orientation s; got_orientation := got_orientation s;
     tcp_pos := tcp_pos s; origin := origin s;
     human_offset := human_offset s; robot_offset := robot_offset s;
     curr_joint_vals := curr_joint_vals s;
     ik_joint_vals := ik_joint_vals s;
     message_joint_vals := message_joint_vals s; control := control s;
     count := count s; w := w s; ax := ax s; ay := ay s; az := az s;
     trace := v |}.

Definition tcp_pos_ : ref State (list float) :=
  Ref tcp_pos set_tcp_pos.
Definition human_offset_ : ref State (list float) :=
  Ref human_offset set_human_offset.
Definition robot_offset_ : ref State (list float) :=
  Ref robot_offset set_robot_offset.
Definition curr_joint_vals_ : ref State (list float) :=
  Ref curr_joint_vals set_curr_joint_vals.
Definition ik_joint_vals_ : ref State (list float) :=
  Ref ik_joint_vals set_ik_joint_vals.
Definition message_joint_vals_ : ref State (list float) :=
  Ref message_joint_vals set_message_joint_vals.
Definition origin_ : ref State (list float) := Ref origin (fun _ s => s).

Definition emit (e : event) : M State unit :=
  modify (fun s => set_trace (trace s ++ [e]) s).

(** *** Inverse kinematics with the frozen orientation *)

Definition compute_ik
  (desired_tcp_pos curr_vals res_vals : ref State (list float))
  : M State unit :=
  (* the KDL array of current joint values *)
  jnt_pos_start ← collect (seq 0 n_joints) (at_ curr_vals);
  (* write in the initial orientation if not already done so *)
  got ← gets got_orientation;
  (if negb got then
     modify (set_orientation (JntToCart_M jnt_pos_start));;
     modify (set_got_orientation true)
   else mret tt);;
  (* the task-space goal *)
  px ← at_ desired_tcp_pos 0;
  py ← at_ desired_tcp_pos 1;
  pz ← at_ desired_tcp_pos 2;
  rot ← gets orientation;
  let tcp_pos_goal := {| Frame_M := rot; Frame_p := (px, py, pz) |} in
  (* inverse kinematics *)
  emit (CartToJnt_call jnt_pos_start tcp_pos_goal);;
  let jnt_pos_goal := CartToJnt jnt_pos_start tcp_pos_goal in
  for_each (seq 0 n_joints) (fun i =>
    match jnt_pos_goal !! i with
    | Some v => assign_at res_vals i v
    | None => throw undefined_behaviour
    end).

(** *** The blocks of the controller tick *)

(** [tcp_pos.at(a) = origin.at(a) + alpha * human_offset.at(a)
                     + (1-alpha) * robot_offset.at(a)] *)
Definition fuse_axis (a : nat) (alpha : State -> float) : M State unit :=
  o ← at_ origin_ a;
  al ← gets alpha;
  h ← at_ human_offset_ a;
  r ← at_ robot_offset_ a;
  assign_at tcp_pos_ a (o + al * h + (1 - al) * r).

(** [if (count < max_count) count++;  w = (double)count / max_count;] *)
Definition advance_ramp : M State unit :=
  c ← gets count;
  (if (c <? max_count)%Z then modify (set_count (c + 1)) else mret tt);;
  c' ← gets count;
  modify (set_w (Double.of_int c' / Double.of_int max_count)).

(** [message_joint_vals.at(i) = w * ik_joint_vals.at(i)
                                + (1-w) * curr_joint_vals.at(i)] *)
Definition blend_joint (i : nat) : M State unit :=
  wt ← gets w;
  q_ik ← at_ ik_joint_vals_ i;
  q_curr ← at_ curr_joint_vals_ i;
  assign_at message_joint_vals_ i (wt * q_ik + (1 - wt) * q_curr).

(** [(int)(1000 / control_freq) * latency * 1000000], the artificial
    latency in milliseconds times 1e6. *)
Definition latency_nanosec : float :=
  Double.of_int (1000 ÷ control_freq) * latency * Double.of_int 1000000.

Definition trajectory_point : M State JointTrajectoryPoint :=
  q ← gets message_joint_vals;
  match Double.to_uint32 latency_nanosec with
  | Some ns =>
      mret {| positions := q;
              time_from_start := {| sec := 0; nanosec := ns |} |}
  | None => throw undefined_behaviour
  end.

(** *** The timer and subscriber callbacks *)

Definition controller_publisher : M State unit :=
  ctrl ← gets control;
  if ctrl : bool then
    (* the robot control offset in Cartesian space *)
    c ← gets count;
    let time := Double.of_int c / Double.of_int control_freq in
    get_robot_control time robot_offset_;;
    (* convex combination of robot and human offsets, plus the origin *)
    fuse_axis 0 ax;;
    fuse_axis 1 ay;;
    fuse_axis 2 az;;
    (* compute IK *)
    compute_ik tcp_pos_ curr_joint_vals_ ik_joint_vals_;;
    (* initial smooth transition to the Falcon-mapped position *)
    advance_ramp;;
    for_each (seq 0 n_joints) blend_joint;;
    (* check limits *)
    ok ← within_limits message_joint_vals_;
    (if negb ok then emit shutdown_call else mret tt);;
    (* the trajectory message, with the artificial latency *)
    point ← trajectory_point;
    emit (controller_publish
            {| joint_names := panda_joint_names; points := [point] |})
  else mret tt.

Definition tcp_pos_publisher : M State unit :=
  mx ← at_ tcp_pos_ 0;
  my ← at_ tcp_pos_ 1;
  mz ← at_ tcp_pos_ 2;
  emit (tcp_pos_publish {| x := mx; y := my; z := mz |}).

Definition joint_states_callback (msg : JointState) : M State unit :=
  let data := position msg in
  for_each (seq 0 n_joints) (fun i =>
    d ← lift (const_at data i);
    assign_at curr_joint_vals_ i d);;
  ctrl ← gets control;
  if negb ctrl then modify (set_control true) else mret tt.

Definition falcon_pos_callback (msg : Falconpos) : M State unit :=
  assign_at human_offset_ 0 (x msg / 100 * mapping_ratio);;
  assign_at human_offset_ 1 (y msg / 100 * mapping_ratio);;
  assign_at human_offset_ 2 (z msg / 100 * mapping_ratio).

(** *** The executor

    [rclcpp::spin] runs the callbacks of the node one at a time, in the
    order in which the timers fire and the messages arrive; an exception
    that leaves a callback ends the spin. *)

Inductive callback :=
| controller_timer
| tcp_pos_timer
| joint_states_message (msg : JointState)
| falcon_position_message (msg : Falconpos).

Definition dispatch (c : callback) : M State unit :=
  match c with
  | controller_timer => controller_publisher
  | tcp_pos_timer => tcp_pos_publisher
  | joint_states_message msg => joint_states_callback msg
  | falcon_position_message msg => falcon_pos_callback msg
  end.

Definition spin (arrivals : list callback) : M State unit :=
  for_each arrivals dispatch.

(** *** Runs of the node used in the properties *)

(** [n] successive advances of the smoothing ramp. *)
Definition advance_n (n : nat) (s : State) : State :=
  Nat.iter n (fun s => snd (advance_ramp s)) s.

(** A vector passed by reference to a function that only reads it. *)
Definition const_ref (v : list float) : ref State (list float) :=
  Ref (fun _ => v) (fun _ s => s).

(** A session of the IK service: calls of [compute_ik], each with its
    target position and starting joints, the result going to
    [ik_joint_vals]; a throw ends the session. *)
Definition ik_session (calls : list (list float * list float))
  : M State unit :=
  for_each calls (fun call =>
    compute_ik (const_ref (fst call)) (const_ref (snd call))
               ik_joint_vals_).

(** The events that a run from [s] to [s'] added to the trace. *)
Definition new_events (s s' : State) : list event :=
  drop (length (trace s)) (trace s').

(** From a state that satisfies [I], a run of [m] ends, whatever its
    outcome, in a state that satisfies [I], and only adds to the trace
    events that satisfy [P]. *)
Definition keeps_at {A} (I : State -> Prop) (P : event -> Prop)
  (m : M State A) (s : State) : Prop :=
  I s ->
  I (snd (m s))
  /\ exists evs, trace (snd (m s)) = trace s ++ evs /\ Forall P evs.

Definition keeps {A} (I : State -> Prop) (P : event -> Prop)
  (m : M State A) : Prop :=
  forall s, keeps_at I P m s.

(** The orientation has been captured, as [o]. *)
Definition frozen_at (o : Rotation) (s : State) : Prop :=
  got_orientation s = true /\ orientation s = o.

(** The goal pose of an inverse-kinematics call has orientation [o]. *)
Definition goal_orientation_is (o : Rotation) (e : event) : Prop :=
  match e with
  | CartToJnt_call _ goal => Frame_M goal = o
  | _ => True
  end.

(** The delay of a published setpoint is [d]. *)
Definition setpoint_delay_is (d : Duration) (e : event) : Prop :=
  match e with
  | controller_publish message =>
      exists point, points message = [point] /\ time_from_start point = d
  | _ => True
  end.

(** The fusion weight of axis [a]. *)
Definition alpha (a : nat) (s : State) : float :=
  match a with
  | 0%nat => ax s
  | 1%nat => ay s
  | _ => az s
  end.

(** *** Observations used in the further properties *)

(** The sizes of the vectors of the node, in the order [tcp_pos], [origin],
    [human_offset], [robot_offset], [curr_joint_vals], [ik_joint_vals],
    [message_joint_vals]. *)
Definition vector_sizes (s : State) : list nat :=
  [length (tcp_pos s); length (origin s); length (human_offset s);
   length (robot_offset s); length (curr_joint_vals s);
   length (ik_joint_vals s); length (message_joint_vals s)].

(** A telemetry message on [tcp_position]. *)
Definition is_telemetry (e : event) : Prop :=
  match e with
  | tcp_pos_publish _ => True
  | _ => False
  end.

Definition is_joint_states (c : callback) : bool :=
  match c with
  | joint_states_message _ => true
  | _ => false
  end.


(** The vectors of the node have room for every index that the callbacks
    use: three Cartesian axes in [tcp_pos], [origin] and [human_offset],
    seven entries in the joint vectors and in [robot_offset], which the
    autonomous trajectory writes at seven indices. *)
Definition enough_room (s : State) : Prop :=
  (3 <= length (tcp_pos s))%nat /\ (3 <= length (origin s))%nat
  /\ (3 <= length (human_offset s))%nat
  /\ (n_joints <= length (robot_offset s))%nat
  /\ (n_joints <= length (curr_joint_vals s))%nat
  /\ (n_joints <= length (ik_joint_vals s))%nat
  /\ (n_joints <= length (message_joint_vals s))%nat.

(** A joint-state message carries at least the seven arm joints. *)
Definition carries_arm_joints (c : callback) : Prop :=
  match c with
  | joint_states_message msg => (n_joints <= length (position msg))%nat
  | _ => True
  end.


(** The ramp is consistent: the counter is within its bounds and the
    weight is the counter divided by [max_count]. *)
Definition ramp_consistent (s : State) : Prop :=
  (0 <= count s <= max_count)%Z
  /\ w s = Double.of_int (count s) / Double.of_int max_count.


(** Trajectory messages and solver calls among the events, and
    controller ticks among the callbacks. *)
Definition is_setpoint (e : event) : bool :=
  match e with
  | controller_publish _ => true
  | _ => false
  end.

Definition is_solver_call (e : event) : bool :=
  match e with
  | CartToJnt_call _ _ => true
  | _ => false
  end.

Definition is_tick (c : callback) : bool :=
  match c with
  | controller_timer => true
  | _ => false
  end.


End KDL.

Arguments Frame : clear implicits.
Arguments event : clear implicits.
Arguments State : clear implicits.

(** *** A stand-in for the solvers, to run the node on concrete inputs

    The orientation is represented by the joint vector it was captured
    at, and the inverse kinematics answers a fixed posture. *)

Definition demo_fk (q : list float) : list float := q.
Definition demo_ik (q : list float) (goal : Frame (list float))
  : list float := [0.1; -0.4; 0.3; -1.5; 0.5; 1.0; 0.7].

(** The node after a first joint-state message, with a seven-element
    [robot_offset] (the one of [initial_state] has three elements). *)
Definition demo_state (curr : list float) : State (list float) :=
  set_robot_offset [0; 0; 0; 0; 0; 0; 0]
    (snd (joint_states_callback {| position := curr |}
            (initial_state []))).

(** The state after one tick of the node on the posture [joints_home], and
    the message that the tick published. *)
Definition demo_state_after_tick : State (list float) :=
  Eval vm_compute in
    snd (controller_publisher demo_fk demo_ik (demo_state joints_home)).

Definition demo_message : JointTrajectory :=
  Eval vm_compute in
    match last (trace demo_state_after_tick) with
    | Some (controller_publish message) => message
    | _ => {| joint_names := []; points := [] |}
    end.

End RealController.

(** ** The torque controller: my_controller.cpp *)

Module MyController.

Local Open Scope float_scope.

(** Modelled from the spec: [num_joints] is declared in my_controller.hpp,
    which is not among the sources; the spec fixes seven joints, as
    [Vector7d] and the literal bound of the torque loop do. *)
Definition num_joints : nat := 7.

Abbreviation Vector7d := (vec float num_joints).

(** The joint indices [0 .. num_joints - 1], in loop order. *)
Definition joints : list (fin num_joints) := fin_enum num_joints.

(** Coefficient-wise Eigen expressions. *)
Definition scale (c : float) (v : Vector7d) : Vector7d := vmap (mul c) v.
Definition vadd (u v : Vector7d) : Vector7d := vzip_with add u v.
Definition vsub (u v : Vector7d) : Vector7d := vzip_with sub u v.
Definition vopp (v : Vector7d) : Vector7d := vmap opp v.
Definition cwiseProduct (u v : Vector7d) : Vector7d := vzip_with mul u v.
Definition setZero : Vector7d := vreplicate num_joints 0.

(** A loaned state interface: its name and its current value. *)
Record StateInterface := { get_interface_name : string; get_value : float }.

(** The members of the controller; a command interface is the value last
    written to it. *)
Record State := {
  q_ : Vector7d;
  dq_ : Vector7d;
  dq_filtered_ : Vector7d;
  k_gains_ : Vector7d;
  d_gains_ : Vector7d;
  state_interfaces_ : list StateInterface;
  command_interfaces_ : list float;
  arm_id_ : string
}.

Definition set_q_ (v : Vector7d) (s : State) : State :=
  {| q_ := v; dq_ := dq_ s; dq_filtered_ := dq_filtered_ s;
     k_gains_ := k_gains_ s; d_gains_ := d_gains_ s;
     state_interfaces_ := state_interfaces_ s;
     command_interfaces_ := command_interfaces_ s;
     arm_id_ := arm_id_ s |}.
Definition set_dq_ (v : Vector7d) (s : State) : State :=
  {| q_ := q_ s; dq_ := v; dq_filtered_ := dq_filtered_ s;
     k_gains_ := k_gains_ s; d_gains_ := d_gains_ s;
     state_interfaces_ := state_interfaces_ s;
     command_interfaces_ := command_interfaces_ s;
     arm_id_ := arm_id_ s |}.
Definition set_dq_filtered_ (v : Vector7d) (s : State) : State :=
  {| q_ := q_ s; dq_ := dq_ s; dq_filtered_ := v; k_gains_ := k_gains_ s;
     d_gains_ := d_gains_ s; state_interfaces_ := state_interfaces_ s;
     command_interfaces_ := command_interfaces_ s;
     arm_id_ := arm_id_ s |}.
Definition set_k_gains_ (v : Vector7d) (s : State) : State :=
  {| q_ := q_ s; dq_ := dq_ s; dq_filtered_ := dq_filtered_ s;
     k_gains_ := v; d_gains_ := d_gains_ s;
     state_interfaces_ := state_interfaces_ s;
     command_interfaces_ := command_interfaces_ s;
     arm_id_ := arm_id_ s |}.
Definition set_d_gains_ (v : Vector7d) (s : State) : State :=
  {| q_ := q_ s; dq_ := dq_ s; dq_filtered_ := dq_filtered_ s;
     k_gains_ := k_gains_ s; d_gains_ := v;
     state_interfaces_ := state_interfaces_ s;
     command_interfaces_ := command_interfaces_ s;
     arm_id_ := arm_id_ s |}.
Definition set_command_interfaces_ (v : list float) (s : State) : State :=
  {| q_ := q_ s; dq_ := dq_ s; dq_filtered_ := dq_filtered_ s;
     k_gains_ := k_gains_ s; d_gains_ := d_gains_ s;
     state_interfaces_ := state_interfaces_ s; command_interfaces_ := v;
     arm_id_ := arm_id_ s |}.
Definition set_arm_id_ (v : string) (s : State) : State :=
  {| q_ := q_ s; dq_ := dq_ s; dq_filtered_ := dq_filtered_ s;
     k_gains_ := k_gains_ s; d_gains_ := d_gains_ s;
     state_interfaces_ := state_interfaces_ s;
     command_interfaces_ := command_interfaces_ s; arm_id_ := v |}.

Definition state_interfaces_ref : ref State (list StateInterface) :=
  Ref state_interfaces_ (fun _ s => s).

Inductive return_type := OK | ERROR.
Inductive CallbackReturn := SUCCESS | FAILURE | CB_ERROR.

Definition assert {S} (b : bool) : M S unit :=
  if b then mret tt else throw assertion_failure.

(** [command_interfaces_[i].set_value(x)]: the index is not checked. *)
Definition set_value (i : nat) (x : float) : M State unit := fun s =>
  if (i <? length (command_interfaces_ s))%nat
  then (Normal tt, set_command_interfaces_ (<[i:=x]> (command_interfaces_ s)) s)
  else (Throw undefined_behaviour, s).

(** The body of the loop of [updateJointStates], for joint [i]. *)
Definition read_joint (i : fin num_joints) : M State unit :=
  position_interface ← at_ state_interfaces_ref (2 * fin_to_nat i);
  velocity_interface ← at_ state_interfaces_ref (2 * fin_to_nat i + 1);
  assert (String.eqb (get_interface_name position_interface) "position");;
  assert (String.eqb (get_interface_name velocity_interface) "velocity");;
  modify (fun s => set_q_ (vinsert i (get_value position_interface) (q_ s)) s);;
  modify (fun s => set_dq_ (vinsert i (get_value velocity_interface) (dq_ s)) s).

Definition updateJointStates : M State unit := for_each joints read_joint.

(** The position and the velocity that the state interfaces hold for
    joint [i]. *)
Definition measured_position (s : State) (i : fin num_joints)
  : option float :=
  get_value <$> state_interfaces_ s !! (2 * fin_to_nat i)%nat.

Definition measured_velocity (s : State) (i : fin num_joints)
  : option float :=
  get_value <$> state_interfaces_ s !! (2 * fin_to_nat i + 1)%nat.

Definition kAlpha : float := 0.99.

(** The controller section of [update].  The output of the motion
    generator for the tick, [(q_desired, finished)], comes from a class
    outside the sources and is an input here.  The subscriber section only
    prints the message it takes and is left out. *)
Definition update (motion_generator_output : Vector7d * bool)
  : M State return_type :=
  updateJointStates;;
  let q_desired := fst motion_generator_output in
  let finished := snd motion_generator_output in
  (if negb finished then
     modify (fun s =>
       set_dq_filtered_
         (vadd (scale (1 - kAlpha) (dq_filtered_ s)) (scale kAlpha (dq_ s))) s);;
     tau_d_calculated ← gets (fun s =>
       vadd (cwiseProduct (k_gains_ s) (vsub q_desired (q_ s)))
            (cwiseProduct (d_gains_ s) (vopp (dq_filtered_ s))));
     for_each joints (fun i =>
       set_value (fin_to_nat i) (tau_d_calculated !!! i))
   else
     modify (fun s =>
       set_command_interfaces_ ((fun _ => 0) <$> command_interfaces_ s) s));;
  mret OK.

Definition empty {A} (l : list A) : bool :=
  match l with [] => true | _ => false end.

(** [on_configure], from the values of the parameters [arm_id], [k_gains]
    and [d_gains]; [arm_id_] is assigned before the gains are checked. *)
Definition on_configure (arm_id : string) (k_gains d_gains : list float)
  : M State CallbackReturn :=
  modify (set_arm_id_ arm_id);;
  if empty k_gains then mret FAILURE
  else if negb (length k_gains =? num_joints)%nat then mret FAILURE
  else if empty d_gains then mret FAILURE
  else if negb (length d_gains =? num_joints)%nat then mret FAILURE
  else
    for_each joints (fun i =>
      d ← lift (const_at d_gains (fin_to_nat i));
      modify (fun s => set_d_gains_ (vinsert i d (d_gains_ s)) s);;
      k ← lift (const_at k_gains (fin_to_nat i));
      modify (fun s => set_k_gains_ (vinsert i k (k_gains_ s)) s));;
    modify (set_dq_filtered_ setZero);;
    mret SUCCESS.

(** *** The interfaces that the controller requests

    [arm_id_] is the member that [on_configure] assigns from the parameter
    of that name; the two configuration functions only read it, and are
    given as functions of its value. *)

Inductive interface_configuration_type := ALL | INDIVIDUAL | NONE.

Record InterfaceConfiguration :=
  { type : interface_configuration_type; names : list string }.

(** [std::to_string] of an [int]. *)
Definition to_string (i : Z) : string :=
  NilZero.string_of_int (Z.to_int i).

(** The values of the loop counter [for (int i = 1; i <= num_joints; ++i)]. *)
Definition joint_numbers : list Z := Z.of_nat <$> seq 1 num_joints.

Definition command_interface_configuration (arm_id_ : string)
  : InterfaceConfiguration :=
  {| type := INDIVIDUAL;
     names :=
       (fun i =>
          String.append
            (String.append (String.append arm_id_ "_joint") (to_string i))
            "/effort")
       <$> joint_numbers |}.

Definition state_interface_configuration (arm_id_ : string)
  : InterfaceConfiguration :=
  {| type := INDIVIDUAL;
     names :=
       flat_map (fun i =>
         [ String.append
             (String.append (String.append arm_id_ "_joint") (to_string i))
             "/position";
           String.append
             (String.append (String.append arm_id_ "_joint") (to_string i))
             "/velocity" ])
         joint_numbers |}.

(** *** Observations used in the further properties *)

(** The state interfaces hold, for joint [i], an interface named position
    at index [2 i] and one named velocity at index [2 i + 1]: what
    [updateJointStates] reads and asserts. *)
Definition joint_interfaces_ready (s : State) (i : fin num_joints) : bool :=
  match state_interfaces_ s !! (2 * fin_to_nat i)%nat,
        state_interfaces_ s !! (2 * fin_to_nat i + 1)%nat with
  | Some p, Some v =>
      String.eqb (get_interface_name p) "position"
      && String.eqb (get_interface_name v) "velocity"
  | _, _ => false
  end.

Definition interfaces_ready (s : State) : bool :=
  forallb (joint_interfaces_ready s) joints.

(** The controller after [n] ticks with the same output of the motion
    generator, the interfaces holding the same measurements throughout. *)
Definition ticks (n : nat) (motion_generator_output : Vector7d * bool)
  (s : State) : State :=
  Nat.iter n (fun s => snd (update motion_generator_output s)) s.

(** *** The controller on concrete inputs *)

(** The fourteen state interfaces of the arm, holding the measurements
    [(position, velocity)] of the joints in order. *)
Definition interfaces_of (measured : list (float * float))
  : list StateInterface :=
  flat_map (fun pv =>
    [ {| get_interface_name := "position"; get_value := fst pv |};
      {| get_interface_name := "velocity"; get_value := snd pv |} ])
    measured.

(** The controller before configuration, with its interfaces claimed. *)
Definition unconfigured (measured : list (float * float)) : State :=
  {| q_ := setZero; dq_ := setZero; dq_filtered_ := setZero;
     k_gains_ := setZero; d_gains_ := setZero;
     state_interfaces_ := interfaces_of measured;
     command_interfaces_ := [0; 0; 0; 0; 0; 0; 0];
     arm_id_ := "" |}.

(** The arm at rest at the origin of every joint. *)
Definition at_rest : list (float * float) :=
  [(0, 0); (0, 0); (0, 0); (0, 0); (0, 0); (0, 0); (0, 0)].

(** Gains for the runs below, and the same with an infinite proportional
    gain at the first joint. *)
Definition demo_k_gains : list float := [24; 24; 24; 24; 10; 6; 2].
Definition demo_d_gains : list float := [2; 2; 2; 1; 1; 1; 0.5].
Definition inf_k_gains : list float := [infinity; 24; 24; 24; 10; 6; 2].

(** The controller configured with the declared default of [arm_id]. *)
Definition configured (k d : list float) : State :=
  snd (on_configure "panda" k d (unconfigured at_rest)).

End MyController.

(** * Properties *)

(** ** Facts on binary64 arithmetic *)

Section FloatFacts.

Local Open Scope Z_scope.

Lemma digits2_xO p : Zpos (digits2_pos p~0) = Zpos (digits2_pos p) + 1.
Proof. exact (Pos2Z.inj_succ (digits2_pos p)). Qed.

Lemma digits2_shift52 m :
  Zpos (digits2_pos (4503599627370496 * m)) = Zpos (digits2_pos m) + 52.
Proof.
  rewrite Pos.mul_comm, !Pos.mul_xO_r, Pos.mul_1_r, !digits2_xO. lia.
Qed.

Lemma iter_shr_52 m :
  SpecFloat.iter_pos shr_1 52
    (Build_shr_record (Zpos (4503599627370496 * m)) false false)
  = Build_shr_record (Zpos m) false false.
Proof. reflexivity. Qed.

(** Multiplying a representable number by 1.0 shifts the product of the
    mantissas back by 52 bits, exactly. *)
Lemma SF64mul_one_finite s m e :
  bounded prec emax m e = true ->
  SF64mul (S754_finite false 4503599627370496 (-52)) (S754_finite s m e)
  = S754_finite s m e.
Proof.
  unfold bounded, canonical_mantissa. intros Hb.
  apply andb_true_iff in Hb as [Hc He].
  apply Z.eqb_eq in Hc.
  unfold SF64mul, SFmul, binary_round_aux, shr_fexp.
  unfold Zdigits2 at 1. rewrite digits2_shift52.
  replace (Z.pos (digits2_pos m) + 52 + (-52 + e))
    with (Z.pos (digits2_pos m) + e) by lia.
  rewrite Hc.
  replace (e - (-52 + e)) with 52 by lia.
  unfold shr at 1. cbn [shr_record_of_loc]. rewrite iter_shr_52.
  cbn [shr_m loc_of_shr_record round_nearest_even Zdigits2].
  replace (-52 + e + 52) with e by lia.
  rewrite Hc, Z.sub_diag. cbn [shr shr_record_of_loc shr_m xorb].
  rewrite He. reflexivity.
Qed.

Lemma mul_1_l (h : float) : (1 * h)%float = h.
Proof.
  apply Prim2SF_inj. rewrite FloatAxioms.mul_spec.
  change (Prim2SF 1) with (S754_finite false 4503599627370496 (-52)).
  pose proof (Prim2SF_valid h) as Hv.
  destruct (Prim2SF h) as [s|s| |s m e]; [reflexivity..|].
  apply SF64mul_one_finite, Hv.
Qed.

Lemma is_zero_spec (x : float) :
  is_zero x = true <-> exists s, Prim2SF x = S754_zero s.
Proof.
  unfold is_zero. rewrite FloatAxioms.eqb_spec.
  change (Prim2SF zero) with (S754_zero false).
  destruct (Prim2SF x) as [s|s| |s m e]; cbn.
  - split; eauto.
  - destruct s; split; try discriminate; intros [? ?]; discriminate.
  - split; try discriminate; intros [? ?]; discriminate.
  - destruct s; split; try discriminate; intros [? ?]; discriminate.
Qed.

Lemma finite_spec (x : float) :
  Double.finite x = true <->
  (exists s, Prim2SF x = S754_zero s) \/
  (exists s m e, Prim2SF x = S754_finite s m e).
Proof.
  unfold Double.finite.
  destruct (Prim2SF x) as [s|s| |s m e]; split; eauto;
    try discriminate; intros [[? ?]|[? [? [? ?]]]]; discriminate.
Qed.

Lemma not_nan_spec (x : float) :
  Double.not_nan x = true -> Prim2SF x <> S754_nan.
Proof.
  unfold Double.not_nan. rewrite FloatAxioms.eqb_spec. intros H E.
  rewrite E in H. discriminate.
Qed.

(** [0 * t] is a zero for every finite [t] (and NaN otherwise). *)
Lemma mul_0_finite (t : float) :
  Double.finite t = true -> is_zero (0 * t)%float = true.
Proof.
  intros Hf. apply is_zero_spec. rewrite FloatAxioms.mul_spec.
  change (Prim2SF 0) with (S754_zero false).
  apply finite_spec in Hf as [[s E]|[s [m [e E]]]]; rewrite E; cbn; eauto.
Qed.

(** Adding a zero does not change the number. *)
Lemma add_zero_r (x z : float) :
  is_zero z = true -> Double.same_number (x + z)%float x.
Proof.
  intros Hz. apply is_zero_spec in Hz as [sz Ez].
  destruct (Prim2SF x) as [s|s| |s m e] eqn:Ex.
  - right. split; apply is_zero_spec; [|eauto].
    rewrite FloatAxioms.add_spec, Ex, Ez. destruct s, sz; cbn; eauto.
  - left. apply Prim2SF_inj. rewrite FloatAxioms.add_spec, Ex, Ez.
    reflexivity.
  - left. apply Prim2SF_inj. rewrite FloatAxioms.add_spec, Ex, Ez.
    reflexivity.
  - left. apply Prim2SF_inj. rewrite FloatAxioms.add_spec, Ex, Ez.
    reflexivity.
Qed.

(** [q - q] is [+0] for every finite [q]. *)
Lemma sub_diag_finite (q : float) :
  Double.finite q = true -> (q - q)%float = 0%float.
Proof.
  intros Hf. apply Prim2SF_inj. rewrite FloatAxioms.sub_spec.
  change (Prim2SF 0) with (S754_zero false).
  apply finite_spec in Hf as [[s E]|[s [m [e E]]]]; rewrite E.
  - destruct s; reflexivity.
  - unfold SF64sub, SFsub. rewrite Z.sub_diag. reflexivity.
Qed.

Lemma SFcompare_antisym x y :
  SFcompare y x = option_map CompOpp (SFcompare x y).
Proof.
  destruct x as [sx|sx| |sx mx ex], y as [sy|sy| |sy my ey]; cbn;
    try reflexivity; try (destruct sx; reflexivity);
    try (destruct sy; reflexivity); try (destruct sx, sy; reflexivity).
  pose proof (Pos.compare_cont_antisym mx my Eq) as H. cbn [CompOpp] in H.
  destruct sx, sy; cbn; try reflexivity;
    rewrite (Z.compare_antisym ex ey);
    destruct (ex ?= ey) eqn:E; cbn; try reflexivity;
    change (PosDef.Pos.compare_cont Eq my mx)
      with (Pos.compare_cont Eq my mx);
    rewrite <- H; rewrite ?CompOpp_involutive; reflexivity.
Qed.

(** On numbers, [a < b] fails exactly when [b <= a]. *)
Lemma ltb_false_leb (a b : float) :
  Prim2SF a <> S754_nan -> Prim2SF b <> S754_nan ->
  ((a <? b)%float = false <-> (b <=? a)%float = true).
Proof.
  intros Ha Hb. rewrite FloatAxioms.ltb_spec, FloatAxioms.leb_spec. unfold SFltb, SFleb.
  rewrite (SFcompare_antisym (Prim2SF a) (Prim2SF b)).
  destruct (SFcompare (Prim2SF a) (Prim2SF b)) as [[]|] eqn:E; cbn;
    try (split; congruence).
  exfalso. destruct (Prim2SF a), (Prim2SF b); cbn in E; congruence.
Qed.

(** A comparison with NaN is false. *)
Lemma ltb_nan_l (b : float) : (nan <? b)%float = false.
Proof. rewrite FloatAxioms.ltb_spec. reflexivity. Qed.

Lemma leb_nan_r (a : float) : (a <=? nan)%float = false.
Proof.
  rewrite FloatAxioms.leb_spec. change (Prim2SF nan) with S754_nan.
  unfold SFleb. destruct (Prim2SF a); reflexivity.
Qed.

(** A finite number times a zero is a zero. *)
Lemma mul_zero_r_finite (a z : float) :
  Double.finite a = true -> is_zero z = true -> is_zero (a * z)%float = true.
Proof.
  intros Ha Hz. apply is_zero_spec in Hz as [sz Ez].
  apply is_zero_spec. rewrite FloatAxioms.mul_spec, Ez.
  apply finite_spec in Ha as [[s E]|[s [m [e E]]]]; rewrite E; cbn; eauto.
Qed.

Lemma opp_zero (z : float) : is_zero z = true -> is_zero (- z)%float = true.
Proof.
  intros Hz. apply is_zero_spec in Hz as [sz Ez].
  apply is_zero_spec. rewrite opp_spec, Ez. cbn. eauto.
Qed.

Lemma add_zeros (x z : float) :
  is_zero x = true -> is_zero z = true -> is_zero (x + z)%float = true.
Proof.
  intros Hx Hz. destruct (add_zero_r x z Hz) as [->|[H _]]; assumption.
Qed.


(** Adding a number to a zero gives that number. *)
Lemma add_zero_l (z x : float) :
  is_zero z = true -> Double.same_number (z + x)%float x.
Proof.
  intros Hz. apply is_zero_spec in Hz as [sz Ez].
  destruct (Prim2SF x) as [s|s| |s m e] eqn:Ex.
  - right. split; apply is_zero_spec; [|eauto].
    rewrite FloatAxioms.add_spec, Ex, Ez. destruct s, sz; cbn; eauto.
  - left. apply Prim2SF_inj. rewrite FloatAxioms.add_spec, Ex, Ez.
    reflexivity.
  - left. apply Prim2SF_inj. rewrite FloatAxioms.add_spec, Ex, Ez.
    reflexivity.
  - left. apply Prim2SF_inj. rewrite FloatAxioms.add_spec, Ex, Ez.
    reflexivity.
Qed.


End FloatFacts.

(** ** Facts on computations *)

Arguments Double.of_int : simpl never.

Section MonadFacts.

Context {S : Type}.

Lemma bind_normal {A B} (m : M S A) (k : A -> M S B) s a s1 :
  m s = (Normal a, s1) -> (m ≫= k) s = k a s1.
Proof. intros H. unfold mbind, M_bind. rewrite H. reflexivity. Qed.

Lemma bind_throw {A B} (m : M S A) (k : A -> M S B) s e s1 :
  m s = (Throw e, s1) -> (m ≫= k) s = (Throw e, s1).
Proof. intros H. unfold mbind, M_bind. rewrite H. reflexivity. Qed.

Lemma bind_same_run {A B} (m : M S A) (k : A -> M S B) s s1 :
  m s = m s1 -> (m ≫= k) s = (m ≫= k) s1.
Proof. intros H. unfold mbind, M_bind. rewrite H. reflexivity. Qed.

(** A sequence that returns has a first part that returns. *)
Lemma bind_returns {A B} (m : M S A) (k : A -> M S B) s :
  returns (m ≫= k) s ->
  exists a s1, m s = (Normal a, s1) /\ (m ≫= k) s = k a s1
               /\ returns (k a) s1.
Proof.
  intros [b Hb]. destruct (m s) as [[a|e] s1] eqn:E.
  - exists a, s1. rewrite (bind_normal _ _ _ _ _ E) in Hb |- *.
    repeat split. exists b. exact Hb.
  - rewrite (bind_throw _ _ _ _ _ E) in Hb. discriminate.
Qed.

(** *** Frames *)

Lemma preserves_ret {T A} (f : S -> T) (a : A) : preserves f (mret a).
Proof. intros s. reflexivity. Qed.

Lemma preserves_throw {T A} (f : S -> T) e : preserves f (@throw S A e).
Proof. intros s. reflexivity. Qed.

Lemma preserves_gets {T A} (f : S -> T) (g : S -> A) : preserves f (gets g).
Proof. intros s. reflexivity. Qed.

Lemma preserves_lift {T A} (f : S -> T) (o : outcome A) :
  preserves f (lift o).
Proof. intros s. reflexivity. Qed.

Lemma preserves_modify {T} (f : S -> T) (g : S -> S) :
  (forall s, f (g s) = f s) -> preserves f (modify g).
Proof. intros H s. apply H. Qed.

Lemma preserves_bind {T A B} (f : S -> T) (m : M S A) (k : A -> M S B) :
  preserves f m -> (forall a, preserves f (k a)) -> preserves f (m ≫= k).
Proof.
  intros Hm Hk s. unfold mbind, M_bind.
  specialize (Hm s). destruct (m s) as [[a|e] s1]; cbn in *.
  - rewrite Hk. exact Hm.
  - exact Hm.
Qed.

Lemma preserves_at {T A} (f : S -> T) (v : ref S (list A)) i :
  preserves f (at_ v i).
Proof. intros s. unfold at_. destruct (view v s !! i); reflexivity. Qed.

Lemma preserves_assign_at {T A} (f : S -> T) (v : ref S (list A)) i x :
  (forall t s, f (update v t s) = f s) -> preserves f (assign_at v i x).
Proof.
  intros H s. unfold assign_at.
  destruct (i <? length (view v s))%nat; cbn; [apply H | reflexivity].
Qed.

Lemma preserves_for_each {T I} (f : S -> T) (idx : list I) body :
  (forall i, preserves f (body i)) -> preserves f (for_each idx body).
Proof.
  intros H. induction idx as [|i idx IH]; cbn.
  - apply preserves_ret.
  - apply preserves_bind; [apply H | intros _; exact IH].
Qed.

Lemma preserves_collect {T I A} (f : S -> T) (idx : list I)
      (g : I -> M S A) :
  (forall i, preserves f (g i)) -> preserves f (collect idx g).
Proof.
  intros H. induction idx as [|i idx IH]; cbn.
  - apply preserves_ret.
  - apply preserves_bind; [apply H | intros a].
    apply preserves_bind; [exact IH | intros l; apply preserves_ret].
Qed.

(** *** What a primitive step that returns has done *)

Lemma gets_inv {A} (f : S -> A) s a s1 :
  gets f s = (Normal a, s1) -> a = f s /\ s1 = s.
Proof. intros [= <- <-]. split; reflexivity. Qed.

Lemma at_inv {A} (v : ref S (list A)) i s x s1 :
  at_ v i s = (Normal x, s1) -> view v s !! i = Some x /\ s1 = s.
Proof.
  unfold at_. destruct (view v s !! i); intros [= <- <-].
  split; reflexivity.
Qed.

Lemma assign_at_inv {A} (v : ref S (list A)) i x s u s1 :
  assign_at v i x s = (Normal u, s1) ->
  (i < length (view v s))%nat /\ s1 = update v (<[i:=x]> (view v s)) s.
Proof.
  unfold assign_at. destruct (i <? length (view v s))%nat eqn:E;
    intros [= <- <-].
  split; [apply Nat.ltb_lt, E | reflexivity].
Qed.

(** A loop that assigns [t] at the indices [idx] of a vector and returns
    leaves [t] at each of them. *)
Lemma assign_loop_returns {A} (v : ref S (list A)) (t : A) :
  (forall l s, view v (update v l s) = l) ->
  forall idx s u s1,
    for_each idx (fun i => assign_at v i t) s = (Normal u, s1) ->
    forall j, (j ∈ idx \/ view v s !! j = Some t) -> view v s1 !! j = Some t.
Proof.
  intros Hlaw. induction idx as [|i idx IH]; intros s u s1 Hrun j Hj.
  - injection Hrun as _ <-. destruct Hj as [Hj|Hj]; [|exact Hj].
    inversion Hj.
  - cbn [for_each] in Hrun.
    destruct (assign_at v i t s) as [[u0|e] s0] eqn:E.
    + rewrite (bind_normal _ _ _ _ _ E) in Hrun.
      apply assign_at_inv in E as [Hi ->].
      apply (IH _ _ _ Hrun). rewrite Hlaw.
      destruct (decide (j = i)) as [->|Hne].
      * right. apply list_lookup_insert_eq, Hi.
      * destruct Hj as [Hj|Hj].
        -- left. apply elem_of_cons in Hj as [Hj|Hj]; [contradiction|exact Hj].
        -- right. rewrite list_lookup_insert_ne by congruence. exact Hj.
    + rewrite (bind_throw _ _ _ _ _ E) in Hrun. discriminate.
Qed.


End MonadFacts.

(** Frame goals are solved along the structure of the computation. *)
Ltac frame_step :=
  first
    [ apply preserves_ret
    | apply preserves_throw
    | apply preserves_gets
    | apply preserves_lift
    | apply preserves_at
    | apply preserves_bind; [| intros ?]
    | apply preserves_for_each; intros ?
    | apply preserves_collect; intros ?
    | apply preserves_assign_at; intros ? ?; reflexivity
    | apply preserves_modify; intros ?; reflexivity
    | match goal with
      | |- preserves _ (if ?b then _ else _) => destruct b
      | |- preserves _ (match ?x with _ => _ end) => destruct x
      end ].

Ltac frame := repeat frame_step.

(** ** The fusion node *)

Module RealControllerSpec.

Import RealController.
Local Open Scope float_scope.

(** *** The autonomous trajectory on the three-element offset *)

(** C2 (the code departs from the claim): on every three-element vector
    and for every elapsed time, [get_robot_control] does not return: its
    loop runs over the seven joint indices, so after writing [t] to the
    three axes the access at index 3 throws [out_of_range]; it returns
    only on vectors of at least seven elements. *)
Theorem get_robot_control_out_of_range (t a b c : float) :
  get_robot_control t whole [a; b; c] = (Throw out_of_range, [t; t; t])
  /\ forall vals : list float,
       returns (get_robot_control t whole) vals ->
       (n_joints <= length vals)%nat.
Proof.
  split; [reflexivity|].
  intros vals [u Hu].
  do 7 (destruct vals as [|? vals]; [discriminate Hu|]).
  cbn. unfold n_joints. lia.
Qed.

(** *** The limit check *)

Lemma limits_not_nan i l u :
  lower_joint_limits !! i = Some l -> upper_joint_limits !! i = Some u ->
  Prim2SF l <> S754_nan /\ Prim2SF u <> S754_nan.
Proof.
  do 7 (destruct i as [|i];
        [intros [= <-] [= <-]; split; vm_compute; discriminate|]).
  discriminate.
Qed.

(** The loop computes the conjunction of its tests and writes nothing. *)
Lemma within_limits_from_eval (idx : list nat) (v : list float) :
  (forall i, i ∈ idx -> (i < length v)%nat /\ (i < n_joints)%nat) ->
  within_limits_from whole idx v
  = (Normal (forallb (not_outside v) idx), v).
Proof.
  induction idx as [|i idx IH]; intros H; [reflexivity|].
  destruct (H i) as [Hv Hi]; [left|].
  destruct (lookup_lt_is_Some_2 v i Hv) as [x Hx].
  destruct (lookup_lt_is_Some_2 upper_joint_limits i Hi) as [u Hu].
  destruct (lookup_lt_is_Some_2 lower_joint_limits i Hi) as [l Hl].
  cbn [within_limits_from forallb]. unfold not_outside.
  unfold mbind, M_bind, at_, lift, const_at. cbn [view whole].
  rewrite Hx, Hu, Hl.
  destruct (u <? x); cbn; [reflexivity|].
  rewrite Hx. cbn.
  destruct (x <? l); cbn; [reflexivity|].
  apply IH. intros j Hj. apply H. right. exact Hj.
Qed.

Lemma within_limits_eval (v : list float) :
  length v = 7%nat ->
  within_limits whole v
  = (Normal (forallb (not_outside v) (seq 0 n_joints)), v).
Proof.
  intros Hlen. apply within_limits_from_eval.
  intros i Hi. apply elem_of_seq in Hi. unfold n_joints in *. lia.
Qed.

(** On a number, the test of the loop is membership in the closed
    interval. *)
Lemma not_outside_interval (v : list float) (i : nat) x :
  v !! i = Some x -> Double.not_nan x = true ->
  not_outside v i = in_closed_interval v i.
Proof.
  intros Hx Hn. unfold not_outside, in_closed_interval. rewrite Hx.
  destruct (lower_joint_limits !! i) as [l|] eqn:Hl; [|reflexivity].
  destruct (upper_joint_limits !! i) as [u|] eqn:Hu; [|reflexivity].
  destruct (limits_not_nan i l u Hl Hu) as [Nl Nu].
  apply not_nan_spec in Hn.
  pose proof (ltb_false_leb u x Nu Hn) as Hux.
  pose proof (ltb_false_leb x l Hn Nl) as Hxl.
  destruct (u <? x), (x <? l), (x <=? u), (l <=? x); cbn;
    try reflexivity; intuition congruence.
Qed.

(** C3 (as amended): for every seven-element joint vector without a NaN
    component, [within_limits] returns normally, leaves the vector as it
    is, and answers true if and only if every joint value lies in the
    closed interval between its lower and its upper limit. *)
Theorem within_limits_iff_closed_intervals (v : list float) :
  length v = 7%nat ->
  Forall (fun x => Double.not_nan x = true) v ->
  exists b, within_limits whole v = (Normal b, v)
            /\ (b = true <->
                forall i, (i < n_joints)%nat -> in_closed_interval v i = true).
Proof.
  intros Hlen Hnan. eexists. split; [apply within_limits_eval, Hlen|].
  rewrite forallb_forall. split.
  - intros H i Hi.
    destruct (lookup_lt_is_Some_2 v i) as [x Hx];
      [unfold n_joints in Hi; lia|].
    rewrite <- (not_outside_interval v i x Hx).
    + apply H, in_seq. lia.
    + rewrite Forall_forall in Hnan.
      apply Hnan. eapply list_elem_of_lookup_2, Hx.
  - intros H i Hi. apply in_seq in Hi.
    destruct (lookup_lt_is_Some_2 v i) as [x Hx];
      [unfold n_joints in Hi; lia|].
    rewrite (not_outside_interval v i x Hx).
    + apply H. lia.
    + rewrite Forall_forall in Hnan.
      apply Hnan. eapply list_elem_of_lookup_2, Hx.
Qed.

Lemma within_limits_iff_closed_intervals_witness :
  exists b, within_limits whole joints_home = (Normal b, joints_home)
            /\ (b = true <->
                forall i, (i < n_joints)%nat ->
                          in_closed_interval joints_home i = true).
Proof.
  apply within_limits_iff_closed_intervals.
  - reflexivity.
  - repeat constructor.
Defined.

(** C3 (as stated) fails on a vector with a NaN: both comparisons of the
    loop are false on NaN, so the check passes, while NaN lies in no
    interval. *)
Lemma within_limits_passes_nan :
  length joints_nan = 7%nat
  /\ within_limits whole joints_nan = (Normal true, joints_nan)
  /\ ~ (forall i, (i < n_joints)%nat ->
                  in_closed_interval joints_nan i = true).
Proof.
  split; [reflexivity|]. split; [reflexivity|].
  intros H. specialize (H 0%nat). vm_compute in H.
  assert (0 < 7)%nat as H0 by lia. specialize (H H0). discriminate.
Qed.


(** *** Frames of the callbacks *)

Section Node.

Context {Rotation : Type}.
Variable JntToCart_M : list float -> Rotation.
Variable CartToJnt : list float -> Frame Rotation -> list float.

Abbreviation State := (State Rotation).
Abbreviation tick := (controller_publisher JntToCart_M CartToJnt).

Lemma preserves_within_limits_from {T} (f : State -> T) vals idx :
  preserves f (within_limits_from vals idx).
Proof.
  induction idx as [|i idx IH]; cbn [within_limits_from]; frame.
  exact IH.
Qed.

Ltac frame_node :=
  unfold controller_publisher, tcp_pos_publisher, joint_states_callback,
    falcon_pos_callback, compute_ik, get_robot_control, fuse_axis,
    advance_ramp, blend_joint, trajectory_point, within_limits, emit;
  frame; try apply preserves_within_limits_from.

(** C10: a tick of the fusion loop leaves [curr_joint_vals] and
    [human_offset] as they were, whatever its outcome; so does the
    telemetry timer; the joint-state callback does not write
    [human_offset] and the haptic callback does not write
    [curr_joint_vals]. *)
Theorem tick_reads_sensor_state_only :
  preserves curr_joint_vals tick
  /\ preserves human_offset tick
  /\ preserves (S := State) curr_joint_vals tcp_pos_publisher
  /\ preserves (S := State) human_offset tcp_pos_publisher
  /\ (forall msg, preserves (S := State) human_offset
                    (joint_states_callback msg))
  /\ (forall msg, preserves (S := State) curr_joint_vals
                    (falcon_pos_callback msg)).
Proof. repeat split; intros; frame_node. Qed.

(** The tick after its fusion statements, and after its blend. *)
Abbreviation check_and_publish :=
  (ok ← within_limits message_joint_vals_;
   (if negb ok then emit shutdown_call else mret tt);;
   point ← trajectory_point;
   emit (controller_publish
           {| joint_names := panda_joint_names; points := [point] |})).

Abbreviation solve_and_publish :=
  (compute_ik JntToCart_M CartToJnt tcp_pos_ curr_joint_vals_
              ik_joint_vals_;;
   advance_ramp;;
   for_each (seq 0 n_joints) blend_joint;;
   check_and_publish).

Lemma tick_enabled (s : State) :
  control s = true ->
  tick s
  = (get_robot_control
       (Double.of_int (count s) / Double.of_int control_freq) robot_offset_;;
     fuse_axis 0 ax;; fuse_axis 1 ay;; fuse_axis 2 az;;
     solve_and_publish) s.
Proof.
  intros Hctl. unfold controller_publisher.
  rewrite (bind_normal (gets control) _ s (control s) s eq_refl), Hctl.
  exact (bind_normal (gets count) _ s (count s) s eq_refl).
Qed.

(** *** The smoothing ramp *)

Lemma advance_ramp_returns (s : State) : fst (advance_ramp s) = Normal tt.
Proof.
  unfold advance_ramp, mbind, M_bind, gets, modify. cbn.
  destruct (count s <? max_count)%Z; reflexivity.
Qed.

Lemma advance_ramp_count (s : State) :
  count (snd (advance_ramp s))
  = if (count s <? max_count)%Z then (count s + 1)%Z else count s.
Proof.
  unfold advance_ramp, mbind, M_bind, gets, modify. cbn.
  destruct (count s <? max_count)%Z; reflexivity.
Qed.

Lemma advance_ramp_w (s : State) :
  w (snd (advance_ramp s))
  = Double.of_int (count (snd (advance_ramp s))) / Double.of_int max_count.
Proof.
  unfold advance_ramp, mbind, M_bind, gets, modify. cbn.
  destruct (count s <? max_count)%Z; reflexivity.
Qed.

Lemma advance_n_count (s : State) (n : nat) :
  count s = 0%Z -> count (advance_n n s) = Z.min (Z.of_nat n) max_count.
Proof.
  intros H0. induction n as [|n IH]; [exact H0|].
  change (advance_n (S n) s) with (snd (advance_ramp (advance_n n s))).
  rewrite advance_ramp_count, IH. unfold max_count, control_freq.
  destruct (Z.min (Z.of_nat n) (20 * 10) <? 20 * 10)%Z eqn:E; lia.
Qed.

Lemma advance_n_w (s : State) (n : nat) :
  count s = 0%Z -> (0 < n)%nat ->
  w (advance_n n s)
  = Double.of_int (Z.min (Z.of_nat n) max_count) / Double.of_int max_count.
Proof.
  intros H0 Hn. destruct n as [|n]; [lia|].
  rewrite <- (advance_n_count s (S n) H0).
  change (advance_n (S n) s) with (snd (advance_ramp (advance_n n s))).
  apply advance_ramp_w.
Qed.

(** The 201 weights of the ramp, checked by evaluation. *)
Lemma ramp_weight_step (c : Z) :
  (0 <= c < max_count)%Z ->
  (Double.of_int c / Double.of_int max_count
   <=? Double.of_int (c + 1) / Double.of_int max_count) = true.
Proof.
  intros Hc.
  assert (forallb (fun k =>
            Double.of_int (Z.of_nat k) / Double.of_int max_count
            <=? Double.of_int (Z.of_nat k + 1) / Double.of_int max_count)
            (seq 0 200) = true) as H by (vm_compute; reflexivity).
  rewrite forallb_forall in H. specialize (H (Z.to_nat c)).
  rewrite Z2Nat.id in H by lia. apply H, in_seq.
  unfold max_count, control_freq in Hc. lia.
Qed.

Lemma ramp_weight_le_one (c : Z) :
  (0 <= c <= max_count)%Z ->
  (Double.of_int c / Double.of_int max_count <=? 1) = true.
Proof.
  intros Hc.
  assert (forallb (fun k =>
            Double.of_int (Z.of_nat k) / Double.of_int max_count <=? 1)
            (seq 0 201) = true) as H by (vm_compute; reflexivity).
  rewrite forallb_forall in H. specialize (H (Z.to_nat c)).
  rewrite Z2Nat.id in H by lia. apply H, in_seq.
  unfold max_count, control_freq in Hc. lia.
Qed.

(** One step of a sequence that returns, with an observation it leaves
    alone. *)
Lemma step_frame {A B T} (f : State -> T) (m : M State A)
      (k : A -> M State B) s :
  preserves f m ->
  returns (m ≫= k) s ->
  exists a s1, (m ≫= k) s = k a s1 /\ returns (k a) s1 /\ f s1 = f s.
Proof.
  intros Hf H. apply bind_returns in H as (a & s1 & E & R & H).
  exists a, s1. repeat split; try assumption.
  rewrite <- (Hf s), E. reflexivity.
Qed.

(** A tick that returns advances the ramp exactly once. *)
Lemma tick_advances_ramp (s : State) :
  control s = true ->
  returns tick s ->
  count (snd (tick s))
  = (if (count s <? max_count)%Z then (count s + 1)%Z else count s)
  /\ w (snd (tick s))
     = Double.of_int (count (snd (tick s))) / Double.of_int max_count.
Proof.
  intros Hctl Hret. unfold returns in Hret.
  rewrite (tick_enabled s Hctl) in Hret |- *.
  fold (returns (get_robot_control
                   (Double.of_int (count s) / Double.of_int control_freq)
                   robot_offset_;;
                 fuse_axis 0 ax;; fuse_axis 1 ay;; fuse_axis 2 az;;
                 solve_and_publish) s) in Hret.
  apply (step_frame count) in Hret as (u0 & s0 & -> & Hret & F0);
    [|solve [frame_node]].
  apply (step_frame count) in Hret as (u1 & s1 & -> & Hret & F1);
    [|solve [frame_node]].
  apply (step_frame count) in Hret as (u2 & s2 & -> & Hret & F2);
    [|solve [frame_node]].
  apply (step_frame count) in Hret as (u3 & s3 & -> & Hret & F3);
    [|solve [frame_node]].
  apply (step_frame count) in Hret as (u4 & s4 & -> & Hret & F4);
    [|solve [frame_node]].
  assert (count s4 = count s) as F by congruence.
  apply bind_returns in Hret as (u & s6 & E & -> & _).
  assert (preserves (S := State) count
            (for_each (seq 0 n_joints) blend_joint;; check_and_publish))
    as Fc by frame_node.
  assert (preserves (S := State) w
            (for_each (seq 0 n_joints) blend_joint;; check_and_publish))
    as Fw by frame_node.
  rewrite Fc, Fw.
  replace s6 with (snd (advance_ramp s4)) by (rewrite E; reflexivity).
  rewrite advance_ramp_w, advance_ramp_count, F. split; reflexivity.
Qed.

(** The ramp statements on their own: started from the initial values,
    after [n] advances the counter is [min n max_count]; the weight is
    that counter divided by [max_count]; it does not decrease from one
    advance to the next; it is exactly 1 once the counter has reached
    [max_count] and never above 1.  An advance always returns. *)
Lemma advance_n_weight (id : Rotation) (n : nat) :
  let s k := advance_n k (initial_state id) in
  fst (advance_ramp (s n)) = Normal tt
  /\ count (s n) = Z.min (Z.of_nat n) max_count
  /\ ((0 < n)%nat ->
      w (s n) = Double.of_int (Z.min (Z.of_nat n) max_count)
                / Double.of_int max_count)
  /\ (w (s n) <=? w (s (S n))) = true
  /\ (count (s n) = max_count -> w (s n) = 1)
  /\ (w (s n) <=? 1) = true
  /\ max_count = 200%Z
  /\ w (s 100%nat) = 0.5
  /\ w (s 200%nat) = 1.
Proof.
  intros s.
  assert (forall k, count (s k) = Z.min (Z.of_nat k) max_count) as Hcount
      by (intros k; apply advance_n_count; reflexivity).
  assert (forall k, (0 < k)%nat ->
            w (s k) = Double.of_int (Z.min (Z.of_nat k) max_count)
                      / Double.of_int max_count) as Hw
      by (intros k Hk; apply advance_n_w; [reflexivity | exact Hk]).
  split; [apply advance_ramp_returns|].
  split; [apply Hcount|].
  split; [apply Hw|].
  split; [|split; [|split; [|split; [reflexivity|split]]]].
  - (* monotone *)
    destruct n as [|n]; [vm_compute; reflexivity|].
    rewrite !Hw by lia.
    destruct (Z.lt_ge_cases (Z.of_nat (S n)) max_count) as [Hlt|Hge].
    + rewrite !Z.min_l by lia.
      replace (Z.of_nat (S (S n))) with (Z.of_nat (S n) + 1)%Z by lia.
      apply ramp_weight_step. lia.
    + rewrite !Z.min_r by lia. vm_compute. reflexivity.
  - (* exactly 1 at the ceiling *)
    intros Hmax. destruct n as [|n]; [discriminate Hmax|].
    rewrite Hw by lia. rewrite <- Hcount, Hmax. vm_compute. reflexivity.
  - (* never above 1 *)
    destruct n as [|n]; [vm_compute; reflexivity|].
    rewrite Hw by lia. apply ramp_weight_le_one.
    unfold max_count, control_freq. lia.
  - rewrite Hw by lia. vm_compute. reflexivity.
  - rewrite Hw by lia. vm_compute. reflexivity.
Qed.


(** *** Invariants and emitted events *)

Section Keeps.

Variable I : State -> Prop.
Variable P : event Rotation -> Prop.

Lemma keeps_frame {A} (m : M State A) :
  (forall s, I s -> I (snd (m s))) -> preserves trace m -> keeps I P m.
Proof.
  intros HI Ht s Is. split; [auto|]. exists [].
  rewrite app_nil_r. split; [apply Ht | constructor].
Qed.

Lemma keeps_bind_val {A B} (Q : A -> Prop) (m : M State A)
      (k : A -> M State B) :
  (forall s a s1, m s = (Normal a, s1) -> Q a) ->
  keeps I P m -> (forall a, Q a -> keeps I P (k a)) -> keeps I P (m ≫= k).
Proof.
  intros HQ Hm Hk s Is. destruct (Hm s Is) as [I1 [e1 [T1 F1]]].
  unfold mbind, M_bind. destruct (m s) as [[a|e] s1] eqn:E; cbn in *.
  - destruct (Hk a (HQ _ _ _ E) s1 I1) as [I2 [e2 [T2 F2]]].
    split; [exact I2|]. exists (e1 ++ e2).
    rewrite T2, T1, app_assoc. split; [reflexivity|].
    apply Forall_app. split; assumption.
  - split; [exact I1|]. exists e1. split; assumption.
Qed.

Lemma keeps_bind {A B} (m : M State A) (k : A -> M State B) :
  keeps I P m -> (forall a, keeps I P (k a)) -> keeps I P (m ≫= k).
Proof.
  intros Hm Hk. apply (keeps_bind_val (fun _ => True)); auto.
Qed.

Lemma keeps_gets_bind {A B} (f : State -> A) (k : A -> M State B) :
  (forall s, keeps_at I P (k (f s)) s) -> keeps I P (gets f ≫= k).
Proof. intros H s. exact (H s). Qed.

Lemma keeps_emit (e : event Rotation) :
  P e -> (forall s t, I s -> I (set_trace t s)) -> keeps I P (emit e).
Proof.
  intros He HI s Is. split; [apply HI, Is|].
  exists [e]. split; [reflexivity | repeat constructor; exact He].
Qed.

Lemma keeps_for_each {K} (idx : list K) (body : K -> M State unit) :
  (forall i, keeps I P (body i)) -> keeps I P (for_each idx body).
Proof.
  intros H. induction idx as [|i idx IH]; cbn [for_each].
  - intros s Is. split; [exact Is|]. exists []. rewrite app_nil_r.
    split; [reflexivity | constructor].
  - apply keeps_bind; [apply H | intros _; exact IH].
Qed.

Lemma keeps_new_events {A} (m : M State A) s :
  keeps I P m -> I s -> Forall P (new_events s (snd (m s))).
Proof.
  intros Hm Is. destruct (Hm s Is) as [_ [evs [T F]]].
  unfold new_events. rewrite T, drop_app_length. exact F.
Qed.

End Keeps.

(** *** The delay of the published setpoints *)

Lemma latency_nanosec_value :
  Double.to_uint32 latency_nanosec = Some 100000000%Z.
Proof. vm_compute. reflexivity. Qed.

Lemma trajectory_point_delay (s s1 : State) point :
  trajectory_point s = (Normal point, s1) ->
  time_from_start point = {| sec := 0; nanosec := 100000000 |}.
Proof.
  unfold trajectory_point, mbind, M_bind, gets.
  rewrite latency_nanosec_value. cbn. intros [= <- _]. reflexivity.
Qed.

Ltac keeps_true_step :=
  first
    [ apply keeps_frame; [intros; exact Logic.I | solve [frame_node]]
    | apply keeps_emit; [exact Logic.I | intros; exact Logic.I]
    | apply keeps_bind; [| intros ?]
    | match goal with
      | |- keeps _ _ (if ?b then _ else _) => destruct b
      | |- keeps _ _ (match ?x with _ => _ end) => destruct x
      end ].

Lemma tick_keeps_delay :
  keeps (fun _ => True)
        (setpoint_delay_is {| sec := 0; nanosec := 100000000 |}) tick.
Proof.
  unfold controller_publisher, compute_ik.
  apply keeps_bind; [repeat keeps_true_step | intros ctrl].
  destruct ctrl; [|repeat keeps_true_step].
  repeat lazymatch goal with
         | |- keeps _ _ (mbind _ trajectory_point) => fail
         | |- keeps _ _ (mbind _ _) =>
             apply keeps_bind; [solve [repeat keeps_true_step] | intros ?]
         end.
  apply (keeps_bind_val _ _
           (fun point => time_from_start point
                         = {| sec := 0; nanosec := 100000000 |})).
  - intros s point s1. apply trajectory_point_delay.
  - repeat keeps_true_step.
  - intros point Hpoint. apply keeps_emit; [|intros; exact Logic.I].
    exists point. split; [reflexivity | exact Hpoint].
Qed.

(** C9: every trajectory message that a tick publishes, from any state of
    the node, has one point, whose delay is [floor(1000/20) * 2.0 = 100]
    milliseconds, held in the [nanosec] field of [time_from_start] as
    [100 * 1000000], with [sec = 0]. *)
Theorem setpoint_delay (s : State) (message : JointTrajectory) :
  In (controller_publish message) (new_events s (snd (tick s))) ->
  (1000 ÷ control_freq = 50)%Z
  /\ Double.of_int (1000 ÷ control_freq) * latency = 100
  /\ exists point,
       points message = [point]
       /\ time_from_start point = {| sec := 0; nanosec := 100 * 1000000 |}.
Proof.
  intros Hin. split; [reflexivity|]. split; [reflexivity|].
  pose proof (keeps_new_events _ _ tick s tick_keeps_delay Logic.I) as H.
  rewrite List.Forall_forall in H. exact (H _ Hin).
Qed.


(** *** The Cartesian fusion *)

Lemma fuse_axis_inv (a : nat) (al : State -> float) s u s1 :
  fuse_axis a al s = (Normal u, s1) ->
  exists o h r,
    origin s !! a = Some o /\ human_offset s !! a = Some h
    /\ robot_offset s !! a = Some r
    /\ (a < length (tcp_pos s))%nat
    /\ s1 = set_tcp_pos
              (<[a := o + al s * h + (1 - al s) * r]> (tcp_pos s)) s.
Proof.
  unfold fuse_axis, mbind, M_bind, at_, gets, assign_at. cbn -[Nat.ltb].
  destruct (origin s !! a) as [o|]; [|discriminate].
  destruct (human_offset s !! a) as [h|]; [|discriminate].
  destruct (robot_offset s !! a) as [r|]; [|discriminate].
  destruct (a <? length (tcp_pos s))%nat eqn:E; [|discriminate].
  intros [= <- <-]. exists o, h, r. repeat split. apply Nat.ltb_lt, E.
Qed.

(** The statements of the tick from the autonomous offset to the fused
    target, followed by any continuation [k]. *)
Lemma fusion_block_returns {B} (k : M State B) (t : float) (s : State) :
  returns (get_robot_control t robot_offset_;;
           fuse_axis 0 ax;; fuse_axis 1 ay;; fuse_axis 2 az;; k) s ->
  exists s4,
    (get_robot_control t robot_offset_;;
     fuse_axis 0 ax;; fuse_axis 1 ay;; fuse_axis 2 az;; k) s = k s4
    /\ returns k s4
    /\ (forall a, (a < n_joints)%nat -> robot_offset s4 !! a = Some t)
    /\ (forall a, (a < 3)%nat ->
          exists o h,
            origin s !! a = Some o /\ human_offset s !! a = Some h
            /\ tcp_pos s4 !! a
               = Some (o + alpha a s * h + (1 - alpha a s) * t)).
Proof.
  intros H.
  apply bind_returns in H as (u1 & s1 & E1 & R1 & H). rewrite R1.
  apply bind_returns in H as (u2 & s2 & E2 & R2 & H). rewrite R2.
  apply bind_returns in H as (u3 & s3 & E3 & R3 & H). rewrite R3.
  apply bind_returns in H as (u4 & s4 & E4 & R4 & H). rewrite R4.
  exists s4. split; [reflexivity|]. split; [exact H|].
  (* the autonomous offset *)
  assert (forall a, (a < n_joints)%nat -> robot_offset s1 !! a = Some t)
    as Hrob.
  { intros a Ha.
    apply (assign_loop_returns robot_offset_ t (fun _ _ => eq_refl)
             _ _ _ _ E1).
    left. apply elem_of_seq. lia. }
  assert (origin s1 = origin s /\ human_offset s1 = human_offset s
          /\ ax s1 = ax s /\ ay s1 = ay s /\ az s1 = az s)
    as (Ho & Hh & Hax & Hay & Haz).
  { replace s1 with (snd (get_robot_control t robot_offset_ s))
      by (rewrite E1; reflexivity).
    repeat split; (unfold get_robot_control; frame). }
  (* the three axes *)
  apply fuse_axis_inv in E2 as (o0 & h0 & r0 & O0 & H0 & B0 & L0 & ->).
  apply fuse_axis_inv in E3 as (o1 & h1 & r1 & O1 & H1 & B1 & L1 & ->).
  apply fuse_axis_inv in E4 as (o2 & h2 & r2 & O2 & H2 & B2 & L2 & ->).
  cbn in *. rewrite !length_insert in *.
  rewrite Ho in O0, O1, O2. rewrite Hh in H0, H1, H2.
  rewrite Hax, Hay, Haz.
  rewrite Hrob in B0, B1, B2 by (unfold n_joints; lia).
  injection B0 as <-. injection B1 as <-. injection B2 as <-.
  split; [exact Hrob|].
  intros a Ha.
  destruct a as [|[|[|a]]]; [| | |lia]; cbn [alpha].
  - exists o0, h0. repeat split; try assumption.
    rewrite !list_lookup_insert_ne by lia.
    apply list_lookup_insert_eq, L0.
  - exists o1, h1. repeat split; try assumption.
    rewrite list_lookup_insert_ne by lia.
    apply list_lookup_insert_eq. rewrite length_insert. exact L1.
  - exists o2, h2. repeat split; try assumption.
    apply list_lookup_insert_eq. rewrite !length_insert. exact L2.
Qed.

Lemma time_finite (c : Z) :
  (0 <= c <= max_count)%Z ->
  Double.finite (Double.of_int c / Double.of_int control_freq) = true.
Proof.
  intros Hc.
  assert (forallb (fun k =>
            Double.finite (Double.of_int (Z.of_nat k)
                           / Double.of_int control_freq))
            (seq 0 201) = true) as H by (vm_compute; reflexivity).
  rewrite forallb_forall in H. specialize (H (Z.to_nat c)).
  rewrite Z2Nat.id in H by lia. apply H, in_seq.
  unfold max_count, control_freq in Hc. lia.
Qed.

(** With weight 1.0 the autonomous term is [0 * t], a zero for finite [t]. *)
Lemma fused_with_weight_one (o h t : float) :
  Double.finite t = true ->
  Double.same_number (o + 1 * h + (1 - 1) * t) (o + h).
Proof.
  intros Ht. rewrite mul_1_l. change (1 - 1) with 0.
  apply add_zero_r, mul_0_finite, Ht.
Qed.

(** The counter of the ramp stays between 0 and [max_count] through every
    run of callbacks, so the elapsed time of a tick is a finite double. *)
Lemma advance_ramp_keeps_range :
  keeps (fun s => (0 <= count s <= max_count)%Z) (fun _ => True)
        (advance_ramp (Rotation := Rotation)).
Proof.
  apply keeps_frame; [|unfold advance_ramp; frame].
  intros s Hs. rewrite advance_ramp_count.
  destruct (count s <? max_count)%Z eqn:E; [|exact Hs].
  apply Z.ltb_lt in E. lia.
Qed.

Lemma range_frame {A} (m : M State A) :
  preserves count m ->
  forall s, (0 <= count s <= max_count)%Z ->
            (0 <= count (snd (m s)) <= max_count)%Z.
Proof. intros Hc s Hs. rewrite Hc. exact Hs. Qed.

Lemma spin_keeps_count_range (arrivals : list callback) :
  keeps (fun s => (0 <= count s <= max_count)%Z) (fun _ => True)
        (spin JntToCart_M CartToJnt arrivals).
Proof.
  apply keeps_for_each. intros c.
  destruct c; cbn [dispatch];
    unfold controller_publisher, compute_ik, tcp_pos_publisher,
      joint_states_callback, falcon_pos_callback;
    repeat first
      [ apply advance_ramp_keeps_range
      | apply keeps_emit; [exact Logic.I | intros ? ? Hs; exact Hs]
      | apply keeps_frame; [apply range_frame; solve [frame_node]
                           | solve [frame_node]]
      | apply keeps_bind; [| intros ?]
      | match goal with
        | |- keeps _ _ (if ?b then _ else _) => destruct b
        | |- keeps _ _ (match ?x with _ => _ end) => destruct x
        end ].
Qed.

Lemma count_in_range (id : Rotation) (arrivals : list callback) :
  (0 <= count (snd (spin JntToCart_M CartToJnt arrivals (initial_state id)))
   <= max_count)%Z.
Proof.
  apply (spin_keeps_count_range arrivals (initial_state id)).
  vm_compute. split; discriminate.
Qed.

(** C6: in a tick that returns, each axis [a] of the fused target is
    [origin[a] + weight[a] * human[a] + (1 - weight[a]) * autonomous[a]],
    where the autonomous offset is the ramp value [t = count / 20] that
    the tick has just written; with weights (1, 1, 1) the target is the
    number [origin[a] + human[a]] (the same double, up to the sign of a
    zero), whatever the origin, the human offset and the autonomous offset
    held before the tick. *)
Theorem cartesian_fusion (s : State) (a : nat) :
  (a < 3)%nat ->
  control s = true ->
  (0 <= count s <= max_count)%Z ->
  returns tick s ->
  let s' := snd (tick s) in
  let t := Double.of_int (count s) / Double.of_int control_freq in
  exists o h,
    origin s !! a = Some o
    /\ human_offset s !! a = Some h
    /\ robot_offset s' !! a = Some t
    /\ tcp_pos s' !! a = Some (o + alpha a s * h + (1 - alpha a s) * t)
    /\ (ax s = 1 -> ay s = 1 -> az s = 1 ->
        exists p, tcp_pos s' !! a = Some p
                  /\ Double.same_number p (o + h)).
Proof.
  intros Ha Hctl Hcount Hret s' t. subst s'.
  unfold returns in Hret. rewrite (tick_enabled s Hctl) in Hret |- *.
  fold t in Hret |- *.
  apply fusion_block_returns in Hret as (s4 & -> & Hret & Hrob & Htcp).
  destruct (Htcp a Ha) as (o & h & Ho & Hh & Ht).
  assert (preserves (S := State) tcp_pos solve_and_publish) as Ftcp
      by frame_node.
  assert (preserves (S := State) robot_offset solve_and_publish) as Frob
      by frame_node.
  exists o, h. rewrite Ftcp, Frob.
  split; [exact Ho|]. split; [exact Hh|].
  split; [apply Hrob; unfold n_joints; lia|].
  split; [exact Ht|].
  intros Hax Hay Haz. eexists. split; [rewrite Ftcp; exact Ht|].
  assert (alpha a s = 1) as -> by (destruct a as [|[|a]]; assumption).
  apply fused_with_weight_one, time_finite, Hcount.
Qed.

(** *** The limit check in the tick *)

(** [within_limits] on a reference reads the vector and writes nothing. *)
Lemma within_limits_from_ref (vals : ref State (list float)) idx s :
  within_limits_from vals idx s
  = (fst (within_limits_from whole idx (view vals s)), s).
Proof.
  induction idx as [|i idx IH]; [reflexivity|].
  cbn [within_limits_from]. unfold mbind, M_bind, at_, lift. cbn [view whole].
  destruct (view vals s !! i) as [x|] eqn:Hx; cbn; [|reflexivity].
  destruct (const_at upper_joint_limits i) as [u|]; cbn; [|reflexivity].
  destruct (u <? x); cbn; [reflexivity|].
  rewrite Hx. cbn.
  destruct (const_at lower_joint_limits i) as [l|]; cbn; [|reflexivity].
  destruct (x <? l); cbn; [reflexivity|].
  exact IH.
Qed.

(** *** The frozen orientation of the IK service *)

Lemma collect_at_const (v : list float) (n k : nat) (s : State) :
  (k + n <= length v)%nat ->
  collect (seq k n) (at_ (const_ref v)) s = (Normal (take n (drop k v)), s).
Proof.
  revert k. induction n as [|n IH]; intros k Hk; [reflexivity|].
  destruct (lookup_lt_is_Some_2 v k) as [x Hx]; [lia|].
  cbn [collect seq].
  rewrite (bind_normal (at_ (const_ref v) k) _ s x s)
    by (unfold at_; cbn [view const_ref]; rewrite Hx; reflexivity).
  rewrite (bind_normal _ _ s _ s (IH (S k) ltac:(lia))).
  rewrite (drop_S v x k Hx). reflexivity.
Qed.

Lemma frozen_frame {A} (o : Rotation) (m : M State A) :
  preserves got_orientation m -> preserves orientation m ->
  forall s, frozen_at o s -> frozen_at o (snd (m s)).
Proof. intros Hg Ho s [G O]. split; [rewrite Hg | rewrite Ho]; assumption. Qed.

Ltac keeps_frozen_step :=
  first
    [ apply keeps_frame; [apply frozen_frame; solve [frame_node]
                         | solve [frame_node]]
    | apply keeps_bind; [| intros ?]
    | match goal with
      | |- keeps _ _ (if ?b then _ else _) => destruct b
      | |- keeps _ _ (match ?x with _ => _ end) => destruct x
      end ].

(** Once the orientation is captured, a call keeps it and builds its goal
    pose from it, whatever the target and the starting joints, and
    whatever the outcome of the call. *)
Lemma compute_ik_keeps_frozen (o : Rotation)
      (desired curr : ref State (list float)) :
  keeps (frozen_at o) (goal_orientation_is o)
        (compute_ik JntToCart_M CartToJnt desired curr ik_joint_vals_).
Proof.
  unfold compute_ik.
  apply keeps_bind; [keeps_frozen_step | intros q].
  apply keeps_gets_bind. intros s Is. pose proof Is as [Hgot _].
  rewrite Hgot. cbn [negb]. clear Hgot. revert s Is.
  change (keeps (frozen_at o) (goal_orientation_is o)
            (mret tt;;
             px ← at_ desired 0;
             py ← at_ desired 1;
             pz ← at_ desired 2;
             rot ← gets orientation;
             emit (CartToJnt_call q {| Frame_M := rot;
                                       Frame_p := (px, py, pz) |});;
             for_each (seq 0 n_joints) (fun i =>
               match CartToJnt q {| Frame_M := rot;
                                    Frame_p := (px, py, pz) |} !! i with
               | Some v => assign_at ik_joint_vals_ i v
               | None => throw undefined_behaviour
               end))).
  do 4 (apply keeps_bind; [keeps_frozen_step | intros ?]).
  apply keeps_gets_bind. intros s Is. pose proof Is as [_ Hrot].
  rewrite Hrot. clear Hrot. revert s Is.
  change (keeps (frozen_at o) (goal_orientation_is o)
            (emit (CartToJnt_call q {| Frame_M := o;
                                       Frame_p := (a0, a1, a2) |});;
             for_each (seq 0 n_joints) (fun i =>
               match CartToJnt q {| Frame_M := o;
                                    Frame_p := (a0, a1, a2) |} !! i with
               | Some v => assign_at ik_joint_vals_ i v
               | None => throw undefined_behaviour
               end))).
  apply keeps_bind.
  - apply keeps_emit; [reflexivity | intros s t Is; exact Is].
  - intros _. repeat keeps_frozen_step.
Qed.

Ltac keeps_frozen_node :=
  repeat first
    [ apply compute_ik_keeps_frozen
    | apply keeps_emit; [exact Logic.I | intros ? ? Is; exact Is]
    | keeps_frozen_step ].

(** No callback of the node touches a captured orientation; the ticks
    build every goal pose from it. *)
Lemma spin_keeps_frozen (o : Rotation) (arrivals : list callback) :
  keeps (frozen_at o) (goal_orientation_is o)
        (spin JntToCart_M CartToJnt arrivals).
Proof.
  apply keeps_for_each. intros [| |msg|msg]; cbn [dispatch].
  - unfold controller_publisher. keeps_frozen_node.
  - unfold tcp_pos_publisher. keeps_frozen_node.
  - unfold joint_states_callback. keeps_frozen_node.
  - unfold falcon_pos_callback. keeps_frozen_node.
Qed.

(** The first call, on at least seven starting joints, captures the
    orientation of their forward kinematics and then proceeds as a call
    with that orientation frozen. *)
Lemma compute_ik_first (desired curr : list float) (s : State) :
  got_orientation s = false ->
  (n_joints <= length curr)%nat ->
  compute_ik JntToCart_M CartToJnt (const_ref desired) (const_ref curr)
             ik_joint_vals_ s
  = compute_ik JntToCart_M CartToJnt (const_ref desired) (const_ref curr)
               ik_joint_vals_
      (set_got_orientation true
         (set_orientation (JntToCart_M (take n_joints curr)) s)).
Proof.
  intros Hgot Hlen. unfold compute_ik.
  rewrite !(bind_normal _ _ _ _ _
              (collect_at_const curr n_joints 0 _ ltac:(cbn; lia))).
  set (s1 := set_got_orientation true _).
  rewrite (bind_normal (gets got_orientation) _ s _ s eq_refl).
  rewrite (bind_normal (gets got_orientation) _ s1 _ s1 eq_refl).
  rewrite Hgot. reflexivity.
Qed.

(** C5: in a session of the IK service that starts before any orientation
    was captured, with a first call on at least seven starting joints, the
    orientation of the forward kinematics of those joints is captured and
    stays: at the end of the session, however many calls follow and
    whatever their targets and starting joints, the flag is true, the
    stored orientation is that one, and the goal pose of every
    inverse-kinematics call of the session was built from it.  The same
    holds on through every later run of callbacks of the node. *)
Theorem orientation_frozen_by_first_call
        (s : State) (desired curr : list float)
        (later : list (list float * list float)) :
  got_orientation s = false ->
  (n_joints <= length curr)%nat ->
  let s' := snd (ik_session JntToCart_M CartToJnt
                            ((desired, curr) :: later) s) in
  let o := JntToCart_M (take n_joints curr) in
  got_orientation s' = true
  /\ orientation s' = o
  /\ Forall (goal_orientation_is o) (new_events s s')
  /\ forall arrivals,
       let s'' := snd (spin JntToCart_M CartToJnt arrivals s') in
       got_orientation s'' = true
       /\ orientation s'' = o
       /\ Forall (goal_orientation_is o) (new_events s' s'').
Proof.
  intros Hgot Hlen s' o. subst s'.
  set (s1 := set_got_orientation true (set_orientation o s)).
  assert (ik_session JntToCart_M CartToJnt ((desired, curr) :: later) s
          = ik_session JntToCart_M CartToJnt ((desired, curr) :: later) s1)
    as ->.
  { unfold ik_session. cbn [for_each fst snd].
    apply bind_same_run, compute_ik_first; assumption. }
  assert (keeps (frozen_at o) (goal_orientation_is o)
            (ik_session JntToCart_M CartToJnt ((desired, curr) :: later)))
    as Hk.
  { apply keeps_for_each. intros call. apply compute_ik_keeps_frozen. }
  destruct (Hk s1) as [[G O] [evs [T F]]]; [split; reflexivity|].
  split; [exact G|]. split; [exact O|]. split.
  - unfold new_events. rewrite T. change (trace s1) with (trace s).
    rewrite drop_app_length. exact F.
  - intros arrivals s''. subst s''.
    destruct (spin_keeps_frozen o arrivals _ (conj G O))
      as [[G' O'] [evs' [T' F']]].
    split; [exact G'|]. split; [exact O'|].
    unfold new_events. rewrite T', drop_app_length. exact F'.
Qed.

(** *** Further properties of the node: sizes, the idle gate, the latch *)

Lemma preserves_assign_at_insert {T A} (f : State -> T)
      (v : ref State (list A)) i x :
  (forall j y s, f (update v (<[j:=y]> (view v s)) s) = f s) ->
  preserves f (assign_at v i x).
Proof.
  intros H s. unfold assign_at.
  destruct (i <? length (view v s))%nat; cbn; [apply H | reflexivity].
Qed.

Ltac frame_sizes :=
  unfold controller_publisher, tcp_pos_publisher, joint_states_callback,
    falcon_pos_callback, compute_ik, get_robot_control, fuse_axis,
    advance_ramp, blend_joint, trajectory_point, within_limits, emit;
  repeat first
    [ apply preserves_within_limits_from
    | apply preserves_assign_at_insert; intros ? ? ?;
      unfold vector_sizes; cbn; rewrite ?length_insert; reflexivity
    | frame_step ].

(** X1: no callback of the node resizes a vector: after any run of
    callbacks, whatever its outcome, the seven vectors of the node have
    the sizes they had before. *)
Theorem spin_keeps_vector_sizes (arrivals : list callback) (s : State) :
  vector_sizes (snd (spin JntToCart_M CartToJnt arrivals s))
  = vector_sizes s.
Proof.
  revert s. change (preserves vector_sizes
                      (spin JntToCart_M CartToJnt arrivals)).
  apply preserves_for_each. intros c. destruct c; cbn [dispatch]; frame_sizes.
Qed.

Lemma keeps_for_each_in {K} (I : State -> Prop) (P : event Rotation -> Prop)
      (idx : list K) (body : K -> M State unit) :
  (forall i, In i idx -> keeps I P (body i)) ->
  keeps I P (for_each idx body).
Proof.
  induction idx as [|i idx IH]; intros H; cbn [for_each].
  - intros s Is. split; [exact Is|]. exists []. rewrite app_nil_r.
    split; [reflexivity | constructor].
  - apply keeps_bind; [apply H; left; reflexivity|].
    intros _. apply IH. intros j Hj. apply H. right. exact Hj.
Qed.

Lemma tick_idle (s : State) : control s = false -> tick s = (Normal tt, s).
Proof.
  intros Hctl. unfold controller_publisher.
  rewrite (bind_normal (gets control) _ s (control s) s eq_refl), Hctl.
  reflexivity.
Qed.

Lemma telemetry_keeps (I : State -> Prop) :
  (forall s t, I s -> I (set_trace t s)) ->
  keeps I is_telemetry (tcp_pos_publisher (Rotation := Rotation)).
Proof.
  intros HI. unfold tcp_pos_publisher.
  do 3 (apply keeps_bind;
        [apply keeps_frame;
         [intros s Is; unfold at_; destruct (_ !! _); exact Is | frame]
        | intros ?]).
  apply keeps_emit; [exact Logic.I | exact HI].
Qed.

(** X2: before the first joint-state message the node gives no control
    output: from a state with [control = false], any run of timer ticks
    and haptic messages leaves [control] false and the ramp where it was,
    and adds only telemetry messages to the trace: no solver call, no
    shutdown request, no trajectory message. *)
Theorem idle_node_gives_no_control_output
        (arrivals : list callback) (s : State) :
  control s = false ->
  forallb (fun c => negb (is_joint_states c)) arrivals = true ->
  let s' := snd (spin JntToCart_M CartToJnt arrivals s) in
  control s' = false
  /\ count s' = count s
  /\ Forall is_telemetry (new_events s s').
Proof.
  intros Hctl Hno s'. subst s'.
  assert (keeps (fun x => control x = false /\ count x = count s)
                is_telemetry (spin JntToCart_M CartToJnt arrivals)) as Hk.
  { apply keeps_for_each_in. intros c Hc.
    rewrite forallb_forall in Hno. specialize (Hno c Hc).
    destruct c as [| |msg|msg]; cbn [dispatch]; try discriminate Hno.
    - intros x Ix. pose proof Ix as [Hx _]. rewrite (tick_idle x Hx).
      split; [exact Ix|]. exists []. rewrite app_nil_r.
      split; [reflexivity | constructor].
    - apply telemetry_keeps. intros x t Ix. exact Ix.
    - assert (preserves (S := State) control (falcon_pos_callback msg))
        as Pctl by frame_node.
      assert (preserves (S := State) count (falcon_pos_callback msg))
        as Pcnt by frame_node.
      apply keeps_frame; [|frame_node].
      intros x Ix. rewrite Pctl, Pcnt. exact Ix. }
  destruct (Hk s (conj Hctl eq_refl)) as [[Hc Hn] [evs [T F]]].
  split; [exact Hc|]. split; [exact Hn|].
  unfold new_events. rewrite T, drop_app_length. exact F.
Qed.

Lemma joint_states_keeps_control (msg : JointState) (s : State) :
  control s = true -> control (snd (joint_states_callback msg s)) = true.
Proof.
  intros Hctl. unfold joint_states_callback.
  set (loop := for_each (seq 0 n_joints) _).
  assert (preserves (S := State) control loop) as Pl
      by (subst loop; frame_node).
  assert (control (snd (loop s)) = true) as Hl by (rewrite Pl; exact Hctl).
  unfold mbind at 1, M_bind at 1. destruct (loop s) as [[u|e] s1]; cbn in *.
  - rewrite (bind_normal (gets control) _ s1 (control s1) s1 eq_refl), Hl.
    exact Hl.
  - exact Hl.
Qed.

(** X3: the control flag is a latch: once a joint-state message has set
    it, no run of callbacks, whatever its outcome, clears it. *)
Theorem control_flag_is_a_latch (arrivals : list callback) (s : State) :
  control s = true ->
  control (snd (spin JntToCart_M CartToJnt arrivals s)) = true.
Proof.
  revert s. induction arrivals as [|c arrivals IH]; intros s Hctl;
    [exact Hctl|].
  unfold spin. cbn [for_each]. unfold mbind, M_bind.
  assert (control (snd (dispatch JntToCart_M CartToJnt c s)) = true) as Hc.
  { assert (preserves (S := State) control tick) as P1 by frame_node.
    assert (preserves (S := State) control tcp_pos_publisher) as P2
        by frame_node.
    assert (forall msg, preserves (S := State) control
                          (falcon_pos_callback msg)) as P3
        by (intros msg; frame_node).
    destruct c as [| |msg|msg]; cbn [dispatch].
    - rewrite P1. exact Hctl.
    - rewrite P2. exact Hctl.
    - apply joint_states_keeps_control, Hctl.
    - rewrite P3. exact Hctl. }
  destruct (dispatch JntToCart_M CartToJnt c s) as [[u|e] s1]; cbn in *.
  - apply IH, Hc.
  - exact Hc.
Qed.


(** *** The node as it is declared *)

Lemma tick_three_elements (s : State) :
  control s = true ->
  length (robot_offset s) = 3%nat ->
  let t := Double.of_int (count s) / Double.of_int control_freq in
  tick s = (Throw out_of_range, set_robot_offset [t; t; t] s).
Proof.
  intros Hctl Hlen t. rewrite (tick_enabled s Hctl). fold t.
  destruct (robot_offset s) as [|a [|b [|c [|d l]]]] eqn:E;
    try discriminate Hlen.
  assert (get_robot_control t robot_offset_ s
          = (Throw out_of_range, set_robot_offset [t; t; t] s)) as Hthrow.
  { unfold get_robot_control. cbn [for_each seq n_joints].
    unfold mbind, M_bind, assign_at. cbn [view update robot_offset_].
    rewrite E. reflexivity. }
  exact (bind_throw _ _ _ _ _ Hthrow).
Qed.

(** X4: the node as it is declared never commands the arm: started from
    its initial state, after any run of callbacks the trace holds only
    telemetry messages (no solver call, no shutdown request, no trajectory
    message), the ramp has not advanced and no orientation was captured;
    once a joint-state message has enabled the control, every tick throws
    [out_of_range]. *)
Theorem declared_node_never_publishes
        (id : Rotation) (arrivals : list callback) :
  let s' := snd (spin JntToCart_M CartToJnt arrivals (initial_state id)) in
  Forall is_telemetry (trace s')
  /\ count s' = 0%Z
  /\ got_orientation s' = false
  /\ (control s' = true -> fst (tick s') = Throw out_of_range).
Proof.
  intros s'. subst s'.
  set (I := fun x : State => length (robot_offset x) = 3%nat
                             /\ count x = 0%Z /\ got_orientation x = false).
  assert (keeps I is_telemetry (spin JntToCart_M CartToJnt arrivals)) as Hk.
  { apply keeps_for_each. intros c.
    assert (forall (m : M State unit),
              preserves robot_offset m -> preserves count m ->
              preserves got_orientation m -> preserves trace m ->
              keeps I is_telemetry m) as Hframe.
    { intros m P1 P2 P3 P4. apply keeps_frame; [|exact P4].
      intros x Ix. unfold I. rewrite P1, P2, P3. exact Ix. }
    destruct c as [| |msg|msg]; cbn [dispatch].
    - intros x Ix. pose proof Ix as (Hlen & Hc & Hg).
      destruct (control x) eqn:Hctl.
      + rewrite (tick_three_elements x Hctl Hlen). cbn.
        split; [repeat split; assumption|]. exists []. rewrite app_nil_r.
        split; [reflexivity | constructor].
      + rewrite (tick_idle x Hctl).
        split; [exact Ix|]. exists []. rewrite app_nil_r.
        split; [reflexivity | constructor].
    - apply telemetry_keeps. intros x t Ix. exact Ix.
    - apply Hframe; frame_node.
    - apply Hframe; frame_node. }
  destruct (Hk (initial_state id)) as [(Hlen & Hc & Hg) [evs [T F]]];
    [repeat split|].
  cbn [trace initial_state app] in T.
  split; [rewrite T; exact F|]. split; [exact Hc|]. split; [exact Hg|].
  intros Hctl. rewrite (tick_three_elements _ Hctl Hlen). reflexivity.
Qed.


(** *** The subscriber callbacks and the telemetry timer *)

(** X5: a joint-state message with at least seven positions is copied,
    its first seven positions only, into [curr_joint_vals], and enables
    the control; a message with fewer than seven positions makes the
    callback throw [out_of_range] after it has overwritten the leading
    entries, and leaves the control flag as it was (a node that was idle
    stays idle). *)
Theorem joint_states_callback_copies_seven (msg : JointState) (s : State) :
  (n_joints <= length (curr_joint_vals s))%nat ->
  let data := position msg in
  let r := joint_states_callback msg s in
  ((n_joints <= length data)%nat ->
   fst r = Normal tt
   /\ curr_joint_vals (snd r)
      = take n_joints data ++ drop n_joints (curr_joint_vals s)
   /\ control (snd r) = true)
  /\ ((length data < n_joints)%nat ->
      fst r = Throw out_of_range
      /\ curr_joint_vals (snd r)
         = data ++ drop (length data) (curr_joint_vals s)
      /\ control (snd r) = control s).
Proof.
  intros Hlen data r. subst data r.
  destruct s as [ori got tcp org hum rob cur ik mes ctl cnt wt a1 a2 a3 tr].
  destruct msg as [data]. cbn [curr_joint_vals position] in *.
  unfold n_joints in *.
  do 7 (destruct cur as [|? cur]; [cbn in Hlen; lia|]).
  split; intros Hd.
  - do 7 (destruct data as [|? data]; [cbn in Hd; lia|]).
    destruct ctl; vm_compute; repeat split.
  - destruct data as [|? [|? [|? [|? [|? [|? [|? data]]]]]]];
      try (cbn in Hd; lia); vm_compute; repeat split.
Qed.


Lemma tcp_pos_publisher_eval (s : State) (a b c : float) :
  tcp_pos s !! 0%nat = Some a -> tcp_pos s !! 1%nat = Some b ->
  tcp_pos s !! 2%nat = Some c ->
  tcp_pos_publisher s
  = (Normal tt,
     set_trace (trace s ++ [tcp_pos_publish {| x := a; y := b; z := c |}]) s).
Proof.
  intros Ha Hb Hc. unfold tcp_pos_publisher, mbind, M_bind, at_.
  cbn [view tcp_pos_]. rewrite Ha, Hb, Hc. reflexivity.
Qed.

(** X7: the telemetry reports the target of the last tick: after a tick
    that returns, the telemetry timer returns, changes nothing but the
    trace, and publishes one message whose coordinates are, axis by axis,
    [origin + weight * human + (1 - weight) * t] with [t] the elapsed time
    of that tick. *)
Theorem telemetry_reports_fused_target (s : State) :
  control s = true ->
  returns tick s ->
  let s1 := snd (tick s) in
  let t := Double.of_int (count s) / Double.of_int control_freq in
  exists o0 h0 o1 h1 o2 h2,
    origin s !! 0%nat = Some o0 /\ human_offset s !! 0%nat = Some h0
    /\ origin s !! 1%nat = Some o1 /\ human_offset s !! 1%nat = Some h1
    /\ origin s !! 2%nat = Some o2 /\ human_offset s !! 2%nat = Some h2
    /\ tcp_pos_publisher s1
       = (Normal tt,
          set_trace
            (trace s1
             ++ [tcp_pos_publish
                   {| x := o0 + ax s * h0 + (1 - ax s) * t;
                      y := o1 + ay s * h1 + (1 - ay s) * t;
                      z := o2 + az s * h2 + (1 - az s) * t |}]) s1).
Proof.
  intros Hctl Hret s1 t. subst s1.
  unfold returns in Hret. rewrite (tick_enabled s Hctl) in Hret |- *.
  fold t in Hret |- *.
  apply fusion_block_returns in Hret as (s4 & -> & Hret & _ & Htcp).
  assert (preserves (S := State) tcp_pos solve_and_publish) as Ftcp
      by frame_node.
  destruct (Htcp 0%nat ltac:(lia)) as (o0 & h0 & O0 & H0 & T0).
  destruct (Htcp 1%nat ltac:(lia)) as (o1 & h1 & O1 & H1 & T1).
  destruct (Htcp 2%nat ltac:(lia)) as (o2 & h2 & O2 & H2 & T2).
  exists o0, h0, o1, h1, o2, h2. repeat (split; [assumption|]).
  apply tcp_pos_publisher_eval; rewrite Ftcp; assumption.
Qed.


(** *** A tick that returns, statement by statement *)

Lemma bind_inv {A B} (m : M State A) (k : A -> M State B) s b s2 :
  (m ≫= k) s = (Normal b, s2) ->
  exists a s1, m s = (Normal a, s1) /\ k a s1 = (Normal b, s2).
Proof.
  unfold mbind, M_bind. destruct (m s) as [[a|e] s1]; [eauto | discriminate].
Qed.

Ltac short_vector H := exfalso; revert H; vm_compute; intros [=].

(** The starting joints of the solver are the first seven current joint
    values. *)
Lemma read_start_inv (s : State) q s1 :
  collect (seq 0 n_joints) (at_ curr_joint_vals_) s = (Normal q, s1) ->
  (n_joints <= length (curr_joint_vals s))%nat
  /\ q = take n_joints (curr_joint_vals s) /\ s1 = s.
Proof.
  destruct s as [ori got tcp org hum rob cur ik mes ctl cnt wt a1 a2 a3 tr].
  intros H.
  do 7 (destruct cur as [|? cur]; [short_vector H|]).
  vm_compute in H. injection H as <- <-.
  repeat split. cbn. unfold n_joints. lia.
Qed.

(** The first seven joints of the solver's answer go to [ik_joint_vals]. *)
Lemma store_solution_inv (sol : list float) (s : State) u s1 :
  for_each (seq 0 n_joints) (fun i =>
    match sol !! i with
    | Some v => assign_at ik_joint_vals_ i v
    | None => throw undefined_behaviour
    end) s = (Normal u, s1) ->
  (n_joints <= length sol)%nat
  /\ (n_joints <= length (ik_joint_vals s))%nat
  /\ s1 = set_ik_joint_vals
            (take n_joints sol ++ drop n_joints (ik_joint_vals s)) s.
Proof.
  destruct s as [ori got tcp org hum rob cur ik mes ctl cnt wt a1 a2 a3 tr].
  intros H.
  do 7 (destruct sol as [|? sol]; [short_vector H|];
        destruct ik as [|? ik]; [short_vector H|]).
  vm_compute in H. injection H as _ <-.
  repeat split; cbn; unfold n_joints; lia || reflexivity.
Qed.

(** What a call of the IK service in a tick has done when it returns. *)
Lemma compute_ik_inv (s : State) u s1 :
  compute_ik JntToCart_M CartToJnt tcp_pos_ curr_joint_vals_ ik_joint_vals_ s
  = (Normal u, s1) ->
  exists px py pz,
    tcp_pos s !! 0%nat = Some px /\ tcp_pos s !! 1%nat = Some py
    /\ tcp_pos s !! 2%nat = Some pz
    /\ let q := take n_joints (curr_joint_vals s) in
       let o := if got_orientation s then orientation s else JntToCart_M q in
       let goal := {| Frame_M := o; Frame_p := (px, py, pz) |} in
       (n_joints <= length (curr_joint_vals s))%nat
       /\ (n_joints <= length (CartToJnt q goal))%nat
       /\ (n_joints <= length (ik_joint_vals s))%nat
       /\ s1 = set_ik_joint_vals
                 (take n_joints (CartToJnt q goal)
                  ++ drop n_joints (ik_joint_vals s))
                 (set_trace (trace s ++ [CartToJnt_call q goal])
                    (set_got_orientation true (set_orientation o s))).
Proof.
  intros H. unfold compute_ik in H.
  apply bind_inv in H as (q & s0 & E & H).
  apply read_start_inv in E as (Hcur & -> & ->).
  apply bind_inv in H as (got & s0 & E & H). apply gets_inv in E as [-> ->].
  apply bind_inv in H as (u0 & s0 & E & H).
  assert (s0 = set_got_orientation true
                 (set_orientation
                    (if got_orientation s then orientation s
                     else JntToCart_M (take n_joints (curr_joint_vals s)))
                    s)) as ->.
  { destruct (got_orientation s) eqn:G; cbn [negb] in E.
    - injection E as _ <-. destruct s. cbn in G. subst. reflexivity.
    - unfold mbind, M_bind, modify in E. injection E as _ <-. reflexivity. }
  clear E.
  apply bind_inv in H as (px & s0 & E & H). apply at_inv in E as [Hx ->].
  apply bind_inv in H as (py & s0 & E & H). apply at_inv in E as [Hy ->].
  apply bind_inv in H as (pz & s0 & E & H). apply at_inv in E as [Hz ->].
  apply bind_inv in H as (rot & s0 & E & H). apply gets_inv in E as [-> ->].
  apply bind_inv in H as (u1 & s0 & E & H).
  unfold emit, modify in E. injection E as _ <-.
  apply store_solution_inv in H as (Hsol & Hik & ->).
  exists px, py, pz. repeat split; assumption.
Qed.

Lemma blend_joint_inv (i : nat) (s : State) u s1 :
  blend_joint i s = (Normal u, s1) ->
  exists qik qc,
    ik_joint_vals s !! i = Some qik /\ curr_joint_vals s !! i = Some qc
    /\ (i < length (message_joint_vals s))%nat
    /\ s1 = set_message_joint_vals
              (<[i := w s * qik + (1 - w s) * qc]> (message_joint_vals s)) s.
Proof.
  unfold blend_joint, mbind, M_bind, at_, gets, assign_at. cbn -[Nat.ltb].
  destruct (ik_joint_vals s !! i) as [qik|]; [|discriminate].
  destruct (curr_joint_vals s !! i) as [qc|]; [|discriminate].
  destruct (i <? length (message_joint_vals s))%nat eqn:E; [|discriminate].
  intros [= <- <-]. exists qik, qc. repeat split. apply Nat.ltb_lt, E.
Qed.

(** A blend loop that returns has written, at each of its indices, the
    convex combination of the IK result and the current joint value. *)
Lemma blend_loop_inv (idx : list nat) :
  NoDup idx ->
  forall (s : State) u s1,
    for_each idx blend_joint s = (Normal u, s1) ->
    forall i,
      (i ∈ idx ->
       exists qik qc,
         ik_joint_vals s !! i = Some qik /\ curr_joint_vals s !! i = Some qc
         /\ message_joint_vals s1 !! i
            = Some (w s * qik + (1 - w s) * qc))
      /\ (i ∉ idx ->
          message_joint_vals s1 !! i = message_joint_vals s !! i).
Proof.
  induction 1 as [|j idx Hj Hnd IH]; intros s u s1 Hrun i.
  - injection Hrun as _ <-. split; [intros Hi; inversion Hi | reflexivity].
  - cbn [for_each] in Hrun. apply bind_inv in Hrun as (u0 & s0 & E & Hrun).
    apply blend_joint_inv in E as (qik & qc & Hik & Hc & Hlen & ->).
    destruct (IH _ _ _ Hrun i) as [Hin Hout].
    cbn [ik_joint_vals curr_joint_vals w message_joint_vals
         set_message_joint_vals] in Hin, Hout.
    split.
    + intros Hi. apply elem_of_cons in Hi as [->|Hi]; [|exact (Hin Hi)].
      exists qik, qc. repeat split; try assumption.
      rewrite (Hout Hj). apply list_lookup_insert_eq, Hlen.
    + intros Hi. apply not_elem_of_cons in Hi as [Hne Hi].
      rewrite (Hout Hi). apply list_lookup_insert_ne. congruence.
Qed.

(** The observations that the statements before the IK call leave alone,
    and those that the statements after it leave alone. *)
Abbreviation before_ik :=
  (fun x : State => (trace x, curr_joint_vals x, orientation x,
                     got_orientation x, ik_joint_vals x)).
Abbreviation after_ik :=
  (fun x : State => (trace x, tcp_pos x, orientation x, got_orientation x,
                     ik_joint_vals x, curr_joint_vals x)).

(** A tick that returns, from its first statement to its last. *)
Lemma tick_returns_inv (s : State) :
  control s = true ->
  returns tick s ->
  let s' := snd (tick s) in
  let q := take n_joints (curr_joint_vals s) in
  let o := if got_orientation s then orientation s else JntToCart_M q in
  exists px py pz ok,
    let goal := {| Frame_M := o; Frame_p := (px, py, pz) |} in
    tcp_pos s' !! 0%nat = Some px /\ tcp_pos s' !! 1%nat = Some py
    /\ tcp_pos s' !! 2%nat = Some pz
    /\ (n_joints <= length (curr_joint_vals s))%nat
    /\ (n_joints <= length (CartToJnt q goal))%nat
    /\ orientation s' = o /\ got_orientation s' = true
    /\ ik_joint_vals s'
       = take n_joints (CartToJnt q goal) ++ drop n_joints (ik_joint_vals s)
    /\ (forall i, (i < n_joints)%nat ->
          exists qik qc,
            ik_joint_vals s' !! i = Some qik
            /\ curr_joint_vals s !! i = Some qc
            /\ message_joint_vals s' !! i
               = Some (w s' * qik + (1 - w s') * qc))
    /\ fst (within_limits whole (message_joint_vals s')) = Normal ok
    /\ trace s'
       = trace s
         ++ CartToJnt_call q goal
            :: (if ok then [] else [shutdown_call])
            ++ [controller_publish
                  {| joint_names := panda_joint_names;
                     points :=
                       [{| positions := message_joint_vals s';
                           time_from_start :=
                             {| sec := 0; nanosec := 100000000 |} |}] |}].
Proof.
  intros Hctl Hret s' q o. subst s'. unfold returns in Hret.
  rewrite (tick_enabled s Hctl) in Hret |- *.
  fold (returns (get_robot_control
                   (Double.of_int (count s) / Double.of_int control_freq)
                   robot_offset_;;
                 fuse_axis 0 ax;; fuse_axis 1 ay;; fuse_axis 2 az;;
                 solve_and_publish) s) in Hret.
  apply (step_frame before_ik) in Hret as (u0 & s0 & -> & Hret & F0);
    [|solve [frame_node]].
  apply (step_frame before_ik) in Hret as (u1 & s1 & -> & Hret & F1);
    [|solve [frame_node]].
  apply (step_frame before_ik) in Hret as (u2 & s2 & -> & Hret & F2);
    [|solve [frame_node]].
  apply (step_frame before_ik) in Hret as (u3 & s3 & -> & Hret & F3);
    [|solve [frame_node]].
  assert (before_ik s3 = before_ik s) as F by congruence.
  clear F0 F1 F2 F3 u0 u1 u2 u3 s0 s1 s2. injection F as Ft Fc Fo Fg Fi.
  (* the IK call *)
  apply bind_returns in Hret as (u4 & s4 & E4 & -> & Hret).
  apply compute_ik_inv in E4
    as (px & py & pz & Hx & Hy & Hz & Hcur & Hsol & Hik & E4).
  rewrite Ft, Fc, Fo, Fg, Fi in *. fold q in Hsol, E4, Hcur. fold o in Hsol, E4.
  (* the ramp and the blend *)
  apply (step_frame after_ik) in Hret as (u5 & s5 & -> & Hret & F5);
    [|solve [frame_node]].
  apply bind_returns in Hret as (u6 & s6 & E6 & -> & Hret).
  assert (after_ik s6 = after_ik s5 /\ w s6 = w s5) as [F6 Fw].
  { replace s6 with (snd (for_each (seq 0 n_joints) blend_joint s5))
      by (rewrite E6; reflexivity).
    assert (preserves (S := State) after_ik
              (for_each (seq 0 n_joints) blend_joint)) as P1 by frame_node.
    assert (preserves (S := State) w
              (for_each (seq 0 n_joints) blend_joint)) as P2 by frame_node.
    split; [apply P1 | apply P2]. }
  pose proof (blend_loop_inv _ (NoDup_seq 0 n_joints) _ _ _ E6) as Hblend.
  assert (after_ik s6 = after_ik s4) as F by congruence.
  injection F6 as _ _ _ _ Fi6 Fc6. clear F5. injection F as Ft' Fp' Fo' Fg' Fi' Fc'.
  subst s4.
  cbn [trace tcp_pos orientation got_orientation ik_joint_vals
       curr_joint_vals set_ik_joint_vals set_trace set_got_orientation
       set_orientation] in Ft', Fp', Fo', Fg', Fi', Fc'.
  (* the limit check and the message *)
  assert (within_limits message_joint_vals_ s6
          = (fst (within_limits whole (message_joint_vals s6)), s6)) as Hwl
      by apply within_limits_from_ref.
  destruct (fst (within_limits whole (message_joint_vals s6)))
    as [ok|e] eqn:Hw.
  2:{ destruct Hret as [a Ha].
      rewrite (bind_throw _ _ _ _ _ Hwl) in Ha. discriminate Ha. }
  assert (check_and_publish s6
          = (Normal tt,
             set_trace
               (trace s6 ++ (if ok then [] else [shutdown_call])
                ++ [controller_publish
                      {| joint_names := panda_joint_names;
                         points :=
                           [{| positions := message_joint_vals s6;
                               time_from_start :=
                                 {| sec := 0; nanosec := 100000000 |} |}] |}])
               s6)) as ->.
  { rewrite (bind_normal _ _ _ _ _ Hwl).
    unfold trajectory_point, emit, mbind, M_bind, gets, modify.
    rewrite latency_nanosec_value. destruct ok; cbn.
    - reflexivity.
    - rewrite <- app_assoc. reflexivity. }
  cbn [snd trace tcp_pos orientation got_orientation ik_joint_vals
       curr_joint_vals message_joint_vals w set_trace].
  exists px, py, pz, ok. cbv zeta.
  rewrite Fp', Fo', Fg', Fi', Ft', Hw.
  repeat (split; [first [assumption | reflexivity]|]).
  split.
  - intros i Hi.
    destruct (proj1 (Hblend i)) as (qik & qc & Hqik & Hqc & Hm);
      [apply elem_of_seq; lia|].
    exists qik, qc. rewrite <- Fi', Fi6, <- Fc, <- Fc', Fc6, Fw.
    repeat split; assumption.
  - split; [reflexivity|]. rewrite <- app_assoc. reflexivity.
Qed.
(** X8: what a tick that returns sends out.  It makes exactly one call of
    the inverse kinematics, starting from the first seven current joint
    values and aiming at the fused target with the stored orientation
    (captured from those joints if none was stored); it keeps the first
    seven joints of the answer in [ik_joint_vals]; it calls shutdown if
    and only if the blended vector fails the limit check; and it
    publishes exactly one trajectory message, last, for the seven panda
    joints, with one point that holds the blended vector. *)
Theorem returning_tick_events (s : State) :
  control s = true ->
  returns tick s ->
  let s' := snd (tick s) in
  let q := take n_joints (curr_joint_vals s) in
  exists px py pz ok,
    let goal := {| Frame_M := orientation s'; Frame_p := (px, py, pz) |} in
    tcp_pos s' !! 0%nat = Some px /\ tcp_pos s' !! 1%nat = Some py
    /\ tcp_pos s' !! 2%nat = Some pz
    /\ orientation s'
       = (if got_orientation s then orientation s else JntToCart_M q)
    /\ ik_joint_vals s'
       = take n_joints (CartToJnt q goal) ++ drop n_joints (ik_joint_vals s)
    /\ fst (within_limits whole (message_joint_vals s')) = Normal ok
    /\ new_events s s'
       = CartToJnt_call q goal
         :: (if ok then [] else [shutdown_call])
         ++ [controller_publish
               {| joint_names := panda_joint_names;
                  points :=
                    [{| positions := message_joint_vals s';
                        time_from_start :=
                          {| sec := 0; nanosec := 100000000 |} |}] |}].
Proof.
  intros Hctl Hret s' q.
  destruct (tick_returns_inv s Hctl Hret)
    as (px & py & pz & ok & Hx & Hy & Hz & _ & _ & Ho & _ & Hik & _
        & Hok & Htr).
  fold s' in Hx, Hy, Hz, Ho, Hik, Hok, Htr. fold q in Ho, Hik, Htr.
  exists px, py, pz, ok. cbv zeta. rewrite Ho.
  repeat (split; [assumption || reflexivity|]).
  unfold new_events. rewrite Htr. apply drop_app_length.
Qed.

(** X9: the setpoint of a tick that returns is, joint by joint, the convex
    combination [w * ik + (1 - w) * current] of the IK result and the
    current joint value, with [w] the weight of the ramp after this tick's
    advance.  Once the ramp has reached its ceiling the setpoint is the IK
    result itself, provided the current joint value is a finite number. *)
Theorem setpoint_is_the_blend (s : State) (i : nat) :
  control s = true ->
  returns tick s ->
  (i < n_joints)%nat ->
  let s' := snd (tick s) in
  exists qik qc m,
    ik_joint_vals s' !! i = Some qik
    /\ curr_joint_vals s !! i = Some qc
    /\ message_joint_vals s' !! i = Some m
    /\ m = w s' * qik + (1 - w s') * qc
    /\ (count s' = max_count -> Double.finite qc = true ->
        Double.same_number m qik).
Proof.
  intros Hctl Hret Hi s'.
  destruct (tick_returns_inv s Hctl Hret)
    as (px & py & pz & ok & _ & _ & _ & _ & _ & _ & _ & _ & Hblend & _).
  destruct (Hblend i Hi) as (qik & qc & Hqik & Hqc & Hm).
  fold s' in Hqik, Hm.
  exists qik, qc, (w s' * qik + (1 - w s') * qc).
  repeat (split; [assumption || reflexivity|]).
  intros Hc Hf.
  destruct (tick_advances_ramp s Hctl Hret) as [_ Hw]. fold s' in Hw.
  rewrite Hw, Hc.
  change (Double.of_int max_count / Double.of_int max_count) with 1.
  rewrite mul_1_l. change (1 - 1) with 0.
  apply add_zero_r, mul_0_finite, Hf.
Qed.


(** *** When the callbacks return *)

Lemma enough_room_sizes (s s' : State) :
  vector_sizes s' = vector_sizes s -> enough_room s -> enough_room s'.
Proof.
  unfold vector_sizes, enough_room.
  intros [= -> -> -> -> -> -> ->] H. exact H.
Qed.

(** [m] returns from every state with enough room. *)
Abbreviation roomy m := (forall s : State, enough_room s -> returns m s).

Lemma roomy_bind {A B} (m : M State A) (k : A -> M State B) :
  preserves vector_sizes m -> roomy m -> (forall a, roomy (k a)) ->
  roomy (m ≫= k).
Proof.
  intros Hs Hm Hk s Hroom. destruct (Hm s Hroom) as [a Ha].
  pose proof (Hs s) as Hsz. unfold returns, mbind, M_bind.
  destruct (m s) as [[a'|e] s1]; [|discriminate Ha].
  apply Hk. exact (enough_room_sizes _ _ Hsz Hroom).
Qed.

Lemma returns_at {A} (v : ref State (list A)) i s :
  (i < length (view v s))%nat -> returns (at_ v i) s.
Proof.
  intros Hi. destruct (lookup_lt_is_Some_2 _ _ Hi) as [x Hx].
  exists x. unfold at_. rewrite Hx. reflexivity.
Qed.

Lemma returns_assign_at {A} (v : ref State (list A)) i x s :
  (i < length (view v s))%nat -> returns (assign_at v i x) s.
Proof.
  intros Hi. exists tt. unfold assign_at.
  apply Nat.ltb_lt in Hi. rewrite Hi. reflexivity.
Qed.

Ltac room_index :=
  let s := fresh "s" in
  let H := fresh "H" in
  intros s H; unfold enough_room, n_joints in H;
  first [apply returns_at | apply returns_assign_at];
  cbn [view tcp_pos_ origin_ human_offset_ robot_offset_ curr_joint_vals_
       ik_joint_vals_ message_joint_vals_];
  lia.

Ltac room_step solver :=
  lazymatch goal with
  | |- roomy (mret _) => intros ? _; eexists; reflexivity
  | |- roomy (gets _) => intros ? _; eexists; reflexivity
  | |- roomy (modify _) => intros ? _; eexists; reflexivity
  | |- roomy (emit _) => intros ? _; eexists; reflexivity
  | |- roomy (lift (const_at _ _)) => intros ? _; eexists; reflexivity
  | |- roomy (at_ _ _) => room_index
  | |- roomy (assign_at _ _ _) => room_index
  | |- roomy (_ ≫= _) => apply roomy_bind; [solve [frame_sizes] | | intros ?]
  | |- roomy (if ?b then _ else _) => destruct b
  | |- roomy (match ?l !! ?i with _ => _ end) =>
      let v := fresh "v" in
      let E := fresh "E" in
      destruct (lookup_lt_is_Some_2 l i) as [v E];
      [solver | rewrite E]
  end.

Lemma returns_lift_const_at {A} (c : list A) i (s : State) :
  (i < length c)%nat -> returns (lift (const_at c i)) s.
Proof.
  intros Hi. destruct (lookup_lt_is_Some_2 _ _ Hi) as [x Hx].
  exists x. unfold lift, const_at. rewrite Hx. reflexivity.
Qed.

Lemma roomy_for_each_in {K} (idx : list K) (body : K -> M State unit) :
  (forall i, preserves vector_sizes (body i)) ->
  (forall i, In i idx -> roomy (body i)) ->
  roomy (for_each idx body).
Proof.
  intros Hs. induction idx as [|i idx IH]; intros H; cbn [for_each].
  - intros s _. exists tt. reflexivity.
  - apply roomy_bind; [apply Hs | apply H; left; reflexivity | intros _].
    apply IH. intros j Hj. apply H. right. exact Hj.
Qed.

Lemma roomy_tcp_pos_publisher : roomy tcp_pos_publisher.
Proof. unfold tcp_pos_publisher. repeat room_step idtac. Qed.

Lemma roomy_falcon_pos_callback msg : roomy (falcon_pos_callback msg).
Proof. unfold falcon_pos_callback. repeat room_step idtac. Qed.

Lemma roomy_joint_states_callback msg :
  (n_joints <= length (position msg))%nat ->
  roomy (joint_states_callback msg).
Proof.
  intros Hmsg. unfold joint_states_callback.
  cbn [for_each seq n_joints].
  repeat first
    [ intros s _; apply returns_lift_const_at; unfold n_joints in Hmsg; lia
    | room_step idtac ].
Qed.

(** A tick that returns had room for its indices. *)
Lemma tick_returns_room (s : State) :
  control s = true -> returns tick s -> enough_room s.
Proof.
  intros Hctl Hret.
  assert (preserves (S := State) vector_sizes tick) as Hsz by frame_sizes.
  specialize (Hsz s).
  destruct (tick_returns_inv s Hctl Hret)
    as (px & py & pz & ok & _ & _ & Hz & Hcur & _ & _ & _ & _ & Hblend & _).
  destruct (Hblend 6%nat ltac:(unfold n_joints; lia))
    as (qik & qc & Hqik & _ & Hm).
  unfold returns in Hret. rewrite (tick_enabled s Hctl) in Hret, Hz, Hqik, Hm, Hsz.
  apply fusion_block_returns in Hret as (s4 & Heq & _ & Hrob & Htcp).
  rewrite Heq in Hz, Hqik, Hm, Hsz.
  assert (preserves (S := State) robot_offset solve_and_publish) as Prob
      by frame_node.
  specialize (Hrob 6%nat ltac:(unfold n_joints; lia)).
  rewrite <- Prob in Hrob.
  destruct (Htcp 2%nat ltac:(lia)) as (o2 & h2 & Ho & Hh & _).
  apply lookup_lt_Some in Hz, Hqik, Hm, Hrob, Ho, Hh.
  set (s' := snd (solve_and_publish s4)) in *. clearbody s'.
  unfold vector_sizes in Hsz. injection Hsz as S1 S2 S3 S4 S5 S6 S7.
  unfold enough_room, n_joints in *. lia.
Qed.

Lemma roomy_trajectory_point : roomy trajectory_point.
Proof.
  intros s _. unfold trajectory_point, mbind, M_bind, gets.
  rewrite latency_nanosec_value. eexists. reflexivity.
Qed.

Lemma roomy_within_limits : roomy (within_limits message_joint_vals_).
Proof.
  intros s (_ & _ & _ & _ & _ & _ & Hm).
  unfold returns, within_limits. rewrite within_limits_from_ref.
  rewrite within_limits_from_eval; [eexists; reflexivity|].
  intros i Hi. apply elem_of_seq in Hi. cbn [view message_joint_vals_].
  lia.
Qed.

Section Solver.

(** The solver answers with a joint array of the size of the chain. *)
Hypothesis solver_answer :
  forall q goal, (n_joints <= length (CartToJnt q goal))%nat.

Ltac solver_index :=
  idtac;
  match goal with
  | |- (_ < length (CartToJnt ?q ?g))%nat =>
      pose proof (solver_answer q g); unfold n_joints in *; lia
  end.

Lemma roomy_tick : roomy tick.
Proof.
  unfold controller_publisher, get_robot_control, fuse_axis, compute_ik,
    advance_ramp, blend_joint.
  cbn [for_each collect seq n_joints].
  repeat first
    [ apply roomy_trajectory_point
    | apply roomy_within_limits
    | room_step solver_index ].
Qed.

(** X10: when the control is enabled, a tick returns if and only if the
    vectors of the node have room for its indices (three Cartesian axes,
    seven joints, and seven entries of [robot_offset]); otherwise it
    throws.  The solver is taken to answer with at least seven joints. *)
Theorem enabled_tick_returns_iff_room (s : State) :
  control s = true ->
  (returns tick s <-> enough_room s).
Proof.
  intros Hctl. split; [apply tick_returns_room, Hctl | apply roomy_tick].
Qed.

(** X11: a node whose vectors have room runs without an exception: from
    such a state, every run of timer ticks, haptic messages and
    joint-state messages of at least seven positions returns, and ends in
    a state that has room again. *)
Theorem spin_returns_with_room (arrivals : list callback) (s : State) :
  enough_room s ->
  Forall carries_arm_joints arrivals ->
  returns (spin JntToCart_M CartToJnt arrivals) s
  /\ enough_room (snd (spin JntToCart_M CartToJnt arrivals s)).
Proof.
  intros Hroom Hmsg. split.
  - revert s Hroom. apply roomy_for_each_in.
    + intros c. destruct c; cbn [dispatch]; frame_sizes.
    + intros c Hc. rewrite List.Forall_forall in Hmsg.
      specialize (Hmsg c Hc). destruct c as [| |msg|msg]; cbn [dispatch].
      * apply roomy_tick.
      * apply roomy_tcp_pos_publisher.
      * apply roomy_joint_states_callback, Hmsg.
      * apply roomy_falcon_pos_callback.
  - assert (preserves (S := State) vector_sizes
              (spin JntToCart_M CartToJnt arrivals)) as Hsz.
    { apply preserves_for_each. intros c.
      destruct c; cbn [dispatch]; frame_sizes. }
    exact (enough_room_sizes _ _ (Hsz s) Hroom).
Qed.

End Solver.


(** *** The ramp over runs of the node *)

Lemma ascending_lookup (l : list float) (i j : nat) (x y : float) :
  ascending l = true -> (i <= j)%nat ->
  l !! i = Some x -> l !! j = Some y -> (x <=? y) = true.
Proof.
  revert i j. induction l as [|a l IH]; intros i j Hl Hij Hx Hy;
    [discriminate Hx|].
  cbn [ascending] in Hl. apply andb_prop in Hl as [Ha Hl].
  destruct i as [|i].
  - injection Hx as <-. rewrite forallb_forall in Ha.
    apply Ha. apply list_elem_of_In. exact (list_elem_of_lookup_2 _ _ _ Hy).
  - destruct j as [|j]; [lia|].
    apply (IH i j); [exact Hl | lia | exact Hx | exact Hy].
Qed.

Lemma ramp_weight_mono (c c' : Z) :
  (0 <= c <= c')%Z -> (c' <= max_count)%Z ->
  (Double.of_int c / Double.of_int max_count
   <=? Double.of_int c' / Double.of_int max_count) = true.
Proof.
  intros Hc Hc'.
  set (weight := fun k : nat =>
         Double.of_int (Z.of_nat k) / Double.of_int max_count).
  assert (ascending (weight <$> seq 0 201) = true) as H
      by (vm_compute; reflexivity).
  assert (forall k, (0 <= k <= max_count)%Z ->
            (weight <$> seq 0 201) !! Z.to_nat k
            = Some (Double.of_int k / Double.of_int max_count)) as Hk.
  { intros k Hk. rewrite list_lookup_fmap, lookup_seq_lt
      by (unfold max_count, control_freq in Hk; lia).
    cbn. unfold weight. rewrite Z2Nat.id by lia. reflexivity. }
  apply (ascending_lookup _ (Z.to_nat c) (Z.to_nat c') _ _ H);
    [lia | apply Hk; lia | apply Hk; lia].
Qed.

Lemma spin_keeps_ramp (c0 : Z) (arrivals : list callback) :
  keeps (fun x => (c0 <= count x)%Z /\ ramp_consistent x) (fun _ => True)
        (spin JntToCart_M CartToJnt arrivals).
Proof.
  assert (forall A (m : M State A),
            preserves count m -> preserves w m ->
            forall x, (c0 <= count x)%Z /\ ramp_consistent x ->
                      (c0 <= count (snd (m x)))%Z
                      /\ ramp_consistent (snd (m x))) as Hframe.
  { intros A m Pc Pw x Ix. unfold ramp_consistent. rewrite Pc, Pw. exact Ix. }
  apply keeps_for_each. intros c.
  destruct c; cbn [dispatch];
    unfold controller_publisher, compute_ik, tcp_pos_publisher,
      joint_states_callback, falcon_pos_callback;
    repeat first
      [ match goal with
        | |- keeps _ _ advance_ramp =>
            apply keeps_frame; [|unfold advance_ramp; frame];
            intros x [Hc0 [Hr Hw]]; unfold ramp_consistent;
            rewrite advance_ramp_w, advance_ramp_count;
            destruct (count x <? max_count)%Z eqn:E;
            [apply Z.ltb_lt in E; repeat split; lia
            |repeat split; lia]
        end
      | apply keeps_emit; [exact Logic.I | intros ? ? Hs; exact Hs]
      | apply keeps_bind; [| intros ?]
      | match goal with
        | |- keeps _ _ (if ?b then _ else _) => destruct b
        | |- keeps _ _ (match ?x with _ => _ end) => destruct x
        end
      | apply keeps_frame; [apply Hframe; solve [frame_node]
                           | solve [frame_node]] ].
Qed.

(** X12: the ramp over any run of callbacks, whatever its outcome: from a
    state in which the counter is within [0, max_count] and the weight is
    the counter divided by [max_count] (the initial state is one), the
    same holds afterwards; the counter and the weight have not decreased,
    and the weight is at most 1. *)
Theorem ramp_consistent_over_runs (arrivals : list callback) (s : State) :
  ramp_consistent s ->
  let s' := snd (spin JntToCart_M CartToJnt arrivals s) in
  ramp_consistent s'
  /\ (count s <= count s')%Z
  /\ (w s <=? w s') = true
  /\ (w s' <=? 1) = true.
Proof.
  intros Hs s'.
  destruct (spin_keeps_ramp (count s) arrivals s) as [[Hc Hr] _];
    [split; [lia | exact Hs]|].
  fold s' in Hc, Hr. split; [exact Hr|]. split; [exact Hc|].
  destruct Hs as [Hs Hw]. destruct Hr as [Hs' Hw'].
  rewrite Hw, Hw'. split.
  - apply ramp_weight_mono; lia.
  - apply ramp_weight_le_one. lia.
Qed.


(** *** The ramp across successive ticks *)

Lemma spin_app (l1 l2 : list callback) (s : State) :
  spin JntToCart_M CartToJnt (l1 ++ l2) s
  = (spin JntToCart_M CartToJnt l1;; spin JntToCart_M CartToJnt l2) s.
Proof.
  unfold spin. revert s. induction l1 as [|c l1 IH]; intros s;
    [reflexivity|].
  cbn [app for_each]. unfold mbind, M_bind in *.
  destruct (dispatch JntToCart_M CartToJnt c s) as [[u|e] s1];
    [apply IH | reflexivity].
Qed.

(** A run of an enabled node that returns advances the ramp once per
    controller tick, and in no other callback. *)
Lemma run_advances_ramp (arrivals : list callback) :
  forall s : State,
    control s = true -> ramp_consistent s ->
    returns (spin JntToCart_M CartToJnt arrivals) s ->
    let s' := snd (spin JntToCart_M CartToJnt arrivals s) in
    control s' = true
    /\ count s'
       = Z.min (count s + Z.of_nat (count_if is_tick arrivals)) max_count
    /\ ramp_consistent s'.
Proof.
  induction arrivals as [|c arrivals IH]; intros s Hctl Hs Hret s'.
  - subst s'. cbn. destruct Hs as [Hr Hw].
    split; [exact Hctl|]. split; [lia | split; assumption].
  - subst s'. unfold spin in *. cbn [for_each] in *.
    apply bind_returns in Hret as (u & s1 & E & -> & Hret).
    assert (control s1 = true
            /\ count s1 = (if is_tick c
                           then Z.min (count s + 1) max_count
                           else count s)
            /\ ramp_consistent s1) as (Hctl1 & Hc1 & Hs1).
    { replace s1 with (snd (dispatch JntToCart_M CartToJnt c s))
        by (rewrite E; reflexivity).
      assert (forall m : M State unit,
                preserves count m -> preserves w m ->
                count (snd (m s)) = count s
                /\ ramp_consistent (snd (m s))) as Hframe.
      { intros m P2 P3. unfold ramp_consistent.
        rewrite P2, P3. split; [reflexivity | exact Hs]. }
      destruct c as [| |msg|msg]; cbn [dispatch is_tick] in *.
      - assert (returns tick s) as Ht by (exists u; rewrite E; reflexivity).
        destruct (tick_advances_ramp s Hctl Ht) as [Hc Hw].
        assert (preserves (S := State) control tick) as Pc by frame_node.
        destruct Hs as [Hr _]. unfold ramp_consistent.
        rewrite Pc, Hw, Hc.
        destruct (count s <? max_count)%Z eqn:Hlt;
          [apply Z.ltb_lt in Hlt | apply Z.ltb_ge in Hlt];
          repeat split; try assumption; lia.
      - assert (preserves (S := State) control tcp_pos_publisher) as Pc
            by frame_node.
        split; [rewrite Pc; exact Hctl | apply Hframe; frame_node].
      - split; [apply joint_states_keeps_control, Hctl
               | apply Hframe; frame_node].
      - assert (preserves (S := State) control (falcon_pos_callback msg))
          as Pc by frame_node.
        split; [rewrite Pc; exact Hctl | apply Hframe; frame_node]. }
    destruct (IH s1 Hctl1 Hs1 Hret) as (Hctl' & Hc' & Hs').
    split; [exact Hctl'|]. split; [|exact Hs'].
    rewrite Hc', Hc1.
    change (count_if is_tick (c :: arrivals))
      with (length (if is_tick c then c :: List.filter is_tick arrivals
                    else List.filter is_tick arrivals)).
    destruct Hs as [Hr _].
    destruct (is_tick c); cbn [length]; fold (count_if is_tick arrivals);
      lia.
Qed.

(** C4: the smoothing ramp across successive ticks.  In a run of an
    enabled node that starts with the counter and the weight at their
    initial value 0 and whose callbacks return, after [n] controller
    ticks (other callbacks in between do not count) the counter is
    [min n max_count] and the weight is that counter divided by
    [max_count]; the weight does not decrease when the run goes on; it
    is exactly 1 once the counter has reached [max_count] and never
    above 1; with [max_count = 200] it is 0.5 after 100 ticks and 1.0
    after 200 ticks and after any more. *)
Theorem smoothing_ramp_weight (arrivals more : list callback) (s : State) :
  control s = true -> count s = 0%Z -> w s = 0 ->
  returns (spin JntToCart_M CartToJnt (arrivals ++ more)) s ->
  let n := count_if is_tick arrivals in
  let s' := snd (spin JntToCart_M CartToJnt arrivals s) in
  let s'' := snd (spin JntToCart_M CartToJnt (arrivals ++ more) s) in
  count s' = Z.min (Z.of_nat n) max_count
  /\ w s' = Double.of_int (Z.min (Z.of_nat n) max_count)
            / Double.of_int max_count
  /\ (w s' <=? w s'') = true
  /\ (count s' = max_count -> w s' = 1)
  /\ (w s' <=? 1) = true
  /\ max_count = 200%Z
  /\ (n = 100%nat -> w s' = 0.5)
  /\ ((200 <= n)%nat -> w s' = 1).
Proof.
  intros Hctl Hc Hw Hret n s' s''. subst s' s''.
  assert (ramp_consistent s) as Hs.
  { split; [rewrite Hc; vm_compute; split; discriminate|].
    rewrite Hw, Hc. reflexivity. }
  unfold returns in Hret. rewrite spin_app in Hret |- *.
  fold (returns (spin JntToCart_M CartToJnt arrivals;;
                 spin JntToCart_M CartToJnt more) s) in Hret.
  apply bind_returns in Hret as (u & s1 & E & -> & Hret).
  rewrite E. cbn [snd].
  assert (returns (spin JntToCart_M CartToJnt arrivals) s) as Hret1
      by (exists u; rewrite E; reflexivity).
  destruct (run_advances_ramp arrivals s Hctl Hs Hret1)
    as (Hctl1 & Hc1 & Hs1).
  rewrite E in Hctl1, Hc1, Hs1. cbn [snd] in Hctl1, Hc1, Hs1.
  destruct (run_advances_ramp more s1 Hctl1 Hs1 Hret)
    as (_ & Hc2 & Hs2).
  rewrite Hc, Z.add_0_l in Hc1. fold n in Hc1.
  destruct Hs1 as [Hr1 Hw1]. destruct Hs2 as [Hr2 Hw2].
  assert (w s1 = Double.of_int (Z.min (Z.of_nat n) max_count)
                 / Double.of_int max_count) as Hw1'
      by (rewrite Hw1, Hc1; reflexivity).
  split; [exact Hc1|]. split; [exact Hw1'|].
  split; [|split; [|split; [|split; [reflexivity|split]]]].
  - rewrite Hw1, Hw2. apply ramp_weight_mono; lia.
  - intros Hmax. rewrite Hw1, Hmax. reflexivity.
  - rewrite Hw1. apply ramp_weight_le_one. exact Hr1.
  - intros Hn. rewrite Hw1', Hn. reflexivity.
  - intros Hn. rewrite Hw1'.
    rewrite Z.min_r by (unfold max_count, control_freq; lia).
    reflexivity.
Qed.

(** *** The helpers on vectors of other sizes *)

(** X13: the autonomous trajectory on a vector of any size: it writes the
    elapsed time to the first seven entries, or to all of them when there
    are fewer, leaves the entries after the seventh alone, and returns
    exactly when there are at least seven; otherwise it throws
    [out_of_range] after its writes. *)
Theorem get_robot_control_any_size (t : float) (vals : list float) :
  get_robot_control t whole vals
  = (if (n_joints <=? length vals)%nat then Normal tt
     else Throw out_of_range,
     replicate (min n_joints (length vals)) t ++ drop n_joints vals).
Proof.
  do 7 (destruct vals as [|? vals]; [reflexivity|]). reflexivity.
Qed.

Lemma within_limits_from_pure (idx : list nat) :
  preserves (fun v : list float => v) (within_limits_from whole idx).
Proof.
  induction idx as [|i idx IH]; cbn [within_limits_from]; frame. exact IH.
Qed.

(** X14: the limit check on a vector of any size.  It never changes the
    vector.  It reads the first seven entries only: on seven entries
    followed by more it answers as on the seven.  On fewer than seven
    entries it never answers true: it answers false if one of the entries
    present is outside its limits, and throws [out_of_range] if they are
    all inside. *)
Theorem within_limits_any_size (v extra : list float) :
  snd (within_limits whole v) = v
  /\ (length v = n_joints ->
      fst (within_limits whole (v ++ extra)) = fst (within_limits whole v))
  /\ ((length v < n_joints)%nat ->
      fst (within_limits whole v)
      = if forallb (not_outside v) (seq 0 (length v))
        then Throw out_of_range else Normal false).
Proof.
  split; [apply (within_limits_from_pure (seq 0 n_joints) v)|]. split.
  - intros Hlen.
    destruct v as [|a0 [|a1 [|a2 [|a3 [|a4 [|a5 [|a6 [|a7 v]]]]]]]];
      try discriminate Hlen.
    unfold within_limits. rewrite !within_limits_from_eval.
    + reflexivity.
    + intros i Hi. apply elem_of_seq in Hi. cbn. unfold n_joints in *. lia.
    + intros i Hi. apply elem_of_seq in Hi. rewrite length_app. cbn.
      unfold n_joints in *. lia.
  - intros Hlen.
    destruct v as [|a0 [|a1 [|a2 [|a3 [|a4 [|a5 [|a6 v]]]]]]];
      cbn [length] in Hlen; try (unfold n_joints in Hlen; lia); clear Hlen;
      vm_compute;
      repeat (match goal with
              | |- context [PrimFloat.ltb ?a ?b] =>
                  destruct (PrimFloat.ltb a b)
              end; cbv iota);
      reflexivity.
Qed.

(** *** Calls of the IK service that fail *)

(** X15: how a call of the IK service in a tick fails.  With fewer than
    seven current joint values it throws [out_of_range] and changes
    nothing.  With seven of them but a target of fewer than three entries
    it throws [out_of_range] as well, without calling the solver, but a
    first call has by then captured the orientation: the flag is set and
    the orientation of the current joints is stored, although the call
    failed. *)
Theorem failed_ik_call (s : State) :
  let r := compute_ik JntToCart_M CartToJnt tcp_pos_ curr_joint_vals_
                      ik_joint_vals_ s in
  ((length (curr_joint_vals s) < n_joints)%nat ->
   r = (Throw out_of_range, s))
  /\ ((n_joints <= length (curr_joint_vals s))%nat ->
      (length (tcp_pos s) < 3)%nat ->
      fst r = Throw out_of_range
      /\ snd r
         = set_got_orientation true
             (set_orientation
                (if got_orientation s then orientation s
                 else JntToCart_M (take n_joints (curr_joint_vals s))) s)).
Proof.
  destruct s as [ori got tcp org hum rob cur ik mes ctl cnt wt a1 a2 a3 tr].
  cbn [curr_joint_vals tcp_pos got_orientation orientation]. unfold n_joints.
  split.
  - intros Hlen.
    destruct cur as [|c0 [|c1 [|c2 [|c3 [|c4 [|c5 [|c6 cur]]]]]]];
      cbn [length] in Hlen; try lia; reflexivity.
  - intros Hcur Htcp.
    do 7 (destruct cur as [|? cur]; [cbn in Hcur; lia|]).
    destruct tcp as [|p0 [|p1 [|p2 tcp]]]; cbn [length] in Htcp; try lia;
      destruct got; split; reflexivity.
Qed.


(** *** Setpoints and the limits *)

(** X22: a setpoint that goes out without a shutdown request is within the
    limits: in a tick that returns and does not call shutdown, every one
    of the seven published joint values that is a number lies in the
    closed interval of its joint (a NaN goes through unnoticed). *)
Theorem quiet_tick_is_within_limits (s : State) (i : nat) :
  control s = true ->
  returns tick s ->
  (i < n_joints)%nat ->
  let s' := snd (tick s) in
  ~ In shutdown_call (new_events s s') ->
  exists v,
    message_joint_vals s' !! i = Some v
    /\ (Double.not_nan v = true ->
        in_closed_interval (message_joint_vals s') i = true).
Proof.
  intros Hctl Hret Hi s' Hquiet.
  destruct (tick_returns_inv s Hctl Hret)
    as (px & py & pz & ok & _ & _ & _ & _ & _ & _ & _ & _ & Hblend
        & Hok & Htr).
  fold s' in Hblend, Hok, Htr.
  assert (ok = true) as ->.
  { destruct ok; [reflexivity|]. exfalso. apply Hquiet.
    unfold new_events. rewrite Htr, drop_app_length.
    right. left. reflexivity. }
  destruct (Hblend 6%nat ltac:(unfold n_joints; lia))
    as (q6 & c6 & _ & _ & H6).
  apply lookup_lt_Some in H6.
  unfold within_limits in Hok. rewrite within_limits_from_eval in Hok.
  2:{ intros j Hj. apply elem_of_seq in Hj. unfold n_joints in *. lia. }
  assert (forallb (not_outside (message_joint_vals s')) (seq 0 n_joints)
          = true) as Hall by (cbn [fst] in Hok; congruence).
  clear Hok. rewrite forallb_forall in Hall.
  specialize (Hall i ltac:(apply in_seq; lia)).
  destruct (Hblend i Hi) as (qik & qc & _ & _ & Hm).
  eexists. split; [exact Hm|]. intros Hn.
  rewrite <- (not_outside_interval _ _ _ Hm Hn). exact Hall.
Qed.

(** *** From the messages to the setpoint *)

Lemma joint_states_callback_eval (msg : JointState) (s : State) :
  (n_joints <= length (position msg))%nat ->
  (n_joints <= length (curr_joint_vals s))%nat ->
  joint_states_callback msg s
  = (Normal tt,
     set_control true
       (set_curr_joint_vals
          (take n_joints (position msg)
           ++ drop n_joints (curr_joint_vals s)) s)).
Proof.
  destruct s as [ori got tcp org hum rob cur ik mes ctl cnt wt a1 a2 a3 tr].
  destruct msg as [data]. cbn [curr_joint_vals position].
  unfold n_joints. intros Hd Hc.
  do 7 (destruct data as [|? data]; [cbn in Hd; lia|]).
  do 7 (destruct cur as [|? cur]; [cbn in Hc; lia|]).
  destruct ctl; reflexivity.
Qed.

Lemma falcon_pos_callback_eval (msg : Falconpos) (s : State) :
  (3 <= length (human_offset s))%nat ->
  falcon_pos_callback msg s
  = (Normal tt,
     set_human_offset
       ([x msg / 100 * mapping_ratio; y msg / 100 * mapping_ratio;
         z msg / 100 * mapping_ratio] ++ drop 3 (human_offset s)) s).
Proof.
  destruct s as [ori got tcp org hum rob cur ik mes ctl cnt wt a1 a2 a3 tr].
  cbn [human_offset]. intros Hh.
  do 3 (destruct hum as [|? hum]; [cbn in Hh; lia|]).
  reflexivity.
Qed.

Section Pipeline.

Hypothesis solver_answer :
  forall q goal, (n_joints <= length (CartToJnt q goal))%nat.

(** X23: the latest messages drive the next tick.  From a state with
    room, after a joint-state message of at least seven positions and a
    haptic message, the controller tick returns; its one call of the
    inverse kinematics starts from the first seven positions of the
    joint-state message and aims at
    [origin + weight * (haptic / 100 * mapping_ratio) + (1 - weight) * t]
    on each axis; a shutdown request follows if and only if the limit
    check answers false on the blended vector; the trajectory message
    with that vector is the last event. *)
Theorem latest_messages_drive_the_tick
        (s : State) (joints : JointState) (haptic : Falconpos) :
  enough_room s ->
  (n_joints <= length (position joints))%nat ->
  let r := spin JntToCart_M CartToJnt
             [joint_states_message joints;
              falcon_position_message haptic; controller_timer] s in
  let s' := snd r in
  let t := Double.of_int (count s) / Double.of_int control_freq in
  exists (o0 o1 o2 : float) (ok : bool),
    origin s !! 0%nat = Some o0 /\ origin s !! 1%nat = Some o1
    /\ origin s !! 2%nat = Some o2
    /\ fst r = Normal tt
    /\ fst (within_limits whole (message_joint_vals s')) = Normal ok
    /\ new_events s s'
       = CartToJnt_call (take n_joints (position joints))
           {| Frame_M := orientation s';
              Frame_p :=
                (o0 + ax s * (x haptic / 100 * mapping_ratio)
                 + (1 - ax s) * t,
                 o1 + ay s * (y haptic / 100 * mapping_ratio)
                 + (1 - ay s) * t,
                 o2 + az s * (z haptic / 100 * mapping_ratio)
                 + (1 - az s) * t) |}
         :: (if ok then [] else [shutdown_call])
         ++ [controller_publish
               {| joint_names := panda_joint_names;
                  points :=
                    [{| positions := message_joint_vals s';
                        time_from_start :=
                          {| sec := 0; nanosec := 100000000 |} |}] |}].
Proof.
  intros Hroom Hmsg r s' t. subst s' r.
  pose proof Hroom as (Htcp & Horg & Hhum & Hrob & Hcur & Hik & Hmes).
  unfold spin. cbn [for_each dispatch].
  rewrite (bind_normal _ _ _ _ _
             (joint_states_callback_eval joints s Hmsg Hcur)).
  set (s1 := set_control true _).
  rewrite (bind_normal _ _ _ _ _
             (falcon_pos_callback_eval haptic s1 Hhum)).
  set (s2 := set_human_offset _ s1).
  assert (enough_room s2) as Hroom2.
  { unfold enough_room, n_joints in *. subst s2 s1.
    cbn [tcp_pos origin human_offset robot_offset curr_joint_vals
         ik_joint_vals message_joint_vals set_human_offset set_control
         set_curr_joint_vals].
    rewrite !length_app, length_take, !length_drop. cbn [length]. lia. }
  assert (control s2 = true) as Hctl2 by reflexivity.
  pose proof (roomy_tick solver_answer s2 Hroom2) as Hret.
  destruct (tick_returns_inv s2 Hctl2 Hret)
    as (px & py & pz & ok & Hx & Hy & Hz & _ & _ & Ho & _ & _ & _ & Hok
        & Htr).
  pose proof Hret as Hret'. unfold returns in Hret'.
  rewrite (tick_enabled s2 Hctl2) in Hret', Hx, Hy, Hz.
  apply fusion_block_returns in Hret' as (s4 & Heq & _ & _ & Hfuse).
  rewrite Heq in Hx, Hy, Hz.
  assert (preserves (S := State) tcp_pos solve_and_publish) as Ptcp
      by frame_node.
  rewrite Ptcp in Hx, Hy, Hz.
  destruct (Hfuse 0%nat ltac:(lia)) as (o0 & h0 & O0 & H0 & T0).
  destruct (Hfuse 1%nat ltac:(lia)) as (o1 & h1 & O1 & H1 & T1).
  destruct (Hfuse 2%nat ltac:(lia)) as (o2 & h2 & O2 & H2 & T2).
  rewrite Hx in T0. rewrite Hy in T1. rewrite Hz in T2.
  injection T0 as ->. injection T1 as ->. injection T2 as ->.
  assert (h0 = x haptic / 100 * mapping_ratio
          /\ h1 = y haptic / 100 * mapping_ratio
          /\ h2 = z haptic / 100 * mapping_ratio) as (-> & -> & ->).
  { subst s2. cbn in H0, H1, H2. repeat split; congruence. }
  exists o0, o1, o2, ok.
  repeat (split; [assumption|]).
  destruct Hret as [u Hu].
  destruct (tick s2) as [[[]|e] s3] eqn:E; [|discriminate Hu].
  cbn [snd] in *. unfold mbind, M_bind. rewrite E. cbn [fst snd mret M_ret].
  split; [reflexivity|]. split; [exact Hok|].
  unfold new_events. change (trace s) with (trace s2).
  rewrite Htr, drop_app_length, Ho.
  f_equal. f_equal.
  subst s2 s1. cbn [curr_joint_vals set_human_offset set_control
                     set_curr_joint_vals].
  apply take_app_length'. rewrite length_take. unfold n_joints in *. lia.
Qed.

Lemma count_if_app {A} (p : A -> bool) (l1 l2 : list A) :
  count_if p (l1 ++ l2) = (count_if p l1 + count_if p l2)%nat.
Proof. unfold count_if. rewrite List.filter_app. apply length_app. Qed.

(** One callback of an enabled node with room: it returns, and only a
    controller tick calls the solver and publishes a setpoint, once. *)
Lemma dispatch_events (c : callback) (x : State) :
  enough_room x -> control x = true -> carries_arm_joints c ->
  let r := dispatch JntToCart_M CartToJnt c x in
  exists evs,
    fst r = Normal tt
    /\ trace (snd r) = trace x ++ evs
    /\ count_if is_setpoint evs = (if is_tick c then 1 else 0)%nat
    /\ count_if is_solver_call evs = (if is_tick c then 1 else 0)%nat
    /\ enough_room (snd r) /\ control (snd r) = true.
Proof.
  intros Hroom Hctl Hmsg r. subst r.
  assert (vector_sizes (snd (dispatch JntToCart_M CartToJnt c x))
          = vector_sizes x) as Hsz
      by (destruct c; cbn [dispatch]; frame_sizes).
  pose proof (enough_room_sizes _ _ Hsz Hroom) as Hroom'.
  assert (forall (m : M State unit),
            preserves trace m -> returns m x ->
            fst (m x) = Normal tt /\ trace (snd (m x)) = trace x ++ [])
    as Hsilent.
  { intros m Pt [[] Hu]. rewrite Pt, app_nil_r.
    split; [exact Hu | reflexivity]. }
  destruct c as [| |msg|msg]; cbn [dispatch is_tick] in *.
  - pose proof (roomy_tick solver_answer x Hroom) as Hret.
    destruct (tick_returns_inv x Hctl Hret)
      as (px & py & pz & ok & _ & _ & _ & _ & _ & _ & _ & _ & _ & _ & Htr).
    assert (preserves (S := State) control tick) as Pc by frame_node.
    eexists. split; [destruct Hret as [[] Hu]; exact Hu|].
    split; [exact Htr|]. rewrite Pc.
    split; [destruct ok; reflexivity|]. split; [destruct ok; reflexivity|].
    split; assumption.
  - pose proof Hroom as (Htcp & _).
    destruct (lookup_lt_is_Some_2 (tcp_pos x) 0) as [a Ha]; [lia|].
    destruct (lookup_lt_is_Some_2 (tcp_pos x) 1) as [b Hb]; [lia|].
    destruct (lookup_lt_is_Some_2 (tcp_pos x) 2) as [d Hd]; [lia|].
    rewrite (tcp_pos_publisher_eval x a b d Ha Hb Hd) in Hroom' |- *.
    eexists. split; [reflexivity|]. split; [reflexivity|].
    split; [reflexivity|]. split; [reflexivity|]. split; assumption.
  - assert (preserves (S := State) trace (joint_states_callback msg)) as Pt
        by frame_node.
    destruct (Hsilent _ Pt (roomy_joint_states_callback msg Hmsg x Hroom))
      as [Hu Ht].
    exists []. split; [exact Hu|]. split; [exact Ht|].
    split; [reflexivity|]. split; [reflexivity|]. split; [exact Hroom'|].
    apply joint_states_keeps_control, Hctl.
  - assert (preserves (S := State) trace (falcon_pos_callback msg)) as Pt
        by frame_node.
    assert (preserves (S := State) control (falcon_pos_callback msg)) as Pc
        by frame_node.
    destruct (Hsilent _ Pt (roomy_falcon_pos_callback msg x Hroom))
      as [Hu Ht].
    exists []. rewrite Pc. split; [exact Hu|]. split; [exact Ht|].
    split; [reflexivity|]. split; [reflexivity|]. split; assumption.
Qed.

(** X24: one setpoint and one solver call per controller tick.  In a run
    of an enabled node with room (joint-state messages carrying at least
    seven positions), the number of trajectory messages published equals
    the number of controller ticks that ran, and so does the number of
    inverse-kinematics calls: no tick is silent and no other callback
    commands the arm. *)
Theorem one_setpoint_per_tick (arrivals : list callback) (s : State) :
  enough_room s -> control s = true ->
  Forall carries_arm_joints arrivals ->
  let s' := snd (spin JntToCart_M CartToJnt arrivals s) in
  count_if is_setpoint (new_events s s') = count_if is_tick arrivals
  /\ count_if is_solver_call (new_events s s') = count_if is_tick arrivals.
Proof.
  intros Hroom Hctl Hmsg s'. subst s'.
  enough (exists evs,
            trace (snd (spin JntToCart_M CartToJnt arrivals s))
            = trace s ++ evs
            /\ count_if is_setpoint evs = count_if is_tick arrivals
            /\ count_if is_solver_call evs = count_if is_tick arrivals)
    as (evs & Htr & H1 & H2).
  { unfold new_events. rewrite Htr, drop_app_length. split; assumption. }
  revert s Hroom Hctl.
  induction Hmsg as [|c arrivals Hc Hmsg IH]; intros s Hroom Hctl.
  - exists []. rewrite app_nil_r. repeat split.
  - destruct (dispatch_events c s Hroom Hctl Hc)
      as (ev1 & Hu & Ht1 & S1 & K1 & Hroom1 & Hctl1).
    unfold spin. cbn [for_each]. unfold mbind, M_bind.
    destruct (dispatch JntToCart_M CartToJnt c s) as [[[]|e] s1];
      [|discriminate Hu].
    cbn [fst snd] in *.
    destruct (IH s1 Hroom1 Hctl1) as (ev2 & Ht2 & S2 & K2).
    exists (ev1 ++ ev2). unfold spin in Ht2.
    rewrite Ht2, Ht1, app_assoc, !count_if_app, S1, K1, S2, K2.
    change (count_if is_tick (c :: arrivals))
      with (length (if is_tick c then c :: List.filter is_tick arrivals
                    else List.filter is_tick arrivals)).
    repeat split; destruct (is_tick c); reflexivity.
Qed.

End Pipeline.


End Node.

(** *** The node on concrete inputs *)

Lemma setpoint_delay_witness :
  (1000 ÷ control_freq = 50)%Z
  /\ Double.of_int (1000 ÷ control_freq) * latency = 100
  /\ exists point,
       points demo_message = [point]
       /\ time_from_start point = {| sec := 0; nanosec := 100 * 1000000 |}.
Proof.
  apply (setpoint_delay demo_fk demo_ik (demo_state joints_home)
                        demo_message).
  vm_compute. right. left. reflexivity.
Defined.

Lemma smoothing_ramp_weight_witness :
  let arrivals := replicate 100 controller_timer in
  let more :=
    falcon_position_message {| x := 1; y := 2; z := 3 |}
    :: replicate 100 controller_timer in
  let s := demo_state joints_home in
  let n := count_if is_tick arrivals in
  let s' := snd (spin demo_fk demo_ik arrivals s) in
  let s'' := snd (spin demo_fk demo_ik (arrivals ++ more) s) in
  count s' = Z.min (Z.of_nat n) max_count
  /\ w s' = Double.of_int (Z.min (Z.of_nat n) max_count)
            / Double.of_int max_count
  /\ (w s' <=? w s'') = true
  /\ (count s' = max_count -> w s' = 1)
  /\ (w s' <=? 1) = true
  /\ max_count = 200%Z
  /\ (n = 100%nat -> w s' = 0.5)
  /\ ((200 <= n)%nat -> w s' = 1).
Proof.
  apply (smoothing_ramp_weight demo_fk demo_ik
           (replicate 100 controller_timer)
           (falcon_position_message {| x := 1; y := 2; z := 3 |}
            :: replicate 100 controller_timer)
           (demo_state joints_home)).
  - reflexivity.
  - reflexivity.
  - reflexivity.
  - eexists. vm_compute. reflexivity.
Defined.

Lemma cartesian_fusion_witness :
  exists o h,
    origin (demo_state joints_home) !! 0%nat = Some o
    /\ human_offset (demo_state joints_home) !! 0%nat = Some h
    /\ robot_offset demo_state_after_tick !! 0%nat
       = Some (Double.of_int 0 / Double.of_int control_freq)
    /\ tcp_pos demo_state_after_tick !! 0%nat
       = Some (o + 1 * h
               + (1 - 1) * (Double.of_int 0 / Double.of_int control_freq))
    /\ (ax (demo_state joints_home) = 1 ->
        ay (demo_state joints_home) = 1 ->
        az (demo_state joints_home) = 1 ->
        exists p, tcp_pos demo_state_after_tick !! 0%nat = Some p
                  /\ Double.same_number p (o + h)).
Proof.
  apply (cartesian_fusion demo_fk demo_ik (demo_state joints_home) 0).
  - lia.
  - reflexivity.
  - vm_compute. split; discriminate.
  - eexists. vm_compute. reflexivity.
Defined.

Lemma orientation_frozen_by_first_call_witness :
  let s' := snd (ik_session demo_fk demo_ik
                   [([0.4; 0; 0.3], joints_home);
                    ([0.5; 0.1; 0.2], joints_zero)]
                   (initial_state [])) in
  let o := demo_fk (take n_joints joints_home) in
  got_orientation s' = true
  /\ orientation s' = o
  /\ Forall (goal_orientation_is o) (new_events (initial_state []) s')
  /\ forall arrivals,
       let s'' := snd (spin demo_fk demo_ik arrivals s') in
       got_orientation s'' = true
       /\ orientation s'' = o
       /\ Forall (goal_orientation_is o) (new_events s' s'').
Proof.
  apply (orientation_frozen_by_first_call demo_fk demo_ik
           (initial_state []) [0.4; 0; 0.3] joints_home
           [([0.5; 0.1; 0.2], joints_zero)]).
  - reflexivity.
  - vm_compute. lia.
Defined.

(** A NaN joint reading goes through a tick: the blended vector holds a
    NaN, the limit check passes, no shutdown is requested and the vector is
    published. *)
Lemma nan_reading_is_published :
  let s := demo_state joints_nan in
  let s' := snd (controller_publisher demo_fk demo_ik s) in
  fst (controller_publisher demo_fk demo_ik s) = Normal tt
  /\ message_joint_vals s' !! 0%nat = Some nan
  /\ ~ In shutdown_call (new_events s s')
  /\ exists point,
       last (new_events s s')
       = Some (controller_publish
                 {| joint_names := panda_joint_names; points := [point] |})
       /\ positions point = message_joint_vals s'.
Proof.
  vm_compute. repeat split.
  - intros [H|[H|[]]]; discriminate H.
  - eexists. split; reflexivity.
Qed.

(** With the three-element [robot_offset] that the node declares, every
    enabled tick throws at its first statement and publishes nothing. *)
Lemma tick_throws_on_three_element_offset
      {Rotation} (fk : list float -> Rotation)
      (ik : list float -> Frame Rotation -> list float)
      (s : State Rotation) :
  control s = true ->
  length (robot_offset s) = 3%nat ->
  fst (controller_publisher fk ik s) = Throw out_of_range
  /\ trace (snd (controller_publisher fk ik s)) = trace s.
Proof.
  intros Hctl Hlen. rewrite (tick_enabled fk ik s Hctl).
  destruct (robot_offset s) as [|a [|b [|c [|d l]]]] eqn:E;
    try discriminate Hlen.
  set (t := Double.of_int (count s) / Double.of_int control_freq).
  assert (get_robot_control t robot_offset_ s
          = (Throw out_of_range, set_robot_offset [t; t; t] s)) as Hthrow.
  { unfold get_robot_control. cbn [for_each seq n_joints].
    unfold mbind, M_bind, assign_at. cbn [view update robot_offset_].
    rewrite E. reflexivity. }
  rewrite (bind_throw _ _ _ _ _ Hthrow). split; reflexivity.
Qed.


(** *** The further properties on concrete inputs *)

Lemma idle_node_gives_no_control_output_witness :
  let arrivals :=
    [controller_timer;
     falcon_position_message {| x := 1; y := 2; z := 3 |};
     tcp_pos_timer; controller_timer] in
  let s := initial_state ([] : list float) in
  let s' := snd (spin demo_fk demo_ik arrivals s) in
  control s' = false
  /\ count s' = count s
  /\ Forall is_telemetry (new_events s s').
Proof.
  apply (idle_node_gives_no_control_output demo_fk demo_ik
           [controller_timer;
            falcon_position_message {| x := 1; y := 2; z := 3 |};
            tcp_pos_timer; controller_timer]
           (initial_state ([] : list float)));
    reflexivity.
Defined.

Lemma control_flag_is_a_latch_witness :
  control
    (snd (spin demo_fk demo_ik
            [controller_timer; joint_states_message {| position := [] |};
             tcp_pos_timer]
            (demo_state joints_home)))
  = true.
Proof.
  apply (control_flag_is_a_latch demo_fk demo_ik
           [controller_timer; joint_states_message {| position := [] |};
            tcp_pos_timer]
           (demo_state joints_home)).
  reflexivity.
Defined.

Lemma joint_states_callback_copies_seven_witness :
  let s := initial_state ([] : list float) in
  let msg := {| position := joints_home |} in
  let data := position msg in
  let r := joint_states_callback msg s in
  ((n_joints <= length data)%nat ->
   fst r = Normal tt
   /\ curr_joint_vals (snd r)
      = take n_joints data ++ drop n_joints (curr_joint_vals s)
   /\ control (snd r) = true)
  /\ ((length data < n_joints)%nat ->
      fst r = Throw out_of_range
      /\ curr_joint_vals (snd r)
         = data ++ drop (length data) (curr_joint_vals s)
      /\ control (snd r) = control s).
Proof.
  apply (joint_states_callback_copies_seven
           {| position := joints_home |} (initial_state ([] : list float))).
  vm_compute. lia.
Defined.

Lemma telemetry_reports_fused_target_witness :
  let s := demo_state joints_home in
  let s1 := snd (controller_publisher demo_fk demo_ik s) in
  let t := Double.of_int (count s) / Double.of_int control_freq in
  exists o0 h0 o1 h1 o2 h2,
    origin s !! 0%nat = Some o0 /\ human_offset s !! 0%nat = Some h0
    /\ origin s !! 1%nat = Some o1 /\ human_offset s !! 1%nat = Some h1
    /\ origin s !! 2%nat = Some o2 /\ human_offset s !! 2%nat = Some h2
    /\ tcp_pos_publisher s1
       = (Normal tt,
          set_trace
            (trace s1
             ++ [tcp_pos_publish
                   {| x := o0 + ax s * h0 + (1 - ax s) * t;
                      y := o1 + ay s * h1 + (1 - ay s) * t;
                      z := o2 + az s * h2 + (1 - az s) * t |}]) s1).
Proof.
  apply (telemetry_reports_fused_target demo_fk demo_ik
           (demo_state joints_home)).
  - reflexivity.
  - eexists. vm_compute. reflexivity.
Defined.

Lemma returning_tick_events_witness :
  let s := demo_state joints_home in
  let s' := snd (controller_publisher demo_fk demo_ik s) in
  let q := take n_joints (curr_joint_vals s) in
  exists px py pz ok,
    let goal := {| Frame_M := orientation s'; Frame_p := (px, py, pz) |} in
    tcp_pos s' !! 0%nat = Some px /\ tcp_pos s' !! 1%nat = Some py
    /\ tcp_pos s' !! 2%nat = Some pz
    /\ orientation s'
       = (if got_orientation s then orientation s else demo_fk q)
    /\ ik_joint_vals s'
       = take n_joints (demo_ik q goal) ++ drop n_joints (ik_joint_vals s)
    /\ fst (within_limits whole (message_joint_vals s')) = Normal ok
    /\ new_events s s'
       = CartToJnt_call q goal
         :: (if ok then [] else [shutdown_call])
         ++ [controller_publish
               {| joint_names := panda_joint_names;
                  points :=
                    [{| positions := message_joint_vals s';
                        time_from_start :=
                          {| sec := 0; nanosec := 100000000 |} |}] |}].
Proof.
  apply (returning_tick_events demo_fk demo_ik (demo_state joints_home)).
  - reflexivity.
  - eexists. vm_compute. reflexivity.
Defined.

Lemma setpoint_is_the_blend_witness :
  let s := demo_state joints_home in
  let s' := snd (controller_publisher demo_fk demo_ik s) in
  exists qik qc m,
    ik_joint_vals s' !! 3%nat = Some qik
    /\ curr_joint_vals s !! 3%nat = Some qc
    /\ message_joint_vals s' !! 3%nat = Some m
    /\ m = w s' * qik + (1 - w s') * qc
    /\ (count s' = max_count -> Double.finite qc = true ->
        Double.same_number m qik).
Proof.
  apply (setpoint_is_the_blend demo_fk demo_ik (demo_state joints_home) 3).
  - reflexivity.
  - eexists. vm_compute. reflexivity.
  - vm_compute. lia.
Defined.

Lemma enabled_tick_returns_iff_room_witness :
  returns (controller_publisher demo_fk demo_ik) (demo_state joints_home)
  <-> enough_room (demo_state joints_home).
Proof.
  apply (enabled_tick_returns_iff_room demo_fk demo_ik).
  - intros q goal. vm_compute. lia.
  - reflexivity.
Defined.

Lemma spin_returns_with_room_witness :
  let arrivals :=
    [controller_timer; joint_states_message {| position := joints_zero |};
     falcon_position_message {| x := 1; y := 2; z := 3 |};
     tcp_pos_timer; controller_timer] in
  returns (spin demo_fk demo_ik arrivals) (demo_state joints_home)
  /\ enough_room (snd (spin demo_fk demo_ik arrivals
                         (demo_state joints_home))).
Proof.
  apply (spin_returns_with_room demo_fk demo_ik).
  - intros q goal. vm_compute. lia.
  - vm_compute. lia.
  - repeat constructor.
Defined.

Lemma ramp_consistent_over_runs_witness :
  let s := demo_state joints_home in
  let s' := snd (spin demo_fk demo_ik [controller_timer; controller_timer]
                   s) in
  ramp_consistent s'
  /\ (count s <= count s')%Z
  /\ (w s <=? w s') = true
  /\ (w s' <=? 1) = true.
Proof.
  apply (ramp_consistent_over_runs demo_fk demo_ik
           [controller_timer; controller_timer] (demo_state joints_home)).
  split; [vm_compute; split; discriminate | reflexivity].
Defined.


Lemma quiet_tick_is_within_limits_witness :
  let s := demo_state joints_home in
  let s' := snd (controller_publisher demo_fk demo_ik s) in
  exists v,
    message_joint_vals s' !! 3%nat = Some v
    /\ (Double.not_nan v = true ->
        in_closed_interval (message_joint_vals s') 3 = true).
Proof.
  apply (quiet_tick_is_within_limits demo_fk demo_ik
           (demo_state joints_home) 3).
  - reflexivity.
  - eexists. vm_compute. reflexivity.
  - vm_compute. lia.
  - vm_compute. intros [H|[H|[]]]; discriminate H.
Defined.

Lemma latest_messages_drive_the_tick_witness :
  let s := demo_state joints_zero in
  let joints := {| position := joints_home |} in
  let haptic := {| x := 1; y := 2; z := 3 |} in
  let r := spin demo_fk demo_ik
             [joint_states_message joints;
              falcon_position_message haptic; controller_timer] s in
  let s' := snd r in
  let t := Double.of_int (count s) / Double.of_int control_freq in
  exists (o0 o1 o2 : float) (ok : bool),
    origin s !! 0%nat = Some o0 /\ origin s !! 1%nat = Some o1
    /\ origin s !! 2%nat = Some o2
    /\ fst r = Normal tt
    /\ fst (within_limits whole (message_joint_vals s')) = Normal ok
    /\ new_events s s'
       = CartToJnt_call (take n_joints (position joints))
           {| Frame_M := orientation s';
              Frame_p :=
                (o0 + ax s * (x haptic / 100 * mapping_ratio)
                 + (1 - ax s) * t,
                 o1 + ay s * (y haptic / 100 * mapping_ratio)
                 + (1 - ay s) * t,
                 o2 + az s * (z haptic / 100 * mapping_ratio)
                 + (1 - az s) * t) |}
         :: (if ok then [] else [shutdown_call])
         ++ [controller_publish
               {| joint_names := panda_joint_names;
                  points :=
                    [{| positions := message_joint_vals s';
                        time_from_start :=
                          {| sec := 0; nanosec := 100000000 |} |}] |}].
Proof.
  apply (latest_messages_drive_the_tick demo_fk demo_ik).
  - intros q goal. vm_compute. lia.
  - vm_compute. lia.
  - vm_compute. lia.
Defined.

Lemma one_setpoint_per_tick_witness :
  let arrivals :=
    [controller_timer; tcp_pos_timer;
     joint_states_message {| position := joints_zero |};
     controller_timer;
     falcon_position_message {| x := 1; y := 2; z := 3 |};
     controller_timer] in
  let s := demo_state joints_home in
  let s' := snd (spin demo_fk demo_ik arrivals s) in
  count_if is_setpoint (new_events s s') = count_if is_tick arrivals
  /\ count_if is_solver_call (new_events s s') = count_if is_tick arrivals.
Proof.
  apply (one_setpoint_per_tick demo_fk demo_ik).
  - intros q goal. vm_compute. lia.
  - vm_compute. lia.
  - reflexivity.
  - repeat constructor.
Defined.


End RealControllerSpec.

(** ** The torque controller *)

Module MyControllerSpec.

Import MyController.
Local Open Scope float_scope.

Lemma preserves_set_value {T} (f : State -> T) i x :
  (forall v s, f (set_command_interfaces_ v s) = f s) ->
  preserves f (set_value i x).
Proof.
  intros H s. unfold set_value.
  destruct (i <? length (command_interfaces_ s))%nat; cbn;
    [apply H | reflexivity].
Qed.

Ltac frame_ctrl :=
  unfold updateJointStates, read_joint, assert;
  frame; try (apply preserves_set_value; intros; reflexivity).

(** *** Reading the joint states *)

Lemma read_joint_inv (i : fin num_joints) s u s1 :
  read_joint i s = (Normal u, s1) ->
  exists p v,
    state_interfaces_ s !! (2 * fin_to_nat i)%nat = Some p
    /\ state_interfaces_ s !! (2 * fin_to_nat i + 1)%nat = Some v
    /\ s1 = set_dq_ (vinsert i (get_value v) (dq_ s))
              (set_q_ (vinsert i (get_value p) (q_ s)) s).
Proof.
  unfold read_joint, mbind, M_bind, at_, assert, modify.
  cbn [view state_interfaces_ref].
  destruct (state_interfaces_ s !! (2 * fin_to_nat i)%nat) as [p|];
    [|discriminate].
  destruct (state_interfaces_ s !! (2 * fin_to_nat i + 1)%nat) as [v|];
    [|discriminate].
  destruct (String.eqb (get_interface_name p) "position"); [|discriminate].
  destruct (String.eqb (get_interface_name v) "velocity"); [|discriminate].
  intros [= <- <-]. exists p, v. repeat split.
Qed.

(** After a loop over [idx] that returns, the vectors [q_] and [dq_] hold
    the measurements at every joint of [idx], and keep them where they
    held them before. *)
Lemma read_joints_returns (idx : list (fin num_joints)) :
  forall s u s1,
    for_each idx read_joint s = (Normal u, s1) ->
    state_interfaces_ s1 = state_interfaces_ s
    /\ forall i,
         (i ∈ idx \/ (Some (q_ s !!! i) = measured_position s i
                      /\ Some (dq_ s !!! i) = measured_velocity s i)) ->
         Some (q_ s1 !!! i) = measured_position s i
         /\ Some (dq_ s1 !!! i) = measured_velocity s i.
Proof.
  induction idx as [|j idx IH]; intros s u s1 Hrun.
  - injection Hrun as _ <-. split; [reflexivity|].
    intros i [Hi|Hi]; [inversion Hi | exact Hi].
  - cbn [for_each] in Hrun.
    destruct (read_joint j s) as [[u0|e] s0] eqn:E.
    + rewrite (bind_normal _ _ _ _ _ E) in Hrun.
      apply read_joint_inv in E as (p & v & Hp & Hv & ->).
      destruct (IH _ _ _ Hrun) as [Hst Hall].
      split; [exact Hst|]. intros i Hi.
      unfold measured_position, measured_velocity in *.
      cbn [state_interfaces_ set_dq_ set_q_ q_ dq_] in Hall.
      apply Hall. destruct (decide (i = j)) as [->|Hne].
      * right. rewrite !vlookup_insert, Hp, Hv. split; reflexivity.
      * destruct Hi as [Hi|Hi].
        -- left. apply elem_of_cons in Hi as [Hi|Hi]; [contradiction|exact Hi].
        -- right. rewrite !vlookup_insert_ne by congruence. exact Hi.
    + rewrite (bind_throw _ _ _ _ _ E) in Hrun. discriminate.
Qed.

Lemma updateJointStates_returns s u s1 :
  updateJointStates s = (Normal u, s1) ->
  forall i, Some (q_ s1 !!! i) = measured_position s i
            /\ Some (dq_ s1 !!! i) = measured_velocity s i.
Proof.
  intros Hrun i.
  apply (read_joints_returns joints s u s1 Hrun). left.
  change (i ∈ enum (fin num_joints)). apply elem_of_enum.
Qed.

(** *** Writing the torques *)

Lemma set_value_inv i x s u s1 :
  set_value i x s = (Normal u, s1) ->
  (i < length (command_interfaces_ s))%nat
  /\ s1 = set_command_interfaces_ (<[i:=x]> (command_interfaces_ s)) s.
Proof.
  unfold set_value.
  destruct (i <? length (command_interfaces_ s))%nat eqn:E; [|discriminate].
  intros [= <- <-]. split; [apply Nat.ltb_lt, E | reflexivity].
Qed.

Lemma write_torques_returns (tau : Vector7d) (idx : list (fin num_joints)) :
  forall s u s1,
    for_each idx (fun i => set_value (fin_to_nat i) (tau !!! i)) s
    = (Normal u, s1) ->
    forall i,
      (i ∈ idx \/ command_interfaces_ s !! fin_to_nat i = Some (tau !!! i)) ->
      command_interfaces_ s1 !! fin_to_nat i = Some (tau !!! i).
Proof.
  induction idx as [|j idx IH]; intros s u s1 Hrun i Hi.
  - injection Hrun as _ <-. destruct Hi as [Hi|Hi]; [inversion Hi | exact Hi].
  - cbn [for_each] in Hrun.
    destruct (set_value (fin_to_nat j) (tau !!! j) s) as [[u0|e] s0] eqn:E.
    + rewrite (bind_normal _ _ _ _ _ E) in Hrun.
      apply set_value_inv in E as [Hj ->].
      apply (IH _ _ _ Hrun). cbn.
      destruct (decide (i = j)) as [->|Hne].
      * right. apply list_lookup_insert_eq, Hj.
      * destruct Hi as [Hi|Hi].
        -- left. apply elem_of_cons in Hi as [Hi|Hi]; [contradiction|exact Hi].
        -- right. rewrite list_lookup_insert_ne; [exact Hi|].
           intros Heq. apply Hne. symmetry. apply (inj fin_to_nat), Heq.
    + rewrite (bind_throw _ _ _ _ _ E) in Hrun. discriminate.
Qed.

(** *** The tick of the torque loop *)

Lemma lookup_torque (k d qd q f : Vector7d) (i : fin num_joints) :
  vadd (cwiseProduct k (vsub qd q)) (cwiseProduct d (vopp f)) !!! i
  = k !!! i * (qd !!! i - q !!! i) + d !!! i * (- f !!! i).
Proof.
  unfold vadd, cwiseProduct, vsub, vopp.
  rewrite !vlookup_zip_with, vlookup_map. reflexivity.
Qed.

Lemma lookup_filter (f dq : Vector7d) (i : fin num_joints) :
  vadd (scale (1 - kAlpha) f) (scale kAlpha dq) !!! i
  = (1 - 0.99) * f !!! i + 0.99 * dq !!! i.
Proof.
  unfold vadd, scale. rewrite vlookup_zip_with, !vlookup_map. reflexivity.
Qed.

(** A tick that tracks and returns: the state after [updateJointStates],
    the filtered velocity and the torques written. *)
Lemma update_tracking (q_desired : Vector7d) (s : State) :
  returns (update (q_desired, false)) s ->
  exists u s1,
    updateJointStates s = (Normal u, s1)
    /\ fst (update (q_desired, false) s) = Normal OK
    /\ q_ (snd (update (q_desired, false) s)) = q_ s1
    /\ dq_ (snd (update (q_desired, false) s)) = dq_ s1
    /\ dq_filtered_ (snd (update (q_desired, false) s))
       = vadd (scale (1 - kAlpha) (dq_filtered_ s)) (scale kAlpha (dq_ s1))
    /\ forall i,
         command_interfaces_ (snd (update (q_desired, false) s))
           !! fin_to_nat i
         = Some (vadd (cwiseProduct (k_gains_ s) (vsub q_desired (q_ s1)))
                      (cwiseProduct (d_gains_ s)
                         (vopp (vadd (scale (1 - kAlpha) (dq_filtered_ s))
                                     (scale kAlpha (dq_ s1))))) !!! i).
Proof.
  intros Hret. unfold update in Hret |- *. cbn [fst snd negb] in Hret |- *.
  apply bind_returns in Hret as (u & s1 & E1 & R1 & Hret). rewrite R1.
  exists u, s1. split; [exact E1|].
  assert (dq_filtered_ s1 = dq_filtered_ s /\ k_gains_ s1 = k_gains_ s
          /\ d_gains_ s1 = d_gains_ s) as (Hf & Hk & Hd).
  { replace s1 with (snd (updateJointStates s)) by (rewrite E1; reflexivity).
    repeat split; frame_ctrl. }
  apply bind_returns in Hret as (u2 & s2 & E2 & R2 & _). rewrite R2.
  rewrite (bind_normal (modify _) _ s1 tt _ eq_refl) in E2.
  rewrite (bind_normal (gets _) _ _ _ _ eq_refl) in E2.
  cbn [dq_filtered_ set_dq_filtered_ k_gains_ d_gains_ q_ dq_] in E2.
  rewrite Hf, Hk, Hd in E2.
  split; [reflexivity|]. cbn [snd mret M_ret].
  pose proof (write_torques_returns _ _ _ _ _ E2) as Hcmd.
  match type of E2 with
  | for_each ?idx ?body ?s0 = _ =>
      assert (q_ s2 = q_ s0 /\ dq_ s2 = dq_ s0
              /\ dq_filtered_ s2 = dq_filtered_ s0) as (Hq2 & Hdq2 & Hf2)
        by (replace s2 with (snd (for_each idx body s0))
              by (rewrite E2; reflexivity);
            repeat split; frame_ctrl)
  end.
  cbn in Hq2, Hdq2, Hf2.
  split; [exact Hq2|]. split; [exact Hdq2|]. split; [exact Hf2|].
  intros i. apply Hcmd. left. change (i ∈ enum (fin num_joints)).
  apply elem_of_enum.
Qed.

(** With the position error zero, the filtered velocity zero and finite
    gains, the two products of the law are zeros, and so is their sum. *)
Lemma torque_zero (k d qd q f : float) :
  qd = q -> Double.finite q = true -> is_zero f = true ->
  Double.finite k = true -> Double.finite d = true ->
  is_zero (k * (qd - q) + d * (- f)) = true.
Proof.
  intros -> Hq Hf Hk Hd. rewrite (sub_diag_finite q Hq).
  apply add_zeros; apply mul_zero_r_finite; try assumption.
  - reflexivity.
  - apply opp_zero, Hf.
Qed.

(** C7 (as amended): on a tick in which the motion generator reports not
    finished and that returns, [q_] and [dq_] hold the measured position
    and velocity, the filtered velocity becomes
    [(1 - 0.99) * previous + 0.99 * measured velocity], and the torque
    written for joint [i] is
    [kGain[i] * (desired[i] - measured[i]) + dGain[i] * (- filtered[i])];
    that torque is a zero when desired equals measured and is finite, the
    filtered velocity is zero, and both gains of the joint are finite. *)
Theorem torque_law (s : State) (q_desired : Vector7d)
        (i : fin num_joints) :
  returns (update (q_desired, false)) s ->
  let s' := snd (update (q_desired, false) s) in
  fst (update (q_desired, false) s) = Normal OK
  /\ Some (q_ s' !!! i) = measured_position s i
  /\ Some (dq_ s' !!! i) = measured_velocity s i
  /\ dq_filtered_ s' !!! i
     = (1 - 0.99) * dq_filtered_ s !!! i + 0.99 * dq_ s' !!! i
  /\ command_interfaces_ s' !! fin_to_nat i
     = Some (k_gains_ s !!! i * (q_desired !!! i - q_ s' !!! i)
             + d_gains_ s !!! i * (- dq_filtered_ s' !!! i))
  /\ (q_desired !!! i = q_ s' !!! i ->
      Double.finite (q_ s' !!! i) = true ->
      is_zero (dq_filtered_ s' !!! i) = true ->
      Double.finite (k_gains_ s !!! i) = true ->
      Double.finite (d_gains_ s !!! i) = true ->
      exists tau, command_interfaces_ s' !! fin_to_nat i = Some tau
                  /\ is_zero tau = true).
Proof.
  intros Hret s'. subst s'.
  destruct (update_tracking q_desired s Hret)
    as (u & s1 & E1 & Hok & Hq & Hdq & Hf & Hcmd).
  destruct (updateJointStates_returns s u s1 E1 i) as [Mq Mdq].
  rewrite Hq, Hdq, Hf, Hcmd, lookup_torque, lookup_filter.
  repeat (split; [assumption || reflexivity|]).
  intros Heq Hfq Hz Hk Hd. eexists. split; [reflexivity|].
  apply torque_zero; assumption.
Qed.

Lemma torque_law_witness :
  let s := configured demo_k_gains demo_d_gains in
  let s' := snd (update (setZero, false) s) in
  fst (update (setZero, false) s) = Normal OK
  /\ Some (q_ s' !!! 0%fin) = measured_position s 0%fin
  /\ Some (dq_ s' !!! 0%fin) = measured_velocity s 0%fin
  /\ dq_filtered_ s' !!! 0%fin
     = (1 - 0.99) * dq_filtered_ s !!! 0%fin + 0.99 * dq_ s' !!! 0%fin
  /\ command_interfaces_ s' !! fin_to_nat (0%fin : fin num_joints)
     = Some (k_gains_ s !!! 0%fin * (setZero !!! 0%fin - q_ s' !!! 0%fin)
             + d_gains_ s !!! 0%fin * (- dq_filtered_ s' !!! 0%fin))
  /\ (setZero !!! 0%fin = q_ s' !!! 0%fin ->
      Double.finite (q_ s' !!! 0%fin) = true ->
      is_zero (dq_filtered_ s' !!! 0%fin) = true ->
      Double.finite (k_gains_ s !!! 0%fin) = true ->
      Double.finite (d_gains_ s !!! 0%fin) = true ->
      exists tau,
        command_interfaces_ s' !! fin_to_nat (0%fin : fin num_joints)
        = Some tau
        /\ is_zero tau = true).
Proof.
  apply (torque_law (configured demo_k_gains demo_d_gains) setZero 0%fin).
  eexists. vm_compute. reflexivity.
Defined.

(** C7 (as stated) fails for a gain that is not finite: with an infinite
    proportional gain, desired equal to measured and the filtered velocity
    zero, the torque of the first joint is [inf * 0], a NaN. *)
Lemma torque_nan_with_infinite_gain :
  let s := configured inf_k_gains demo_d_gains in
  let s' := snd (update (setZero, false) s) in
  fst (on_configure "panda" inf_k_gains demo_d_gains (unconfigured at_rest))
  = Normal SUCCESS
  /\ fst (update (setZero, false) s) = Normal OK
  /\ q_ s' = setZero
  /\ dq_filtered_ s' = setZero
  /\ command_interfaces_ s' !! 0%nat = Some nan
  /\ is_zero nan = false.
Proof. vm_compute. repeat split. Qed.

(** C8: on a tick in which the motion generator reports finished and that
    returns, every command interface holds the torque zero, whatever the
    gains, the filtered velocity and the measured state; no interface is
    added or dropped. *)
Theorem holding_torque_is_zero (s : State) (q_desired : Vector7d) :
  returns (update (q_desired, true)) s ->
  let s' := snd (update (q_desired, true) s) in
  fst (update (q_desired, true) s) = Normal OK
  /\ length (command_interfaces_ s') = length (command_interfaces_ s)
  /\ forall i tau, command_interfaces_ s' !! i = Some tau -> tau = 0.
Proof.
  intros Hret s'. subst s'.
  unfold update in Hret |- *. cbn [fst snd negb] in Hret |- *.
  apply bind_returns in Hret as (u & s1 & E1 & R1 & _). rewrite R1.
  assert (command_interfaces_ s1 = command_interfaces_ s) as Hc.
  { replace s1 with (snd (updateJointStates s)) by (rewrite E1; reflexivity).
    frame_ctrl. }
  rewrite (bind_normal (modify _) _ s1 tt _ eq_refl).
  cbn [mret M_ret fst snd command_interfaces_ set_command_interfaces_].
  rewrite Hc. split; [reflexivity|].
  split; [apply length_fmap|].
  intros i tau. rewrite list_lookup_fmap.
  destruct (command_interfaces_ s !! i); cbn; congruence.
Qed.

Lemma holding_torque_is_zero_witness :
  let s := configured inf_k_gains demo_d_gains in
  let s' := snd (update (setZero, true) s) in
  fst (update (setZero, true) s) = Normal OK
  /\ length (command_interfaces_ s') = length (command_interfaces_ s)
  /\ forall i tau, command_interfaces_ s' !! i = Some tau -> tau = 0.
Proof.
  apply (holding_torque_is_zero (configured inf_k_gains demo_d_gains)
                                setZero).
  eexists. vm_compute. reflexivity.
Defined.

(** *** Configuration *)

Lemma on_configure_success (arm_id : string) (k_gains d_gains : list float)
      (s : State) :
  length k_gains = num_joints -> length d_gains = num_joints ->
  let r := on_configure arm_id k_gains d_gains s in
  fst r = Normal SUCCESS
  /\ arm_id_ (snd r) = arm_id
  /\ vec_to_list (k_gains_ (snd r)) = k_gains
  /\ vec_to_list (d_gains_ (snd r)) = d_gains
  /\ dq_filtered_ (snd r) = setZero
  /\ q_ (snd r) = q_ s /\ dq_ (snd r) = dq_ s
  /\ state_interfaces_ (snd r) = state_interfaces_ s
  /\ command_interfaces_ (snd r) = command_interfaces_ s.
Proof.
  intros Hk Hd.
  destruct k_gains as [|k0 [|k1 [|k2 [|k3 [|k4 [|k5 [|k6 [|k7 k]]]]]]]];
    try discriminate Hk.
  destruct d_gains as [|d0 [|d1 [|d2 [|d3 [|d4 [|d5 [|d6 [|d7 d]]]]]]]];
    try discriminate Hd.
  destruct s as [q dq f kg dg si ci aid]. unfold num_joints in *.
  inv_vec kg. inv_vec dg. intros. vm_compute. repeat split.
Qed.

(** X16: [on_configure] first stores the arm id, whatever follows.  It
    accepts the gains exactly when both parameter lists have seven
    entries: it then succeeds, stores the lists as the gain vectors, in
    order, resets the filtered velocity to zero and leaves the
    measurements and the interfaces alone.  Otherwise it fails, and the
    arm id is the one member it has changed.  It never throws. *)
Theorem on_configure_outcome (arm_id : string) (k_gains d_gains : list float)
        (s : State) :
  let r := on_configure arm_id k_gains d_gains s in
  (length k_gains = num_joints -> length d_gains = num_joints ->
   fst r = Normal SUCCESS
   /\ arm_id_ (snd r) = arm_id
   /\ vec_to_list (k_gains_ (snd r)) = k_gains
   /\ vec_to_list (d_gains_ (snd r)) = d_gains
   /\ dq_filtered_ (snd r) = setZero
   /\ q_ (snd r) = q_ s /\ dq_ (snd r) = dq_ s
   /\ state_interfaces_ (snd r) = state_interfaces_ s
   /\ command_interfaces_ (snd r) = command_interfaces_ s)
  /\ (length k_gains <> num_joints \/ length d_gains <> num_joints ->
      r = (Normal FAILURE, set_arm_id_ arm_id s)).
Proof.
  intros r. subst r. split.
  - apply on_configure_success.
  - intros Hne. unfold on_configure.
    rewrite (bind_normal (modify (set_arm_id_ arm_id)) _ s tt _ eq_refl).
    destruct k_gains as [|k0 k]; [reflexivity|]. cbn [empty].
    destruct (Nat.eqb_spec (length (k0 :: k)) num_joints) as [Hk|Hk];
      [|reflexivity].
    cbn [negb].
    destruct d_gains as [|d0 d]; [reflexivity|]. cbn [empty].
    destruct (Nat.eqb_spec (length (d0 :: d)) num_joints) as [Hd|Hd];
      [|reflexivity].
    destruct Hne; contradiction.
Qed.

(** *** When a tick of the torque loop returns *)

Lemma ready_frame (s s1 : State) i :
  state_interfaces_ s1 = state_interfaces_ s ->
  joint_interfaces_ready s1 i = joint_interfaces_ready s i.
Proof. intros H. unfold joint_interfaces_ready. rewrite H. reflexivity. Qed.

Lemma forallb_same {A} (f g : A -> bool) (l : list A) :
  (forall a, f a = g a) -> forallb f l = forallb g l.
Proof.
  intros H. induction l as [|a l IH]; cbn; [reflexivity|].
  rewrite H, IH. reflexivity.
Qed.

Lemma read_joint_returns_iff (i : fin num_joints) (s : State) :
  returns (read_joint i) s <-> joint_interfaces_ready s i = true.
Proof.
  unfold returns, joint_interfaces_ready, read_joint, mbind, M_bind, at_,
    assert, modify.
  cbn [view state_interfaces_ref].
  destruct (state_interfaces_ s !! (2 * fin_to_nat i)%nat) as [p|];
    [|split; [intros [a Ha]|intros Ha]; discriminate Ha].
  destruct (state_interfaces_ s !! (2 * fin_to_nat i + 1)%nat) as [v|];
    [|split; [intros [a Ha]|intros Ha]; discriminate Ha].
  destruct (String.eqb (get_interface_name p) "position");
    [|split; [intros [a Ha]|intros Ha]; discriminate Ha].
  destruct (String.eqb (get_interface_name v) "velocity");
    [|split; [intros [a Ha]|intros Ha]; discriminate Ha].
  split; [reflexivity | intros _; exists tt; reflexivity].
Qed.

Lemma read_joints_returns_iff (idx : list (fin num_joints)) (s : State) :
  returns (for_each idx read_joint) s
  <-> forallb (joint_interfaces_ready s) idx = true.
Proof.
  revert s. induction idx as [|i idx IH]; intros s; cbn [for_each forallb].
  - split; [reflexivity | intros _; exists tt; reflexivity].
  - assert (preserves state_interfaces_ (read_joint i)) as Hst by frame_ctrl.
    specialize (Hst s). rewrite andb_true_iff, <- read_joint_returns_iff.
    split.
    + intros H. apply bind_returns in H as (u & s1 & E & _ & H).
      rewrite E in Hst. split; [exists u; rewrite E; reflexivity|].
      apply IH in H. rewrite <- H. apply forallb_same. intros j.
      symmetry. apply ready_frame, Hst.
    + intros [[u Hu] H]. destruct (read_joint i s) as [[u'|e] s1] eqn:E;
        [|discriminate Hu].
      unfold returns. rewrite (bind_normal _ _ _ _ _ E). apply IH.
      rewrite <- H. apply forallb_same. intros j. apply ready_frame, Hst.
Qed.

Lemma write_torques_returns_iff (tau : Vector7d)
      (idx : list (fin num_joints)) (s : State) :
  returns (for_each idx (fun i => set_value (fin_to_nat i) (tau !!! i))) s
  <-> Forall (fun i : fin num_joints =>
                (fin_to_nat i < length (command_interfaces_ s))%nat) idx.
Proof.
  revert s. induction idx as [|i idx IH]; intros s; cbn [for_each].
  - split; [constructor | intros _; exists tt; reflexivity].
  - rewrite Forall_cons. split.
    + intros H. apply bind_returns in H as (u & s1 & E & _ & H).
      apply set_value_inv in E as [Hi ->]. split; [exact Hi|].
      apply IH in H. cbn in H. rewrite length_insert in H. exact H.
    + intros [Hi H]. unfold returns.
      assert (set_value (fin_to_nat i) (tau !!! i) s
              = (Normal tt,
                 set_command_interfaces_
                   (<[fin_to_nat i := tau !!! i]> (command_interfaces_ s)) s))
        as E.
      { unfold set_value. apply Nat.ltb_lt in Hi. rewrite Hi. reflexivity. }
      rewrite (bind_normal _ _ _ _ _ E). apply IH. cbn.
      rewrite length_insert. exact H.
Qed.

Lemma joints_below (n : nat) :
  Forall (fun i : fin num_joints => (fin_to_nat i < n)%nat) joints
  <-> (num_joints <= n)%nat.
Proof.
  split.
  - intros H. rewrite Forall_forall in H.
    specialize (H (6%fin : fin num_joints)). unfold num_joints.
    enough (6 < n)%nat by lia. apply H.
    change ((6%fin : fin num_joints) ∈ enum (fin num_joints)).
    apply elem_of_enum.
  - intros Hn. apply Forall_forall. intros i _.
    pose proof (fin_to_nat_lt i). lia.
Qed.

(** With its interfaces in place, a tick returns. *)
Lemma update_returns_when_ready
      (motion_generator_output : Vector7d * bool) (s : State) :
  interfaces_ready s = true ->
  (snd motion_generator_output = false ->
   (num_joints <= length (command_interfaces_ s))%nat) ->
  returns (update motion_generator_output) s.
Proof.
  destruct motion_generator_output as [q_desired finished].
  unfold update, interfaces_ready. cbn [fst snd].
  rewrite <- read_joints_returns_iff. fold updateJointStates.
  assert (preserves command_interfaces_ updateJointStates) as Hcmd
      by frame_ctrl.
  specialize (Hcmd s). intros [u Hu] Hn.
  destruct (updateJointStates s) as [[u'|e] s1] eqn:E; [|discriminate Hu].
  cbn [snd] in Hcmd. unfold returns. rewrite (bind_normal _ _ _ _ _ E).
  destruct finished; cbn [negb].
  - exists OK. reflexivity.
  - specialize (Hn eq_refl). rewrite <- Hcmd in Hn.
    assert (forall (tau : Vector7d) v,
              returns (for_each joints (fun i =>
                         set_value (fin_to_nat i) (tau !!! i)))
                      (set_dq_filtered_ v s1)) as Hw
        by (intros; apply write_torques_returns_iff, joints_below;
            exact Hn).
    unfold mbind, M_bind, modify, gets.
    match goal with
    | |- context [for_each joints ?body ?s2] =>
        destruct (Hw _ _ : returns (for_each joints body) s2) as [u3 Hu3];
        destruct (for_each joints body s2) as [[u4|e4] s3];
        [|discriminate Hu3]
    end.
    exists OK. reflexivity.
Qed.

(** X17: a tick of the torque loop returns if and only if the state
    interfaces hold a position and a velocity interface for each of the
    seven joints, in the order in which [updateJointStates] reads them,
    and, when the motion is not finished, there are at least seven
    command interfaces to write to. *)
Theorem update_returns_iff (motion_generator_output : Vector7d * bool)
        (s : State) :
  returns (update motion_generator_output) s
  <-> interfaces_ready s = true
      /\ (snd motion_generator_output = false ->
          (num_joints <= length (command_interfaces_ s))%nat).
Proof.
  split; [|intros [Hready Hn]; apply update_returns_when_ready; assumption].
  destruct motion_generator_output as [q_desired finished].
  unfold update, interfaces_ready. cbn [fst snd].
  rewrite <- read_joints_returns_iff. fold updateJointStates.
  assert (preserves command_interfaces_ updateJointStates) as Hcmd
      by frame_ctrl.
  specialize (Hcmd s).
  intros H. apply bind_returns in H as (u & s1 & E & _ & H).
  rewrite E in Hcmd. cbn [snd] in Hcmd.
  split; [exists u; rewrite E; reflexivity|].
  intros ->. cbn [negb] in H.
  apply bind_returns in H as (u2 & s2 & E2 & _ & _).
  rewrite (bind_normal (modify _) _ s1 tt _ eq_refl) in E2.
  rewrite (bind_normal (gets _) _ _ _ _ eq_refl) in E2.
  apply joints_below. rewrite <- Hcmd.
  eapply (write_torques_returns_iff _ joints (set_dq_filtered_ _ s1)).
  exists u2. rewrite E2. reflexivity.
Qed.

(** *** What a tick leaves alone *)

Lemma preserves_set_value_insert {T} (f : State -> T) i x :
  (forall s, (i < length (command_interfaces_ s))%nat ->
             f (set_command_interfaces_ (<[i:=x]> (command_interfaces_ s)) s)
             = f s) ->
  preserves f (set_value i x).
Proof.
  intros H s. unfold set_value.
  destruct (i <? length (command_interfaces_ s))%nat eqn:E; cbn;
    [apply H, Nat.ltb_lt, E | reflexivity].
Qed.

(** X18: a tick of the torque loop, whatever its outcome, leaves the
    gains and the state interfaces as they are and does not change the
    number of command interfaces; while the motion is not finished it
    leaves every command interface after the seventh untouched. *)
Theorem update_leaves_configuration
        (motion_generator_output : Vector7d * bool) (s : State) :
  let s' := snd (update motion_generator_output s) in
  k_gains_ s' = k_gains_ s
  /\ d_gains_ s' = d_gains_ s
  /\ state_interfaces_ s' = state_interfaces_ s
  /\ length (command_interfaces_ s') = length (command_interfaces_ s)
  /\ (snd motion_generator_output = false ->
      forall j, (num_joints <= j)%nat ->
                command_interfaces_ s' !! j = command_interfaces_ s !! j).
Proof.
  destruct motion_generator_output as [q_desired finished]. intros s'.
  subst s'. cbn [snd].
  assert (preserves k_gains_ (update (q_desired, finished))) as P1
      by (unfold update; cbn [fst snd]; frame_ctrl).
  assert (preserves d_gains_ (update (q_desired, finished))) as P2
      by (unfold update; cbn [fst snd]; frame_ctrl).
  assert (preserves state_interfaces_ (update (q_desired, finished))) as P3
      by (unfold update; cbn [fst snd]; frame_ctrl).
  assert (preserves (fun x => length (command_interfaces_ x))
            (update (q_desired, finished))) as P4.
  { unfold update, updateJointStates, read_joint, assert. cbn [fst snd].
    repeat first
      [ apply preserves_set_value_insert; intros ? ?; cbn;
        apply length_insert
      | apply preserves_modify; intros ?; cbn; apply length_fmap
      | frame_step ]. }
  split; [apply P1|]. split; [apply P2|]. split; [apply P3|].
  split; [apply P4|].
  intros -> j Hj.
  assert (preserves (fun x => command_interfaces_ x !! j)
            (update (q_desired, false))) as P5.
  { unfold update, updateJointStates, read_joint, assert.
    cbn [fst snd negb].
    repeat first
      [ apply preserves_set_value_insert; intros ? ?; cbn;
        apply list_lookup_insert_ne;
        first [ match goal with
                | |- fin_to_nat ?i <> _ => pose proof (fin_to_nat_lt i)
                end
              | idtac ];
        unfold num_joints in *; cbn; lia
      | frame_step ]. }
  apply P5.
Qed.

(** X19: on a tick in which the motion is finished and that returns, the
    controller still reads the measured position and velocity of every
    joint into [q_] and [dq_], but the filtered velocity is not advanced:
    it keeps the value it had. *)
Theorem holding_tick_reads_measurements
        (s : State) (q_desired : Vector7d) (i : fin num_joints) :
  returns (update (q_desired, true)) s ->
  let s' := snd (update (q_desired, true) s) in
  Some (q_ s' !!! i) = measured_position s i
  /\ Some (dq_ s' !!! i) = measured_velocity s i
  /\ dq_filtered_ s' = dq_filtered_ s.
Proof.
  intros Hret s'. subst s'.
  assert (preserves dq_filtered_ (update (q_desired, true))) as Pf
      by (unfold update; cbn [fst snd]; frame_ctrl).
  split; [|split; [|apply Pf]];
    unfold update in Hret |- *; cbn [fst snd negb] in Hret |- *;
    apply bind_returns in Hret as (u & s1 & E1 & R1 & _); rewrite R1;
    destruct (updateJointStates_returns s u s1 E1 i) as [Mq Mdq];
    assumption.
Qed.

(** *** Configuration followed by a tick *)

(** X20: the configured gains are the gains of the law, joint by joint.
    After a successful [on_configure] with the lists [k_gains] and
    [d_gains], the first tick that tracks returns (given the fourteen
    state interfaces and seven command interfaces), the filtered velocity
    of joint [i] starts from zero, so it is 0.99 times the measured
    velocity, and the torque written for joint [i] is
    [k_gains[i] * (desired[i] - measured[i]) + d_gains[i] * (- filtered[i])]. *)
Theorem first_tick_after_configure
        (arm_id : string) (k_gains d_gains : list float) (s : State)
        (q_desired : Vector7d) (i : fin num_joints) :
  length k_gains = num_joints -> length d_gains = num_joints ->
  interfaces_ready s = true ->
  (num_joints <= length (command_interfaces_ s))%nat ->
  let s1 := snd (on_configure arm_id k_gains d_gains s) in
  let s2 := snd (update (q_desired, false) s1) in
  exists k d p v,
    k_gains !! fin_to_nat i = Some k /\ d_gains !! fin_to_nat i = Some d
    /\ measured_position s i = Some p /\ measured_velocity s i = Some v
    /\ fst (on_configure arm_id k_gains d_gains s) = Normal SUCCESS
    /\ fst (update (q_desired, false) s1) = Normal OK
    /\ Double.same_number (dq_filtered_ s2 !!! i) (0.99 * v)
    /\ command_interfaces_ s2 !! fin_to_nat i
       = Some (k * (q_desired !!! i - p) + d * (- dq_filtered_ s2 !!! i)).
Proof.
  intros Hk Hd Hready Hcmd s1 s2.
  destruct (on_configure_success arm_id k_gains d_gains s Hk Hd)
    as (Hok & _ & Hkg & Hdg & Hf & Hq & Hdq & Hsi & Hci).
  fold s1 in Hkg, Hdg, Hf, Hq, Hdq, Hsi, Hci.
  assert (returns (update (q_desired, false)) s1) as Hret.
  { apply update_returns_when_ready.
    - rewrite <- Hready. apply forallb_same. intros j.
      apply ready_frame, Hsi.
    - intros _. rewrite Hci. exact Hcmd. }
  destruct (update_tracking q_desired s1 Hret)
    as (u & s' & E1 & Hok2 & Hq2 & Hdq2 & Hf2 & Hcmd2).
  fold s2 in Hok2, Hq2, Hdq2, Hf2, Hcmd2.
  destruct (updateJointStates_returns s1 u s' E1 i) as [Mq Mdq].
  unfold measured_position, measured_velocity in *. rewrite Hsi in Mq, Mdq.
  exists (k_gains_ s1 !!! i), (d_gains_ s1 !!! i), (q_ s' !!! i),
    (dq_ s' !!! i).
  split; [rewrite <- Hkg; apply vlookup_lookup; reflexivity|].
  split; [rewrite <- Hdg; apply vlookup_lookup; reflexivity|].
  split; [symmetry; exact Mq|]. split; [symmetry; exact Mdq|].
  split; [exact Hok|]. split; [exact Hok2|]. split.
  - rewrite Hf2, lookup_filter, Hf. unfold setZero.
    rewrite vlookup_replicate. change ((1 - 0.99) * 0) with 0.
    apply add_zero_l. reflexivity.
  - rewrite Hcmd2, lookup_torque. rewrite <- Hf2. reflexivity.
Qed.

(** *** The interfaces that the controller requests *)

Lemma append_assoc (a b c : string) :
  String.append (String.append a b) c = String.append a (String.append b c).
Proof.
  induction a as [|x a IH]; cbn; [reflexivity | rewrite IH; reflexivity].
Qed.

Lemma append_inj (a : string) : Inj (=) (=) (String.append a).
Proof.
  intros x y. induction a as [|c a IH]; cbn; [auto|].
  intros [= H]. exact (IH H).
Qed.

(** X21: the interfaces that the controller requests, for every arm id:
    individually, the seven effort command interfaces of joints 1 to 7,
    and the fourteen state interfaces, position then velocity of each
    joint in turn, which is the order in which [updateJointStates] reads
    them; the twenty-one names are pairwise distinct. *)
Theorem requested_interfaces (arm_id_ : string) :
  let command := command_interface_configuration arm_id_ in
  let state := state_interface_configuration arm_id_ in
  type command = INDIVIDUAL /\ type state = INDIVIDUAL
  /\ names command
     = String.append arm_id_
       <$> ["_joint1/effort"; "_joint2/effort"; "_joint3/effort";
            "_joint4/effort"; "_joint5/effort"; "_joint6/effort";
            "_joint7/effort"]%string
  /\ names state
     = String.append arm_id_
       <$> ["_joint1/position"; "_joint1/velocity";
            "_joint2/position"; "_joint2/velocity";
            "_joint3/position"; "_joint3/velocity";
            "_joint4/position"; "_joint4/velocity";
            "_joint5/position"; "_joint5/velocity";
            "_joint6/position"; "_joint6/velocity";
            "_joint7/position"; "_joint7/velocity"]%string
  /\ NoDup (names command ++ names state).
Proof.
  intros command state.
  assert (names command
          = String.append arm_id_
            <$> ["_joint1/effort"; "_joint2/effort"; "_joint3/effort";
                 "_joint4/effort"; "_joint5/effort"; "_joint6/effort";
                 "_joint7/effort"]%string) as Hc.
  { cbn. rewrite !append_assoc. reflexivity. }
  assert (names state
          = String.append arm_id_
            <$> ["_joint1/position"; "_joint1/velocity";
                 "_joint2/position"; "_joint2/velocity";
                 "_joint3/position"; "_joint3/velocity";
                 "_joint4/position"; "_joint4/velocity";
                 "_joint5/position"; "_joint5/velocity";
                 "_joint6/position"; "_joint6/velocity";
                 "_joint7/position"; "_joint7/velocity"]%string) as Hs.
  { cbn. rewrite !append_assoc. reflexivity. }
  split; [reflexivity|]. split; [reflexivity|].
  split; [exact Hc|]. split; [exact Hs|].
  rewrite Hc, Hs, <- fmap_app.
  pose proof (append_inj arm_id_) as Hinj.
  apply (NoDup_fmap_2 _).
  repeat (constructor;
          [intros Hin;
           repeat (apply elem_of_cons in Hin as [Hin|Hin];
                   [discriminate Hin|]);
           inversion Hin|]).
  constructor.
Qed.


(** *** The arm at rest *)

(** The facts that a tracking tick keeps while the arm rests at the
    desired posture. *)
Lemma rest_step (q_desired : Vector7d) (s x : State) :
  interfaces_ready s = true ->
  (forall j, exists p v,
     measured_position s j = Some p /\ measured_velocity s j = Some v
     /\ q_desired !!! j = p /\ Double.finite p = true
     /\ is_zero v = true) ->
  (forall j, Double.finite (k_gains_ s !!! j) = true
             /\ Double.finite (d_gains_ s !!! j) = true) ->
  state_interfaces_ x = state_interfaces_ s ->
  k_gains_ x = k_gains_ s -> d_gains_ x = d_gains_ s ->
  (num_joints <= length (command_interfaces_ x))%nat ->
  (forall j, is_zero (dq_filtered_ x !!! j) = true) ->
  let x' := snd (update (q_desired, false) x) in
  state_interfaces_ x' = state_interfaces_ s
  /\ k_gains_ x' = k_gains_ s /\ d_gains_ x' = d_gains_ s
  /\ (num_joints <= length (command_interfaces_ x'))%nat
  /\ (forall j, is_zero (dq_filtered_ x' !!! j) = true)
  /\ (forall j : fin num_joints, exists tau,
        command_interfaces_ x' !! fin_to_nat j = Some tau
        /\ is_zero tau = true).
Proof.
  intros Hready Hrest Hgains Hsi Hk Hd Hcmd Hf x'.
  assert (returns (update (q_desired, false)) x) as Hret.
  { apply update_returns_when_ready; [|intros _; exact Hcmd].
    rewrite <- Hready. apply forallb_same. intros j. apply ready_frame, Hsi. }
  destruct (update_tracking q_desired x Hret)
    as (u & x1 & E1 & _ & Hq2 & Hdq2 & Hf2 & Hcmd2).
  fold x' in Hq2, Hdq2, Hf2, Hcmd2.
  assert (preserves state_interfaces_ (update (q_desired, false))) as P1
      by (unfold update; cbn [fst snd]; frame_ctrl).
  assert (preserves k_gains_ (update (q_desired, false))) as P2
      by (unfold update; cbn [fst snd]; frame_ctrl).
  assert (preserves d_gains_ (update (q_desired, false))) as P3
      by (unfold update; cbn [fst snd]; frame_ctrl).
  assert (forall j, is_zero (dq_filtered_ x' !!! j) = true) as Hf'.
  { intros j. rewrite Hf2, lookup_filter.
    destruct (updateJointStates_returns x u x1 E1 j) as [_ Mdq].
    destruct (Hrest j) as (p & v & _ & Hv & _ & _ & Hz).
    unfold measured_velocity in *. rewrite Hsi, Hv in Mdq.
    injection Mdq as ->.
    apply add_zeros; apply mul_zero_r_finite; try reflexivity;
      [apply Hf | exact Hz]. }
  split; [subst x'; rewrite P1; exact Hsi|].
  split; [subst x'; rewrite P2; exact Hk|].
  split; [subst x'; rewrite P3; exact Hd|].
  split.
  { apply joints_below, Forall_forall. intros j _.
    exact (lookup_lt_Some _ _ _ (Hcmd2 j)). }
  split; [exact Hf'|].
  intros j. eexists. split; [apply Hcmd2|].
  rewrite lookup_torque, <- Hf2, Hk, Hd.
  destruct (updateJointStates_returns x u x1 E1 j) as [Mq _].
  destruct (Hrest j) as (p & v & Hp & _ & Hqd & Hfin & _).
  unfold measured_position in *. rewrite Hsi, Hp in Mq.
  injection Mq as Mq. destruct (Hgains j) as [Gk Gd].
  apply torque_zero; try assumption;
    [congruence | rewrite Mq; exact Hfin | apply Hf'].
Qed.

(** X25: the arm at rest stays unforced.  While the interfaces report the
    desired posture (finite positions) with zero velocities, and the gains
    are finite, a controller whose filtered velocity is zero commands a
    zero torque at every joint on every tracking tick, however many ticks
    run, and its filtered velocity stays zero. *)
Theorem torque_stays_zero_at_rest
        (n : nat) (s : State) (q_desired : Vector7d)
        (i : fin num_joints) :
  interfaces_ready s = true ->
  (num_joints <= length (command_interfaces_ s))%nat ->
  (forall j, exists p v,
     measured_position s j = Some p /\ measured_velocity s j = Some v
     /\ q_desired !!! j = p /\ Double.finite p = true
     /\ is_zero v = true) ->
  (forall j, Double.finite (k_gains_ s !!! j) = true
             /\ Double.finite (d_gains_ s !!! j) = true) ->
  (forall j, is_zero (dq_filtered_ s !!! j) = true) ->
  let s' := ticks (S n) (q_desired, false) s in
  exists tau,
    command_interfaces_ s' !! fin_to_nat i = Some tau
    /\ is_zero tau = true
    /\ is_zero (dq_filtered_ s' !!! i) = true.
Proof.
  intros Hready Hcmd Hrest Hgains Hf s'.
  assert (forall m,
            let x := ticks m (q_desired, false) s in
            state_interfaces_ x = state_interfaces_ s
            /\ k_gains_ x = k_gains_ s /\ d_gains_ x = d_gains_ s
            /\ (num_joints <= length (command_interfaces_ x))%nat
            /\ (forall j, is_zero (dq_filtered_ x !!! j) = true)) as Hinv.
  { induction m as [|m IH].
    - repeat split; assumption.
    - destruct IH as (I1 & I2 & I3 & I4 & I5).
      destruct (rest_step q_desired s _ Hready Hrest Hgains I1 I2 I3 I4 I5)
        as (J1 & J2 & J3 & J4 & J5 & _).
      repeat split; assumption. }
  destruct (Hinv n) as (I1 & I2 & I3 & I4 & I5).
  destruct (rest_step q_desired s _ Hready Hrest Hgains I1 I2 I3 I4 I5)
    as (_ & _ & _ & _ & J5 & J6).
  destruct (J6 i) as (tau & Htau & Hz).
  exists tau. split; [exact Htau|]. split; [exact Hz | apply J5].
Qed.

(** *** The further properties on concrete inputs *)

Lemma holding_tick_reads_measurements_witness :
  let s := configured demo_k_gains demo_d_gains in
  let s' := snd (update (setZero, true) s) in
  Some (q_ s' !!! 0%fin) = measured_position s 0%fin
  /\ Some (dq_ s' !!! 0%fin) = measured_velocity s 0%fin
  /\ dq_filtered_ s' = dq_filtered_ s.
Proof.
  apply (holding_tick_reads_measurements
           (configured demo_k_gains demo_d_gains) setZero 0%fin).
  eexists. vm_compute. reflexivity.
Defined.

Lemma first_tick_after_configure_witness :
  let s := unconfigured at_rest in
  let s1 := snd (on_configure "panda" demo_k_gains demo_d_gains s) in
  let s2 := snd (update (setZero, false) s1) in
  exists k d p v,
    demo_k_gains !! fin_to_nat (0%fin : fin num_joints) = Some k
    /\ demo_d_gains !! fin_to_nat (0%fin : fin num_joints) = Some d
    /\ measured_position s 0%fin = Some p
    /\ measured_velocity s 0%fin = Some v
    /\ fst (on_configure "panda" demo_k_gains demo_d_gains s)
       = Normal SUCCESS
    /\ fst (update (setZero, false) s1) = Normal OK
    /\ Double.same_number (dq_filtered_ s2 !!! 0%fin) (0.99 * v)
    /\ command_interfaces_ s2 !! fin_to_nat (0%fin : fin num_joints)
       = Some (k * (setZero !!! 0%fin - p)
               + d * (- dq_filtered_ s2 !!! 0%fin)).
Proof.
  apply (first_tick_after_configure "panda" demo_k_gains demo_d_gains
           (unconfigured at_rest) setZero 0%fin).
  - reflexivity.
  - reflexivity.
  - reflexivity.
  - vm_compute. lia.
Defined.


Lemma torque_stays_zero_at_rest_witness :
  let s' := ticks 4 (setZero, false)
              (configured demo_k_gains demo_d_gains) in
  exists tau,
    command_interfaces_ s' !! fin_to_nat (0%fin : fin num_joints) = Some tau
    /\ is_zero tau = true
    /\ is_zero (dq_filtered_ s' !!! (0%fin : fin num_joints)) = true.
Proof.
  apply (torque_stays_zero_at_rest 3 (configured demo_k_gains demo_d_gains)
           setZero 0%fin).
  - reflexivity.
  - vm_compute. lia.
  - intros j. exists 0, 0.
    repeat (inv_fin j; [repeat split; reflexivity | intros j]). inv_fin j.
  - intros j.
    repeat (inv_fin j; [split; reflexivity | intros j]). inv_fin j.
  - intros j.
    repeat (inv_fin j; [reflexivity | intros j]). inv_fin j.
Defined.


End MyControllerSpec.
